(** * Cadence Calculator: the IAS and GDN node processors

    A shallow embedding of [Processors/base_processor.py],
    [Processors/ias_processor.py] and [Processors/gdn_processor.py], and the
    properties of the cadence pipeline proved over it.

    Conventions of the model.
    - A table is a [list] of records, one record per row, one field per column.
    - Cell text is ASCII: [strip] and [lower] act on the ASCII range.
    - A Python float is a [pyfloat]: NaN, an infinity, or the rational a
      double denotes.  Every comparison of the source is against an integer
      literal and is exact.  Its two additions ([quantity + vendor_id] and the
      sum of a group) round and can meet an infinity: they are operations of
      the runtime, never the addition of rationals.
    - Python integers are [Z].  The column Cadence Score is int64.  The
      values the stages compute are the five tiers; the one integer the
      source stores there without a bound is [int(float(prev_cad))] of the
      fallback.  Where int64 cannot hold it, what [.at] does is pandas' own
      affair (the assignment may raise inside the [try], or change the type
      of the column), and the run is followed no further: [fallback] has no
      row, and [process] ends in [Failed Int64Overflow], which is no result
      of the source but the limit of the model.
    - A pandas [Timestamp] is kept as its calendar date; the processors only
      ever read it through [strftime('%Y-%m-%d')].
    - What the interpreter and pandas decide, and the source does not (parsing
      a float, printing one, adding two, summing a group, parsing a date, the
      iteration order of a [set]), is the interface [Runtime];
      [reference_runtime] is one instance.
    - The pipeline is embedded from the tables [process_armt] returns and
      from the outflow rows as they stand once [process_outflow] has filtered
      them, derived the classes and coerced dates and quantities.  The column
      [quantity] is float64, as [pd.to_numeric(...).fillna(0)] leaves a column
      that held a fraction, a gap or a cell it could not read, and may hold
      an infinity; [vendor_id] is int64.  Everything after that point, up to
      the result of [process], is embedded statement by statement.
    - [process_armt] itself is embedded from the rows of the ARMT sheet, in
      [IAS_armt] and [GDN_armt]; a run on a sheet is [process] on its
      result. *)

From Stdlib Require Import ZArith QArith Bool List String Ascii Lia Permutation
  Sorted.
Import ListNotations.

Open Scope string_scope.
Open Scope list_scope.
Open Scope Z_scope.

(* ================================================================== *)
(** * Text *)
(* ================================================================== *)

Module Text.

(** [str.isspace] on the ASCII range: TAB..CR, FS..US and the blank. *)
Definition is_space (c : ascii) : bool :=
  let n := N_of_ascii c in
  ((9 <=? n) && (n <=? 13) || (28 <=? n) && (n <=? 32))%N.

Fixpoint lstrip (s : string) : string :=
  match s with
  | EmptyString => EmptyString
  | String c s' => if is_space c then lstrip s' else s
  end.

Fixpoint rstrip (s : string) : string :=
  match s with
  | EmptyString => EmptyString
  | String c s' =>
      match rstrip s' with
      | EmptyString => if is_space c then EmptyString else String c EmptyString
      | t => String c t
      end
  end.

(** [s.strip()] *)
Definition strip (s : string) : string := lstrip (rstrip s).

Definition lower_ascii (c : ascii) : ascii :=
  let n := N_of_ascii c in
  if ((65 <=? n) && (n <=? 90))%N then ascii_of_N (n + 32) else c.

(** [s.lower()] *)
Fixpoint lower (s : string) : string :=
  match s with
  | EmptyString => EmptyString
  | String c s' => String (lower_ascii c) (lower s')
  end.

(** [x in [...]] for a list of strings. *)
Definition mem (x : string) (l : list string) : bool :=
  existsb (String.eqb x) l.

(** [s.split(sep)] for a one-character separator: the pieces, never empty. *)
Fixpoint split (sep : ascii) (s : string) : list string :=
  match s with
  | EmptyString => [EmptyString]
  | String c s' =>
      if Ascii.eqb c sep then EmptyString :: split sep s'
      else match split sep s' with
           | [] => [String c EmptyString]
           | p :: ps => String c p :: ps
           end
  end.

(** [pat in s]: [pat] occurs in [s] as a substring. *)
Fixpoint contains (pat s : string) : bool :=
  prefix pat s ||
  match s with
  | EmptyString => false
  | String _ s' => contains pat s'
  end.

(** The order pandas sorts strings by: code point order, which on ASCII text
    is the byte order of [String.compare]. *)
Definition le (a b : string) : bool := String.leb a b.

End Text.

(* ================================================================== *)
(** * Numbers *)
(* ================================================================== *)

(** A Python / numpy float by the value it denotes. *)
Inductive pyfloat : Type :=
| NaN
| NegInf
| Fin (q : Q)
| PosInf.

(** The float of an integer literal. *)
Definition of_int (z : Z) : pyfloat := Fin (inject_Z z).

(** [pd.notna(x)] *)
Definition notna (x : pyfloat) : bool :=
  match x with NaN => false | _ => true end.

(** [x >= k] for an integer literal [k]; false on NaN. *)
Definition ge_int (x : pyfloat) (k : Z) : bool :=
  match x with
  | NaN | NegInf => false
  | PosInf => true
  | Fin q => Qle_bool (inject_Z k) q
  end.

(** [x < k] for an integer literal [k]; false on NaN. *)
Definition lt_int (x : pyfloat) (k : Z) : bool :=
  match x with
  | NaN | PosInf => false
  | NegInf => true
  | Fin q => negb (Qle_bool (inject_Z k) q)
  end.

(** [x == k] for an integer literal [k]. *)
Definition eq_int (x : pyfloat) (k : Z) : bool :=
  match x with
  | Fin q => Qeq_bool q (inject_Z k)
  | _ => false
  end.

(** [x.isin(ks)] for integer literals. *)
Definition isin (x : pyfloat) (ks : list Z) : bool := existsb (eq_int x) ks.

(** The outcome of [int(x)] on a float. *)
Inductive int_result : Type :=
| IntValue (z : Z)
| IntValueError      (* int(nan) *)
| IntOverflowError.  (* int(inf) *)

(** [int(x)]: truncation toward zero. *)
Definition py_int (x : pyfloat) : int_result :=
  match x with
  | NaN => IntValueError
  | NegInf | PosInf => IntOverflowError
  | Fin q => IntValue (Z.quot (Qnum q) (Z.pos (Qden q)))
  end.

(** The integers an int64 column holds. *)
Definition fits_int64 (z : Z) : bool :=
  (-9223372036854775808 <=? z) && (z <=? 9223372036854775807).

Arguments fits_int64 : simpl never.

(** [str(n)] for a Python int. *)
Definition digit (n : Z) : ascii := ascii_of_N (Z.to_N (48 + n mod 10)).

Fixpoint digits_fuel (fuel : nat) (n : Z) (acc : string) : string :=
  match fuel with
  | O => acc
  | S f =>
      if n <? 10 then String (digit n) acc
      else digits_fuel f (n / 10) (String (digit n) acc)
  end.

Definition str_int (z : Z) : string :=
  let n := Z.abs z in
  let body := digits_fuel (S (Z.to_nat (Z.log2 n))) n EmptyString in
  if z <? 0 then String "-" body else body.

(* ================================================================== *)
(** * Calendar dates *)
(* ================================================================== *)

(** The date of a pandas [Timestamp]. *)
Record date : Type := mkdate { year : Z; month : Z; day : Z }.

Definition is_leap (y : Z) : bool :=
  (y mod 4 =? 0) && (negb (y mod 100 =? 0) || (y mod 400 =? 0)).

Definition days_in_month (y m : Z) : Z :=
  if m =? 2 then (if is_leap y then 29 else 28)
  else if (m =? 4) || (m =? 6) || (m =? 9) || (m =? 11) then 30
  else 31.

Definition valid_date (d : date) : bool :=
  (1 <=? month d) && (month d <=? 12) &&
  (1 <=? day d) && (day d <=? days_in_month (year d) (month d)).

(** Chronological order. *)
Definition date_leb (a b : date) : bool :=
  (year a <? year b) ||
  ((year a =? year b) &&
   ((month a <? month b) || ((month a =? month b) && (day a <=? day b)))).

Definition date_ltb (a b : date) : bool := negb (date_leb b a).

Definition next_day (d : date) : date :=
  if day d <? days_in_month (year d) (month d)
  then mkdate (year d) (month d) (day d + 1)
  else if month d <? 12 then mkdate (year d) (month d + 1) 1
  else mkdate (year d + 1) 1 1.

Definition prev_day (d : date) : date :=
  if 1 <? day d then mkdate (year d) (month d) (day d - 1)
  else if 1 <? month d
       then mkdate (year d) (month d - 1) (days_in_month (year d) (month d - 1))
       else mkdate (year d - 1) 12 31.

(** The date [k] days away. *)
Definition add_days (d : date) (k : Z) : date :=
  if 0 <=? k then Nat.iter (Z.to_nat k) next_day d
  else Nat.iter (Z.to_nat (- k)) prev_day d.

(** The first and the last date whose midnight a nanosecond [Timestamp]
    holds. *)
Definition DATE_MIN : date := mkdate 1677 9 22.
Definition DATE_MAX : date := mkdate 2262 4 11.

Definition in_range (d : date) : bool :=
  date_leb DATE_MIN d && date_leb d DATE_MAX.

(** [ts + pd.Timedelta(days=k)]; [None] when pandas raises out of bounds. *)
Definition timestamp_add (d : date) (k : Z) : option date :=
  let d' := add_days d k in
  if in_range d' then Some d' else None.

Definition pad2 (n : Z) (k : string) : string :=
  String (digit (n / 10)) (String (digit n) k).

Definition pad4 (n : Z) (k : string) : string := pad2 (n / 100) (pad2 n k).

(** [ts.strftime('%Y-%m-%d')] *)
Definition strftime (d : date) : string :=
  pad4 (year d) (String "-" (pad2 (month d) (String "-" (pad2 (day d) EmptyString)))).

(** A date a [Timestamp] can carry: a calendar date of the years the
    nanosecond range spans. *)
Definition wf_date (d : date) : bool :=
  valid_date d && (1677 <=? year d) && (year d <=? 2262).

(* ================================================================== *)
(** * Cells *)
(* ================================================================== *)

(** A cell of a table read from a spreadsheet. [CNull] is None, NaN or NaT
    in an object column. *)
Inductive cell : Type :=
| CNull
| CText (s : string)
| CNum (x : pyfloat)
| CTime (d : date).

Coercion CText : string >-> cell.

(* ================================================================== *)
(** * The runtime interface *)
(* ================================================================== *)

(** What the processors ask of Python and pandas. *)
Class Runtime : Type := {
  (** [float(s)] on a string; [None] when it raises ValueError. *)
  py_float : string -> option pyfloat;
  (** [str(x)] on a float. *)
  py_str_float : pyfloat -> string;
  (** [x + n] where numpy adds an int64 column to a float64 column: [n] is
      made a double, and the two doubles are added. *)
  add_int64 : pyfloat -> Z -> pyfloat;
  (** The sum [groupby(key)['NC'].sum()] gives for one group of a float64
      column, from the values of the group in the order of the rows. *)
  sum_floats : list pyfloat -> pyfloat;
  (** [pd.to_datetime(s, errors='coerce')] on a string; [None] is NaT. *)
  to_datetime : string -> option date;
  (** [pd.to_datetime(x, errors='coerce')] on a number. *)
  num_to_datetime : pyfloat -> option date;
  (** [list(s)] for the [set] built by adding the given keys in order. *)
  list_of_set : list string -> list string
}.

(* ================================================================== *)
(** * base_processor.py *)
(* ================================================================== *)

Definition NOT_FOUND : string := "not Found!".

(** [pd.isna(value)] *)
Definition isna (value : cell) : bool :=
  match value with
  | CNull => true
  | CNum x => negb (notna x)
  | _ => false
  end.

(** [BaseProcessor.is_not_found] *)
Definition is_not_found (value : cell) : bool :=
  if isna value then true
  else match value with
       | CText s =>
           Text.mem (Text.lower (Text.strip s))
             ["not found!"; "not found"; "nan"; "nat"; "none"; ""]
       | _ => false
       end.

(** [str(x)] on a cell that is not null. *)
Definition py_str {R : Runtime} (x : cell) : string :=
  match x with
  | CNull => "nan"
  | CText s => s
  | CNum v => py_str_float v
  | CTime d => strftime d ++ " 00:00:00"
  end.

(** [float(x)] on a cell; [None] when it raises ValueError or TypeError. *)
Definition py_float_cell {R : Runtime} (x : cell) : option pyfloat :=
  match x with
  | CText s => py_float s
  | CNum v => Some v
  | CNull | CTime _ => None
  end.

(** [BaseProcessor.safe_to_numeric], on one element of the series. *)
Definition safe_to_numeric {R : Runtime} (x : cell) : pyfloat :=
  if is_not_found x then NaN
  else match py_float_cell x with
       | Some v => v
       | None => NaN
       end.

(** [BaseProcessor.date_to_string] *)
Definition date_to_string {R : Runtime} (date_value : cell) : string :=
  if is_not_found date_value then NOT_FOUND
  else match date_value with
       | CText s =>
           if Text.mem (Text.lower (Text.strip s))
                ["not found!"; "not found"; "nan"; "nat"; ""]
           then NOT_FOUND else s
       | CTime d => strftime d
       | CNum x =>
           match num_to_datetime x with
           | Some d => strftime d
           | None => NOT_FOUND
           end
       | CNull => NOT_FOUND
       end.

(** [BaseProcessor.add_days_to_date] *)
Definition add_days_to_date {R : Runtime} (date_value : cell) (days : Z) : string :=
  if is_not_found date_value then NOT_FOUND
  else
    let parsed :=
      match date_value with
      | CText s => to_datetime s
      | CTime d => Some d
      | CNum x => num_to_datetime x
      | CNull => None
      end in
    match parsed with
    | None => NOT_FOUND
    | Some d =>
        match timestamp_add d days with
        | Some new_date => strftime new_date
        | None => NOT_FOUND
        end
    end.

(* ================================================================== *)
(** * The Cadence table *)
(* ================================================================== *)

(** One row of the [Cadence] data frame: the columns both processors have,
    and [extra] for the columns of one processor only.  [Key] is the column
    [child_class] of GDN and [Combined Classes] of IAS.  A column a stage
    creates holds [NOT_FOUND] until that stage assigns it. *)
Record Row (X : Type) : Type := mkRow {
  Key : string;
  program : string;
  Policies : string;
  Parent_Classes : string;
  Source : string;
  Destination : string;
  risk_score : pyfloat;
  Resolved_Date : string;
  NC_Count : string;
  Cadence_Score : Z;
  JSR : string;
  Previous_Cadence : string;
  Previous_Due_Date : string;
  Previous_NC : string;
  Due_Date : string;
  extra : X
}.

Arguments mkRow {X}.
Arguments Key {X}.
Arguments program {X}.
Arguments Policies {X}.
Arguments Parent_Classes {X}.
Arguments Source {X}.
Arguments Destination {X}.
Arguments risk_score {X}.
Arguments Resolved_Date {X}.
Arguments NC_Count {X}.
Arguments Cadence_Score {X}.
Arguments JSR {X}.
Arguments Previous_Cadence {X}.
Arguments Previous_Due_Date {X}.
Arguments Previous_NC {X}.
Arguments Due_Date {X}.
Arguments extra {X}.

Definition set_Cadence_Score {X} (v : Z) (r : Row X) : Row X :=
  mkRow (Key r) (program r) (Policies r) (Parent_Classes r) (Source r)
    (Destination r) (risk_score r) (Resolved_Date r) (NC_Count r) v (JSR r)
    (Previous_Cadence r) (Previous_Due_Date r) (Previous_NC r) (Due_Date r)
    (extra r).

Definition set_Due_Date {X} (v : string) (r : Row X) : Row X :=
  mkRow (Key r) (program r) (Policies r) (Parent_Classes r) (Source r)
    (Destination r) (risk_score r) (Resolved_Date r) (NC_Count r)
    (Cadence_Score r) (JSR r) (Previous_Cadence r) (Previous_Due_Date r)
    (Previous_NC r) v (extra r).

Definition set_risk_score {X} (v : pyfloat) (r : Row X) : Row X :=
  mkRow (Key r) (program r) (Policies r) (Parent_Classes r) (Source r)
    (Destination r) v (Resolved_Date r) (NC_Count r) (Cadence_Score r)
    (JSR r) (Previous_Cadence r) (Previous_Due_Date r) (Previous_NC r)
    (Due_Date r) (extra r).

Definition set_previous {X} (cad due nc : string) (r : Row X) : Row X :=
  mkRow (Key r) (program r) (Policies r) (Parent_Classes r) (Source r)
    (Destination r) (risk_score r) (Resolved_Date r) (NC_Count r)
    (Cadence_Score r) (JSR r) cad due nc (Due_Date r) (extra r).

Definition set_extra {X Y} (e : Y) (r : Row X) : Row Y :=
  mkRow (Key r) (program r) (Policies r) (Parent_Classes r) (Source r)
    (Destination r) (risk_score r) (Resolved_Date r) (NC_Count r)
    (Cadence_Score r) (JSR r) (Previous_Cadence r) (Previous_Due_Date r)
    (Previous_NC r) (Due_Date r) e.

(** The five audit intervals. *)
Definition tiers : list Z := [30; 60; 90; 180; 365].

Definition is_tier (z : Z) : bool := existsb (Z.eqb z) tiers.

(** [RISK_TO_CADENCE], as [Series.map(RISK_TO_CADENCE).fillna(30)] reads it. *)
Definition RISK_TO_CADENCE (risk : pyfloat) : Z :=
  if eq_int risk 0 then 30
  else if eq_int risk 1 then 30
  else if eq_int risk 2 then 60
  else if eq_int risk 3 then 90
  else if eq_int risk 4 then 180
  else if eq_int risk 5 then 365
  else 30.

(** [Series.str.contains('_JSR|-JSR', regex=True)] mapped to Yes / No. *)
Definition jsr_flag (policies : string) : string :=
  if Text.contains "_JSR" policies || Text.contains "-JSR" policies
  then "Yes" else "No".

(** [np.where(cond, v, new_score)] at one position. *)
Definition np_where (cond : bool) (v old : Z) : Z := if cond then v else old.

(* ================================================================== *)
(** * Score transition and due dates (shared by IAS and GDN) *)
(* ================================================================== *)

Section Stages.

Context {R : Runtime} {X : Type}.

(** [update_cadence_score] at one row: the chain of [np.where]
    (ias_processor.py 339-402, gdn_processor.py 281-344, the same text). *)
Definition updated_score (r : Row X) : Z :=
  let nc_numeric := safe_to_numeric (NC_Count r) in
  let prev_nc_numeric := safe_to_numeric (Previous_NC r) in
  let prev_cad_numeric := safe_to_numeric (Previous_Cadence r) in
  let risk := risk_score r in
  let new_score := Cadence_Score r in
  let has_prev_cad := notna prev_cad_numeric in
  let has_nc := notna nc_numeric in
  let has_prev_nc := notna prev_nc_numeric in
  (* previous cadence 30 *)
  let mask_30 := has_prev_cad && eq_int prev_cad_numeric 30 in
  let new_score := np_where (mask_30 && has_nc && ge_int nc_numeric 10) 30 new_score in
  let new_score := np_where (mask_30 && has_nc && lt_int nc_numeric 10 && has_prev_nc && ge_int prev_nc_numeric 10) 30 new_score in
  let new_score := np_where (mask_30 && negb has_nc && has_prev_nc && ge_int prev_nc_numeric 10) 30 new_score in
  let new_score := np_where (mask_30 && has_nc && lt_int nc_numeric 10 && has_prev_nc && lt_int prev_nc_numeric 10) 60 new_score in
  let new_score := np_where (mask_30 && has_nc && lt_int nc_numeric 10 && negb has_prev_nc) 60 new_score in
  (* previous cadence 60 *)
  let mask_60 := has_prev_cad && eq_int prev_cad_numeric 60 in
  let new_score := np_where (mask_60 && has_nc && ge_int nc_numeric 10) 30 new_score in
  let new_score := np_where (mask_60 && has_nc && lt_int nc_numeric 10 && has_prev_nc && ge_int prev_nc_numeric 10) 60 new_score in
  let new_score := np_where (mask_60 && negb has_nc && has_prev_nc && ge_int prev_nc_numeric 10) 60 new_score in
  let new_score := np_where (mask_60 && has_nc && lt_int nc_numeric 10 && has_prev_nc && lt_int prev_nc_numeric 10) 90 new_score in
  let new_score := np_where (mask_60 && has_nc && lt_int nc_numeric 10 && negb has_prev_nc) 90 new_score in
  (* previous cadence 90 *)
  let mask_90 := has_prev_cad && eq_int prev_cad_numeric 90 in
  let new_score := np_where (mask_90 && has_nc && ge_int nc_numeric 10) 60 new_score in
  let new_score := np_where (mask_90 && has_nc && lt_int nc_numeric 10 && has_prev_nc && ge_int prev_nc_numeric 10) 90 new_score in
  let new_score := np_where (mask_90 && negb has_nc && has_prev_nc && ge_int prev_nc_numeric 10) 90 new_score in
  let new_score := np_where (mask_90 && has_nc && lt_int nc_numeric 10 && has_prev_nc && lt_int prev_nc_numeric 10 && isin risk [1; 2; 3]) 90 new_score in
  let new_score := np_where (mask_90 && has_nc && lt_int nc_numeric 10 && has_prev_nc && lt_int prev_nc_numeric 10 && isin risk [4; 5]) 180 new_score in
  let new_score := np_where (mask_90 && has_nc && lt_int nc_numeric 10 && negb has_prev_nc && isin risk [1; 2; 3]) 90 new_score in
  let new_score := np_where (mask_90 && has_nc && lt_int nc_numeric 10 && negb has_prev_nc && isin risk [4; 5]) 180 new_score in
  (* previous cadence 180 *)
  let mask_180 := has_prev_cad && eq_int prev_cad_numeric 180 in
  let new_score := np_where (mask_180 && has_nc && ge_int nc_numeric 15) 90 new_score in
  let new_score := np_where (mask_180 && has_nc && lt_int nc_numeric 15 && has_prev_nc && ge_int prev_nc_numeric 15) 180 new_score in
  let new_score := np_where (mask_180 && negb has_nc && has_prev_nc && ge_int prev_nc_numeric 15) 180 new_score in
  let new_score := np_where (mask_180 && has_nc && lt_int nc_numeric 15 && has_prev_nc && lt_int prev_nc_numeric 15 && eq_int risk 4) 180 new_score in
  let new_score := np_where (mask_180 && has_nc && lt_int nc_numeric 15 && has_prev_nc && lt_int prev_nc_numeric 15 && negb (eq_int risk 4)) 365 new_score in
  let new_score := np_where (mask_180 && has_nc && lt_int nc_numeric 15 && negb has_prev_nc && eq_int risk 4) 180 new_score in
  let new_score := np_where (mask_180 && has_nc && lt_int nc_numeric 15 && negb has_prev_nc && negb (eq_int risk 4)) 365 new_score in
  (* previous cadence 365 *)
  let mask_365 := has_prev_cad && eq_int prev_cad_numeric 365 in
  let new_score := np_where (mask_365 && has_nc && ge_int nc_numeric 15) 180 new_score in
  let new_score := np_where (mask_365 && has_nc && lt_int nc_numeric 15 && has_prev_nc && ge_int prev_nc_numeric 15) 365 new_score in
  let new_score := np_where (mask_365 && negb has_nc && has_prev_nc && ge_int prev_nc_numeric 15) 365 new_score in
  let new_score := np_where (mask_365 && has_nc && lt_int nc_numeric 15 && has_prev_nc && lt_int prev_nc_numeric 15) 365 new_score in
  let new_score := np_where (mask_365 && has_nc && lt_int nc_numeric 15 && negb has_prev_nc) 365 new_score in
  new_score.

(** [update_cadence_score]: [np.where] works position by position. *)
Definition update_cadence_score (Cadence : list (Row X)) : list (Row X) :=
  map (fun r => set_Cadence_Score (updated_score r) r) Cadence.

(** The day offset chosen in the first loop of [calculate_due_dates]
    (ias_processor.py 430-454, gdn_processor.py 372-404): four independent
    [if] blocks, a later one overwriting an earlier one. *)
Definition due_days (nc : pyfloat) (cad : Z) : option Z :=
  let days := None in
  let days :=
    if lt_int nc 10 then
      if cad =? 30 then Some 30
      else if cad =? 60 then Some 60
      else if cad =? 90 then Some 90
      else days
    else days in
  let days :=
    if lt_int nc 15 then
      if cad =? 180 then Some 180
      else if cad =? 365 then Some 365
      else days
    else days in
  let days :=
    if ge_int nc 10 then
      if cad =? 30 then Some 30
      else if cad =? 60 then Some 30
      else if cad =? 90 then Some 60
      else days
    else days in
  let days :=
    if ge_int nc 15 then
      if cad =? 180 then Some 90
      else if cad =? 365 then Some 180
      else days
    else days in
  days.

(** The body of the first loop of [calculate_due_dates]. *)
Definition computed_due_date (r : Row X) : string :=
  let nc := safe_to_numeric (NC_Count r) in
  let cad := Cadence_Score r in
  let resolved := Resolved_Date r in
  if negb (notna nc) || is_not_found resolved then NOT_FOUND
  else match due_days nc cad with
       | Some days => add_days_to_date resolved days
       | None => NOT_FOUND
       end.

(** The body of the second loop of [calculate_due_dates], "Fallback to
    previous values".  [None]: the body did not come to its end on an int64
    column.  Either [int(float(prev_cad))] raised OverflowError, which the
    [except (ValueError, TypeError)] does not catch; or it gave an integer
    int64 cannot hold, and what the assignment through [.at] does then is
    not the source's to say: the run is followed no further. *)
Definition fallback (r : Row X) : option (Row X) :=
  if is_not_found (NC_Count r) then
    let prev_cad := Previous_Cadence r in
    let scored :=
      if negb (is_not_found prev_cad) then
        match py_float prev_cad with
        | None => Some r                                (* ValueError: pass *)
        | Some x =>
            match py_int x with
            | IntValue z =>
                if fits_int64 z then Some (set_Cadence_Score z r)
                else None                               (* beyond int64 *)
            | IntValueError => Some r                   (* ValueError: pass *)
            | IntOverflowError => None
            end
        end
      else Some r in
    match scored with
    | None => None
    | Some r' =>
        let prev_due := Previous_Due_Date r' in
        if negb (is_not_found prev_due)
        then Some (set_Due_Date prev_due r')
        else Some r'
    end
  else Some r.

(** Python's loop over the rows: the first exception ends it. *)
Fixpoint for_rows {A B : Type} (f : A -> option B) (l : list A) : option (list B) :=
  match l with
  | [] => Some []
  | a :: l' =>
      match f a with
      | None => None
      | Some b =>
          match for_rows f l' with
          | None => None
          | Some bs => Some (b :: bs)
          end
      end
  end.

(** [calculate_due_dates] *)
Definition calculate_due_dates (Cadence : list (Row X)) : option (list (Row X)) :=
  let Cadence := map (set_Due_Date NOT_FOUND) Cadence in
  let Cadence := map (fun r => set_Due_Date (computed_due_date r) r) Cadence in
  for_rows fallback Cadence.

(** The second loop would store in this row an integer int64 cannot hold. *)
Definition exceeds_int64 (r : Row X) : bool :=
  is_not_found (NC_Count r)
  && negb (is_not_found (Previous_Cadence r))
  && match py_float (Previous_Cadence r) with
     | Some x =>
         match py_int x with
         | IntValue z => negb (fits_int64 z)
         | _ => false
         end
     | None => false
     end.

(** The three assignments of [finalize_cadence], at one row: risk 0 becomes
    1, the score goes through [pd.to_numeric(...).fillna(30).astype(int)]
    and the due date through [date_to_string].  The column Cadence Score is
    int64 when it comes here: [create_cadence] and [update_cadence_score]
    end on [astype(int)] with tiers in it, and [fallback] stores nothing
    int64 cannot hold.  It has no missing value, and the cast to int64
    returns it as it is. *)
Definition finalize_row (r : Row X) : Row X :=
  let r := if eq_int (risk_score r) 0 then set_risk_score (of_int 1) r else r in
  set_Due_Date (date_to_string (Due_Date r)) r.

End Stages.

(* ================================================================== *)
(** * Lookups, sorting and grouping *)
(* ================================================================== *)

(** [df.drop_duplicates(subset=[key]).set_index(key)[col].to_dict()] read at
    [k]: the first row of the table whose key is [k]. *)
Definition lookup {A : Type} (key : A -> string) (rows : list A) (k : string)
  : option A :=
  find (fun r => String.eqb (key r) k) rows.

(** [df.sort_values(by=col, ascending=False)] on a column of strings.  Rows
    with equal keys keep their order here; pandas sorts with a quicksort by
    default, which may not, and the properties below read nothing off the
    order of rows with equal keys. *)
Fixpoint insert_desc {A : Type} (key : A -> string) (x : A) (l : list A) : list A :=
  match l with
  | [] => [x]
  | y :: l' =>
      if Text.le (key y) (key x) then x :: l
      else y :: insert_desc key x l'
  end.

Definition sort_desc {A : Type} (key : A -> string) (l : list A) : list A :=
  fold_right (insert_desc key) [] l.

(** [df.groupby(key, as_index=False)['NC'].sum()], one (key, sum) per
    distinct key: the sum of a key is taken over the rows of the key, in the
    order the table has them.  The table is only read back by key. *)
Definition groupby_sum {R : Runtime} {A : Type} (key : A -> string)
    (val : A -> pyfloat) (rows : list A) : list (string * pyfloat) :=
  map (fun k =>
         (k, sum_floats (map val (filter (fun r => String.eqb (key r) k) rows))))
      (nodup string_dec (map key rows)).

(** Why a run ends without a Cadence table. *)
Inductive failure : Type :=
| NoValidNodes    (* 'No valid ... nodes found in ARMT data' *)
| Raised          (* an exception reached [except Exception] *)
| Int64Overflow.  (* the limit of the model: a score beyond int64 *)

(** Why [calculate_due_dates] gave no table for [Cadence].  A row that would
    store a score beyond int64 puts the whole run outside the model, wherever
    it stands among the rows: before pandas has settled that assignment,
    nothing is known of the assignments after it. *)
Definition stopped {R : Runtime} {X : Type} (Cadence : list (Row X)) : failure :=
  if existsb exceeds_int64 Cadence then Int64Overflow else Raised.

(** What [process] returns: [cadence] and [cadence_filtered], or the failure. *)
Inductive outcome (A : Type) : Type :=
| Success (cadence cadence_filtered : list A)
| Failed (why : failure).

Arguments Success {A}.
Arguments Failed {A}.

(* ================================================================== *)
(** * Column idioms of both processors *)
(* ================================================================== *)

Section Columns.

Context {R : Runtime}.

(** What [pd.to_datetime] left in a cell: a Timestamp or NaT. *)
Definition cell_of_date (d : option date) : cell :=
  match d with Some t => CTime t | None => CNull end.

(** [.fillna(1)] then [safe_to_numeric(...).fillna(1)] on the looked-up
    parent score. *)
Definition risk_of (score : option cell) : pyfloat :=
  let filled :=
    match score with
    | Some c => if isna c then CNum (of_int 1) else c
    | None => CNum (of_int 1)
    end in
  let x := safe_to_numeric filled in
  if notna x then x else of_int 1.

(** [cc.map(d).fillna(NOT_FOUND).astype(str)] for a column of strings. *)
Definition text_or_not_found {A : Type} (col : A -> string) (row : option A) : string :=
  match row with
  | Some r => col r
  | None => NOT_FOUND
  end.

(** [cc.map(d).fillna(NOT_FOUND).astype(str)] for a column read from the
    spreadsheet. *)
Definition cell_or_not_found {A : Type} (col : A -> cell) (row : option A) : string :=
  match row with
  | Some r => if isna (col r) then NOT_FOUND else py_str (col r)
  | None => NOT_FOUND
  end.

(** The lambda that fills 'Previous Cadence'.  [None]: [int(x)] raised. *)
Definition previous_cadence (x : option cell) : option string :=
  match x with
  | None => Some NOT_FOUND
  | Some c =>
      if isna c then Some NOT_FOUND
      else match c with
           | CNum v =>
               match py_int v with
               | IntValue z => Some (str_int z)
               | _ => None
               end
           | _ => Some (py_str c)
           end
  end.

(** The lambda that fills 'NC Count' from the looked-up sum of the key. *)
Definition nc_count (x : option (string * pyfloat)) : string :=
  match x with
  | Some (_, v) => if notna v then py_str_float v else NOT_FOUND
  | None => NOT_FOUND
  end.

(** The lambda that fills 'Previous NC'. *)
Definition previous_nc (x : option cell) : string :=
  match x with
  | None => NOT_FOUND
  | Some c => if isna c then NOT_FOUND else py_str c
  end.

End Columns.

(* ================================================================== *)
(** * gdn_processor.py *)
(* ================================================================== *)

Module GDN.

Definition GDN_Core : list string := ["DE"; "ANY"; "Any"].
Definition GDN_Cross : list string := ["DE"; "TR"; "UK"; "Any"].
Definition GDN_Excluded_Sources : list string :=
  ["JP"; "FR"; "IT"; "ES"; "CN"; "US"; "AU"; "SG"; "AE"; "IN";
   "SA"; "CA"; "NL"; "EG"; "MX"; "UK"].

(** A row of the ARMT table [process_armt] returns: one row per child class
    and program. *)
Record armt_row : Type := mk_armt {
  child_class : string;
  parent_class : string;
  policy_name : string;
  a_program : string;
  a_Source : string;
  a_Destination : string;
  parent_score : cell
}.

(** A row of the outflow table where [process_outflow] reaches its date
    handling (gdn_processor.py 145): rows filtered, [child_class] and
    [parent_class] derived.  [resolved] is what [pd.to_datetime] makes of the
    date text ([None] is NaT), [quantity] and [vendor_id] are the coerced
    numbers. *)
Record outflow_row : Type := mk_outflow {
  o_child_class : string;
  o_parent_class : string;
  resolved : option date;
  quantity : pyfloat;
  vendor_id : Z
}.

(** A row of the outflow table [process_outflow] returns. *)
Record outflow_out : Type := mk_outflow_out {
  n_child_class : string;
  n_parent_class : string;
  n_Resolved_date : string;
  NC : pyfloat
}.

(** A row of the master file, the columns read. *)
Record master_row : Type := mk_master {
  m_child_class : string;
  m_Cadence_Score : cell;
  m_Due_Date : cell;
  m_NC_Count : cell
}.

(** The master table; [has_NC_Count]: the column 'NC Count' exists. *)
Record master_table : Type := mk_master_table {
  has_NC_Count : bool;
  master_rows : list master_row
}.

Section Processor.

Context {R : Runtime}.

(** [process_outflow], lines 145-171: the resolved date as text, the sort,
    the No-Child keys, NC and its sum per child class. *)
Definition process_outflow (outflow : list outflow_row)
  : list outflow_out * list (string * pyfloat) :=
  let dated :=
    map (fun r => (r, date_to_string (cell_of_date (resolved r)))) outflow in
  let sorted := sort_desc snd dated in
  let out :=
    map (fun p : outflow_row * string =>
           let (r, d) := p in
           mk_outflow_out
             (if String.eqb (o_child_class r) (o_parent_class r)
              then "No-Child" else o_child_class r)
             (o_parent_class r) d
             (add_int64 (quantity r) (vendor_id r)))
        sorted in
  (out, groupby_sum n_child_class NC out).

(** The keys [create_nodes] adds to [nodes], in the order it adds them. *)
Definition added_nodes (armt : list armt_row) : list string :=
  flat_map
    (fun row =>
       let source := Text.split "," (a_Source row) in
       let destination := Text.split "," (a_Destination row) in
       (* AmazonGlobal - DE source *)
       flat_map
         (fun j => if Text.mem (Text.strip j) GDN_Core
                   then [child_class row] else [])
         source
       ++
       (* CrossListing - destination in GDN_Cross and source not in excluded *)
       (if String.eqb (a_program row) "CrossListing" then
          flat_map
            (fun k =>
               flat_map
                 (fun t =>
                    if Text.mem (Text.strip k) GDN_Cross
                       && negb (Text.mem (Text.strip t) GDN_Excluded_Sources)
                    then [child_class row] else [])
                 source)
            destination
        else []))
    armt.

(** [create_nodes] *)
Definition create_nodes (armt : list armt_row) : list string :=
  list_of_set (added_nodes armt).

(** One row of [create_cadence]. *)
Definition cadence_row (armt : list armt_row) (outflow : list outflow_out)
    (outflow1 : list (string * pyfloat)) (node : string) : Row unit :=
  let a := lookup child_class armt node in
  let o := lookup n_child_class outflow node in
  let risk := risk_of (option_map parent_score a) in
  let policies := text_or_not_found policy_name a in
  mkRow node
    (text_or_not_found a_program a)
    policies
    (text_or_not_found parent_class a)
    (text_or_not_found a_Source a)
    (text_or_not_found a_Destination a)
    risk
    (text_or_not_found (fun r => date_to_string (CText (n_Resolved_date r))) o)
    (nc_count (lookup fst outflow1 node))
    (RISK_TO_CADENCE risk)
    (jsr_flag policies)
    NOT_FOUND NOT_FOUND NOT_FOUND NOT_FOUND tt.

(** [create_cadence] *)
Definition create_cadence (nodes : list string) (armt : list armt_row)
    (outflow : list outflow_out) (outflow1 : list (string * pyfloat))
  : list (Row unit) :=
  map (cadence_row armt outflow outflow1) nodes.

(** One row of [apply_master_lookups]. *)
Definition master_lookup_row {X : Type} (master : master_table) (r : Row X)
  : option (Row X) :=
  let m := lookup m_child_class (master_rows master) (Key r) in
  match previous_cadence (option_map m_Cadence_Score m) with
  | None => None
  | Some cad =>
      Some (set_previous cad
              (text_or_not_found (fun x => date_to_string (m_Due_Date x)) m)
              (if has_NC_Count master
               then previous_nc (option_map m_NC_Count m)
               else NOT_FOUND)
              r)
  end.

(** [apply_master_lookups] *)
Definition apply_master_lookups (Cadence : list (Row unit)) (master : master_table)
  : option (list (Row unit)) :=
  for_rows (master_lookup_row master) Cadence.

(** [finalize_cadence] *)
Definition finalize_cadence (Cadence : list (Row unit)) : list (Row unit) :=
  map finalize_row Cadence.

(** [process], from the tables [process_armt] and the parsing part of
    [process_outflow] hand on. *)
Definition process (armt : list armt_row) (outflow : list outflow_row)
    (master : master_table) : outcome (Row unit) :=
  let (outflow, outflow1) := process_outflow outflow in
  let nodes := create_nodes armt in
  if (List.length nodes =? 0)%nat then Failed NoValidNodes
  else
    let Cadence := create_cadence nodes armt outflow outflow1 in
    match apply_master_lookups Cadence master with
    | None => Failed Raised
    | Some Cadence =>
        let Cadence := update_cadence_score Cadence in
        match calculate_due_dates Cadence with
        | None => Failed (stopped Cadence)
        | Some Cadence =>
            let Cadence := finalize_cadence Cadence in
            Success Cadence (filter (fun r => 0 <? Cadence_Score r) Cadence)
        end
    end.

End Processor.

End GDN.

(* ================================================================== *)
(** * ias_processor.py *)
(* ================================================================== *)

Module IAS.

Definition IAS_Core : list string := ["FR"; "IT"; "ES"; "ANY"; "Any"].
Definition IAS_CrossListing_Sources : list string := ["FR"; "IT"; "ES"; "MX"].

(** A row of the ARMT table [process_armt] returns (one row per exploded
    source and destination), before the three derived columns. *)
Record armt_row : Type := mk_armt {
  a_program : string;
  policy_name : cell;
  child_class : cell;
  parent_class : cell;
  a_Source : string;
  a_Destination : string;
  parent_score : cell
}.

(** A row of the outflow table where [process_outflow] reaches line 130:
    rows filtered, [child_class] and [parent_class] derived.  [resolved] is
    what [pd.to_datetime] makes of the date ([None] is NaT), [resolution]
    the text line 136 keeps, [quantity] and [vendor_id] the coerced
    numbers. *)
Record outflow_row : Type := mk_outflow {
  o_child_class : string;
  o_parent_class : string;
  resolved : option date;
  root_cause : string;
  resolution : string;
  quantity : pyfloat;
  vendor_id : Z
}.

(** A row of the outflow table [process_outflow] returns. *)
Record outflow_out : Type := mk_outflow_out {
  n_child_class : string;
  n_parent_class : string;
  n_Resolved_date : string;
  n_root_cause : string;
  n_resolution : string;
  NC : pyfloat
}.

(** A row of the master file, the columns read. *)
Record master_row : Type := mk_master {
  m_Parent_Classes : cell;
  m_Child_Classes : cell;
  m_Source : cell;
  m_ARC : cell;
  m_Cadence_Score : cell;
  m_Due_Date : cell;
  m_NC_Count : cell
}.

Record master_table : Type := mk_master_table {
  has_NC_Count : bool;
  master_rows : list master_row
}.

(** The columns of the IAS Cadence table beside the shared ones: those the
    output keeps and the secondary ones [finalize_cadence] drops. *)
Record kept_columns : Type := mk_kept {
  Child_Classes : string;
  ARC : string;
  Root_Cause : string
}.

Record secondary_columns : Type := mk_secondary {
  program2 : string;
  Policies2 : string;
  Child_Classes2 : string;
  Parent_Classes2 : string;
  Source2 : string;
  Destination2 : string;
  ARC2 : string;
  risk_score2 : pyfloat;
  Resolved_Date2 : string;
  Root_Cause2 : string;
  NC_Count2 : string;
  Cadence_Score2 : Z;
  Previous_Cadence2 : string;
  Previous_Due_Date2 : string
}.

Definition working_columns : Type := (kept_columns * secondary_columns)%type.

Section Processor.

Context {R : Runtime}.

(** The derived columns of the normalised ARMT (lines 103-107). *)
Definition a_ARC (r : armt_row) : string := a_Source r ++ "-" ++ a_Destination r.

Definition combined_class (r : armt_row) : string :=
  py_str (parent_class r) ++ "," ++ py_str (child_class r) ++ "," ++ a_Source r.

Definition combined_class2 (r : armt_row) : string :=
  py_str (parent_class r) ++ "," ++ py_str (child_class r) ++ "," ++ a_ARC r.

(** The derived columns of the normalised outflow (lines 139-143). *)
Definition n_source (r : outflow_out) : string :=
  hd EmptyString (Text.split "-" (n_resolution r)).

Definition o_combined_class (r : outflow_out) : string :=
  n_parent_class r ++ "," ++ n_child_class r ++ "," ++ n_source r.

Definition o_combined_class2 (r : outflow_out) : string :=
  n_parent_class r ++ "," ++ n_child_class r ++ "," ++ n_resolution r.

(** [process_outflow], lines 130-154. *)
Definition process_outflow (outflow : list outflow_row)
  : list outflow_out * list (string * pyfloat) * list (string * pyfloat) :=
  let renamed :=
    map (fun r =>
           mk_outflow_out
             (if String.eqb (o_child_class r) (o_parent_class r)
              then "No-Child" else o_child_class r)
             (o_parent_class r)
             (date_to_string (cell_of_date (resolved r)))
             (root_cause r)
             (resolution r)
             (add_int64 (quantity r) (vendor_id r)))
        outflow in
  let sorted := sort_desc n_Resolved_date renamed in
  (sorted, groupby_sum o_combined_class NC sorted,
   groupby_sum o_combined_class2 NC sorted).

(** The keys [create_nodes] adds to [nodes], in the order it adds them. *)
Definition added_nodes (armt : list armt_row) : list string :=
  let ag_data := filter (fun r => String.eqb (a_program r) "AmazonGlobal") armt in
  map combined_class (filter (fun r => String.eqb (a_Source r) "FR") ag_data)
  ++ map combined_class (filter (fun r => String.eqb (a_Source r) "IT") ag_data)
  ++ map combined_class (filter (fun r => String.eqb (a_Source r) "ES") ag_data)
  ++ map combined_class2
       (filter (fun r => String.eqb (a_program r) "CrossListing"
                         && Text.mem (a_Source r) IAS_CrossListing_Sources)
               armt).

(** [create_nodes] *)
Definition create_nodes (armt : list armt_row) : list string :=
  list_of_set (added_nodes armt).

(** One row of [create_cadence]. *)
Definition cadence_row (armt : list armt_row) (outflow : list outflow_out)
    (outflow1 outflow2 : list (string * pyfloat)) (node : string)
  : Row working_columns :=
  let a1 := lookup combined_class armt node in
  let a2 := lookup combined_class2 armt node in
  let o1 := lookup o_combined_class outflow node in
  let o2 := lookup o_combined_class2 outflow node in
  let risk := risk_of (option_map parent_score a1) in
  let risk2 := risk_of (option_map parent_score a2) in
  let policies := cell_or_not_found policy_name a1 in
  mkRow node
    (text_or_not_found a_program a1)
    policies
    (cell_or_not_found parent_class a1)
    (text_or_not_found a_Source a1)
    (text_or_not_found a_Destination a1)
    risk
    (text_or_not_found (fun r => date_to_string (CText (n_Resolved_date r))) o1)
    (nc_count (lookup fst outflow1 node))
    (RISK_TO_CADENCE risk)
    (jsr_flag policies)
    NOT_FOUND NOT_FOUND NOT_FOUND NOT_FOUND
    (mk_kept
       (cell_or_not_found child_class a1)
       (text_or_not_found a_ARC a1)
       (text_or_not_found n_root_cause o1),
     mk_secondary
       (text_or_not_found a_program a2)
       (cell_or_not_found policy_name a2)
       (cell_or_not_found child_class a2)
       (cell_or_not_found parent_class a2)
       (text_or_not_found a_Source a2)
       (text_or_not_found a_Destination a2)
       (text_or_not_found a_ARC a2)
       risk2
       (text_or_not_found (fun r => date_to_string (CText (n_Resolved_date r))) o2)
       (text_or_not_found n_root_cause o2)
       (nc_count (lookup fst outflow2 node))
       (RISK_TO_CADENCE risk2)
       NOT_FOUND NOT_FOUND).

(** [create_cadence] *)
Definition create_cadence (nodes : list string) (armt : list armt_row)
    (outflow : list outflow_out) (outflow1 outflow2 : list (string * pyfloat))
  : list (Row working_columns) :=
  map (cadence_row armt outflow outflow1 outflow2) nodes.

(** The keys [apply_master_lookups] derives on the master table. *)
Definition m_Combined_Classes (m : master_row) : string :=
  py_str (m_Parent_Classes m) ++ "," ++ py_str (m_Child_Classes m) ++ ","
  ++ py_str (m_Source m).

Definition m_Combined_Classes2 (m : master_row) : string :=
  py_str (m_Parent_Classes m) ++ "," ++ py_str (m_Child_Classes m) ++ ","
  ++ py_str (m_ARC m).

(** One row of [apply_master_lookups]. *)
Definition master_lookup_row (master : master_table) (r : Row working_columns)
  : option (Row working_columns) :=
  let m1 := lookup m_Combined_Classes (master_rows master) (Key r) in
  let m2 := lookup m_Combined_Classes2 (master_rows master) (Key r) in
  match previous_cadence (option_map m_Cadence_Score m1),
        previous_cadence (option_map m_Cadence_Score m2) with
  | Some cad, Some cad2 =>
      let (kept, s) := extra r in
      let s' :=
        mk_secondary (program2 s) (Policies2 s) (Child_Classes2 s)
          (Parent_Classes2 s) (Source2 s) (Destination2 s) (ARC2 s)
          (risk_score2 s) (Resolved_Date2 s) (Root_Cause2 s) (NC_Count2 s)
          (Cadence_Score2 s) cad2
          (text_or_not_found (fun x => date_to_string (m_Due_Date x)) m2) in
      Some (set_extra (kept, s')
              (set_previous cad
                 (text_or_not_found (fun x => date_to_string (m_Due_Date x)) m1)
                 (if has_NC_Count master
                  then previous_nc (option_map m_NC_Count m1)
                  else NOT_FOUND)
                 r))
  | _, _ => None
  end.

(** [apply_master_lookups] *)
Definition apply_master_lookups (Cadence : list (Row working_columns))
    (master : master_table) : option (list (Row working_columns)) :=
  for_rows (master_lookup_row master) Cadence.

(** [Cadence.loc[mask, primary] = Cadence.loc[mask, secondary]] at one row. *)
Definition merged (primary secondary : string) : string :=
  if is_not_found primary then secondary else primary.

(** [merge_columns] at one row: the twelve [merge_pairs]. *)
Definition merge_row (r : Row working_columns) : Row working_columns :=
  let (kept, s) := extra r in
  mkRow (Key r)
    (merged (program r) (program2 s))
    (merged (Policies r) (Policies2 s))
    (merged (Parent_Classes r) (Parent_Classes2 s))
    (merged (Source r) (Source2 s))
    (merged (Destination r) (Destination2 s))
    (risk_score r)
    (merged (Resolved_Date r) (Resolved_Date2 s))
    (merged (NC_Count r) (NC_Count2 s))
    (Cadence_Score r)
    (JSR r)
    (merged (Previous_Cadence r) (Previous_Cadence2 s))
    (merged (Previous_Due_Date r) (Previous_Due_Date2 s))
    (Previous_NC r)
    (Due_Date r)
    (mk_kept
       (merged (Child_Classes kept) (Child_Classes2 s))
       (merged (ARC kept) (ARC2 s))
       (merged (Root_Cause kept) (Root_Cause2 s)),
     s).

(** [merge_columns] *)
Definition merge_columns (Cadence : list (Row working_columns))
  : list (Row working_columns) :=
  map merge_row Cadence.

(** [finalize_cadence]: the secondary columns go, then the three
    assignments. *)
Definition finalize_cadence (Cadence : list (Row working_columns))
  : list (Row kept_columns) :=
  map (fun r => finalize_row (set_extra (fst (extra r)) r)) Cadence.

(** [process], from the tables [process_armt] and the first part of
    [process_outflow] hand on. *)
Definition process (armt : list armt_row) (outflow : list outflow_row)
    (master : master_table) : outcome (Row kept_columns) :=
  let '(outflow, outflow1, outflow2) := process_outflow outflow in
  let nodes := create_nodes armt in
  if (List.length nodes =? 0)%nat then Failed NoValidNodes
  else
    let Cadence := create_cadence nodes armt outflow outflow1 outflow2 in
    match apply_master_lookups Cadence master with
    | None => Failed Raised
    | Some Cadence =>
        let Cadence := merge_columns Cadence in
        let Cadence := update_cadence_score Cadence in
        match calculate_due_dates Cadence with
        | None => Failed (stopped Cadence)
        | Some Cadence =>
            let Cadence := finalize_cadence Cadence in
            Success Cadence (filter (fun r => 0 <? Cadence_Score r) Cadence)
        end
    end.

End Processor.

End IAS.

(* ================================================================== *)
(** * A reference runtime *)
(* ================================================================== *)

Module Reference.

Definition digit_val (c : ascii) : option Z :=
  let n := Z.of_N (N_of_ascii c) in
  if (48 <=? n) && (n <=? 57) then Some (n - 48) else None.

(** The number a string of decimal digits writes, and how many digits. *)
Fixpoint digits_value (s : string) (acc : Z) (len : nat) : option (Z * nat) :=
  match s with
  | EmptyString => Some (acc, len)
  | String c s' =>
      match digit_val c with
      | Some v => digits_value s' (10 * acc + v) (S len)
      | None => None
      end
  end.

(** [digits], [digits.digits], [digits.] and [.digits]. *)
Definition unsigned_decimal (s : string) : option Q :=
  match Text.split "." s with
  | [ip] =>
      match digits_value ip 0 O with
      | Some (v, S _) => Some (inject_Z v)
      | _ => None
      end
  | [ip; fp] =>
      match digits_value (ip ++ fp) 0 O, digits_value fp 0 O with
      | Some (v, S _), Some (_, k) =>
          Some (if Nat.eqb k 0 then inject_Z v
                else Qmake v (Pos.pow 10 (Pos.of_nat k)))
      | _, _ => None
      end
  | _ => None
  end.

(** The exponent after [e]: [digits], [+digits] or [-digits]. *)
Definition exponent (s : string) : option Z :=
  let value t :=
    match digits_value t 0 O with
    | Some (v, S _) => Some v
    | _ => None
    end in
  match s with
  | String "-" t => option_map Z.opp (value t)
  | String "+" t => value t
  | t => value t
  end.

(** A decimal literal, with or without an exponent, as the rational it
    writes. *)
Definition unsigned_literal (s : string) : option Q :=
  match Text.split "e" s with
  | [m] => unsigned_decimal m
  | [m; e] =>
      match unsigned_decimal m, exponent e with
      | Some q, Some k =>
          Some (if 0 <=? k then q * inject_Z (10 ^ k)
                else q / inject_Z (10 ^ (- k)))%Q
      | _, _ => None
      end
  | _ => None
  end.

(** The integer nearest to [n / d], a tie going to the even one. *)
Definition round_half_even (n d : Z) : Z :=
  let q := n / d in
  let r := n mod d in
  if 2 * r <? d then q
  else if d <? 2 * r then q + 1
  else if Z.even q then q else q + 1.

(** The exponent [e] with [2^e <= n / d < 2^(e+1)]. *)
Definition floor_log2 (n d : Z) : Z :=
  let e := Z.log2 n - Z.log2 d in
  if (if 0 <=? e then d * 2 ^ e <=? n else d <=? n * 2 ^ (- e)) then e else e - 1.

(** The double nearest to a rational: 53 bits, exponents from -1074, a tie
    going to the even significand, an infinity from [2^1024 - 2^970] on. *)
Definition nearest_double (q : Q) : pyfloat :=
  let n := Z.abs (Qnum q) in
  let d := Z.pos (Qden q) in
  if n =? 0 then Fin 0
  else
    let p := Z.max (floor_log2 n d - 52) (-1074) in
    let m := if 0 <=? p then round_half_even n (d * 2 ^ p)
             else round_half_even (n * 2 ^ (- p)) d in
    let v := if 0 <=? p then inject_Z (m * 2 ^ p)
             else Qred (Qmake m (Z.to_pos (2 ^ (- p)))) in
    if Qle_bool (inject_Z (2 ^ 1024)) v
    then (if Qnum q <? 0 then NegInf else PosInf)
    else Fin (if Qnum q <? 0 then - v else v)%Q.

Definition unsigned_float (s : string) : option pyfloat :=
  if Text.mem s ["inf"; "infinity"] then Some PosInf
  else if String.eqb s "nan" then Some NaN
  else option_map nearest_double (unsigned_literal s).

Definition negate (x : pyfloat) : pyfloat :=
  match x with
  | NaN => NaN
  | NegInf => PosInf
  | PosInf => NegInf
  | Fin q => Fin (- q)%Q
  end.

(** [float(s)] for decimal literals, infinities and NaN (no underscores
    between digits). *)
Definition float_of_string (s : string) : option pyfloat :=
  match Text.lower (Text.strip s) with
  | String "-" t => option_map negate (unsigned_float t)
  | String "+" t => unsigned_float t
  | t => unsigned_float t
  end.

(** The exponent [e] with [10^e <= n / d < 10^(e+1)]. *)
Definition reaches (n d e : Z) : bool :=
  if 0 <=? e then d * 10 ^ e <=? n else d <=? n * 10 ^ (- e).

Definition floor_log10 (n d : Z) : Z :=
  let e := (Z.log2 n - Z.log2 d - 1) * 30103 / 100000 - 1 in
  let e := if reaches n d (e + 1) then e + 1 else e in
  let e := if reaches n d (e + 1) then e + 1 else e in
  if reaches n d (e + 1) then e + 1 else e.

(** [m * 10^s] is read back as the double [x]. *)
Definition reads_back (x : Q) (m s : Z) : bool :=
  match nearest_double (if 0 <=? s then inject_Z (m * 10 ^ s)
                        else Qmake m (Z.to_pos (10 ^ (- s)))) with
  | Fin y => Qeq_bool y x
  | _ => false
  end.

(** The digits of the shortest decimal that is read back as [n / d], from [k]
    digits on: the integer they write and their number.  Of the two
    decimals of [k] digits around [n / d] the nearer one is tried first;
    17 digits are always enough. *)
Fixpoint shortest_digits (fuel : nat) (k : Z) (n d e : Z) : Z * Z :=
  let s := e + 1 - k in
  let n' := if 0 <=? s then n else n * 10 ^ (- s) in
  let d' := if 0 <=? s then d * 10 ^ s else d in
  let near := round_half_even n' d' in
  match fuel with
  | O => (near, k)
  | S f =>
      let lo := n' / d' in
      let far := if near =? lo then lo + 1 else lo in
      if reads_back (Qmake n (Z.to_pos d)) near s then (near, k)
      else if reads_back (Qmake n (Z.to_pos d)) far s then (far, k)
      else shortest_digits f (k + 1) n d e
  end.

Fixpoint zeros (n : nat) : string :=
  match n with
  | O => EmptyString
  | S n' => String "0" (zeros n')
  end.

(** The digits [ds] with the decimal point after the first [decpt] of them,
    the way [repr] lays a float out: with an exponent below 0.0001 and from
    1e16 on, and with a digit on either side of the point otherwise. *)
Definition layout (ds : string) (decpt : Z) : string :=
  let nd := Z.of_nat (String.length ds) in
  if (decpt <=? -4) || (16 <? decpt) then
    substring 0 1 ds
    ++ (if 1 <? nd then "." ++ substring 1 (String.length ds - 1) ds else "")
    ++ "e" ++ (if decpt - 1 <? 0 then "-" else "+")
    ++ (if Z.abs (decpt - 1) <? 10 then "0" else "")
    ++ str_int (Z.abs (decpt - 1))
  else if decpt <=? 0 then
    "0." ++ zeros (Z.to_nat (- decpt)) ++ ds
  else if nd <=? decpt then
    ds ++ zeros (Z.to_nat (decpt - nd)) ++ ".0"
  else
    substring 0 (Z.to_nat decpt) ds ++ "."
    ++ substring (Z.to_nat decpt) (String.length ds - Z.to_nat decpt) ds.

(** The digits of a double and the place of its decimal point. *)
Definition digits_of (n d : Z) : string * Z :=
  let e := floor_log10 n d in
  let (m, k) := shortest_digits 16 1 n d e in
  if m =? 10 ^ k then ("1", e + 2) else (str_int m, e + 1).

(** [str(x)] for a float: the shortest decimal that is read back as [x]. *)
Definition string_of_float (x : pyfloat) : string :=
  match x with
  | NaN => "nan"
  | PosInf => "inf"
  | NegInf => "-inf"
  | Fin q =>
      let n := Z.abs (Qnum q) in
      let d := Z.pos (Qden q) in
      if n =? 0 then "0.0"
      else
        let (ds, decpt) := digits_of n d in
        (if Qnum q <? 0 then "-" else "") ++ layout ds decpt
  end.

(** [pd.to_datetime(s, errors='coerce')] for the text [strftime] writes. *)
Definition parse_iso_date (s : string) : option date :=
  match s with
  | String y1 (String y2 (String y3 (String y4 (String "-" (String m1 (String m2
      (String "-" (String d1 (String d2 EmptyString))))))))) =>
      match digits_value (String y1 (String y2 (String y3 (String y4 EmptyString)))) 0 O,
            digits_value (String m1 (String m2 EmptyString)) 0 O,
            digits_value (String d1 (String d2 EmptyString)) 0 O with
      | Some (y, _), Some (m, _), Some (d, _) =>
          let t := mkdate y m d in
          if valid_date t && in_range t then Some t else None
      | _, _, _ => None
      end
  | _ => None
  end.

(** [pd.to_datetime(x, errors='coerce')] for a number: nanoseconds since the
    epoch. *)
Definition date_of_number (x : pyfloat) : option date :=
  match x with
  | Fin q =>
      timestamp_add (mkdate 1970 1 1)
        (Z.div (Qnum q) (Z.pos (Qden q) * 86400000000000))
  | _ => None
  end.

(** [x + y] on two doubles, as IEEE 754 has it. *)
Definition float_add (x y : pyfloat) : pyfloat :=
  match x, y with
  | NaN, _ | _, NaN => NaN
  | PosInf, NegInf | NegInf, PosInf => NaN
  | PosInf, _ | _, PosInf => PosInf
  | NegInf, _ | _, NegInf => NegInf
  | Fin a, Fin b => nearest_double (a + b)
  end.

(** An int64 made a double, then added. *)
Definition float_add_int64 (x : pyfloat) (n : Z) : pyfloat :=
  float_add x (nearest_double (inject_Z n)).

Definition float_sub (x y : pyfloat) : pyfloat := float_add x (negate y).

(** One turn of the loop of [group_sum] in pandas: Kahan's compensated
    summation on the pair (sum, compensation).  A NaN entry is skipped, and
    a compensation that has become NaN, as it does next to an infinity, is
    set back to 0. *)
Definition kahan_step (st : pyfloat * pyfloat) (val : pyfloat)
  : pyfloat * pyfloat :=
  let (sumx, compensation) := st in
  if notna val then
    let y := float_sub val compensation in
    let t := float_add sumx y in
    let c := float_sub (float_sub t sumx) y in
    (t, if notna c then c else Fin 0)
  else st.

(** The sum of a group, over its rows in the order of the table. *)
Definition float_sum (l : list pyfloat) : pyfloat :=
  fst (fold_left kahan_step l (Fin 0, Fin 0)).

(** Two iteration orders of a set: by first insertion, and the reverse. *)
Definition insertion_order (l : list string) : list string :=
  rev (nodup string_dec (rev l)).

Definition reverse_order (l : list string) : list string :=
  nodup string_dec (rev l).

End Reference.

Definition reference_runtime : Runtime := {|
  py_float := Reference.float_of_string;
  py_str_float := Reference.string_of_float;
  add_int64 := Reference.float_add_int64;
  sum_floats := Reference.float_sum;
  to_datetime := Reference.parse_iso_date;
  num_to_datetime := Reference.date_of_number;
  list_of_set := Reference.insertion_order
|}.

(** A runtime with another iteration order of sets, everything else alike:
    the order is fixed by the hash seed of the interpreter process. *)
Definition with_set_order (R : Runtime) (order : list string -> list string)
  : Runtime := {|
  py_float := @py_float R;
  py_str_float := @py_str_float R;
  add_int64 := @add_int64 R;
  sum_floats := @sum_floats R;
  to_datetime := @to_datetime R;
  num_to_datetime := @num_to_datetime R;
  list_of_set := order
|}.

Definition reversed_runtime : Runtime :=
  with_set_order reference_runtime Reference.reverse_order.

(** ** What the properties below ask of a runtime *)

(** [str(x)] of a float that is not NaN never reads as not found. *)
Definition prints_floats (R : Runtime) : Prop :=
  forall x, notna x = true -> is_not_found (CText (py_str_float x)) = false.

(** [pd.to_datetime] reads the text [strftime] writes as the date written. *)
Definition reads_dates (R : Runtime) : Prop :=
  forall d d', wf_date d = true -> to_datetime (strftime d) = Some d' -> d' = d.

(** [list(s)] lists the members of the set, each once. *)
Definition lists_sets (R : Runtime) : Prop :=
  forall l, Permutation (list_of_set l) (nodup string_dec l).

(* ================================================================== *)
(** * More of the source: helpers, rule table and ARMT sheets *)
(* ================================================================== *)

Section Safe_text.

Context {R : Runtime}.

(** [BaseProcessor.to_string_safe] *)
Definition to_string_safe (value : cell) : string :=
  if is_not_found value then NOT_FOUND
  else match value with
       | CTime d => strftime d
       | _ => if isna value then NOT_FOUND else py_str value
       end.

End Safe_text.

Section Rule_table.

Context {R : Runtime} {X : Type}.

(** The conditions of the [np.where] statements and the scores they write,
    in the order of the source (ias_processor.py 351-402, gdn_processor.py
    293-344). *)
Definition rules (r : Row X) : list (bool * Z) :=
  let nc_numeric := safe_to_numeric (NC_Count r) in
  let prev_nc_numeric := safe_to_numeric (Previous_NC r) in
  let prev_cad_numeric := safe_to_numeric (Previous_Cadence r) in
  let risk := risk_score r in
  let has_prev_cad := notna prev_cad_numeric in
  let has_nc := notna nc_numeric in
  let has_prev_nc := notna prev_nc_numeric in
  let mask_30 := has_prev_cad && eq_int prev_cad_numeric 30 in
  let mask_60 := has_prev_cad && eq_int prev_cad_numeric 60 in
  let mask_90 := has_prev_cad && eq_int prev_cad_numeric 90 in
  let mask_180 := has_prev_cad && eq_int prev_cad_numeric 180 in
  let mask_365 := has_prev_cad && eq_int prev_cad_numeric 365 in
  [ (mask_30 && has_nc && ge_int nc_numeric 10, 30);
    (mask_30 && has_nc && lt_int nc_numeric 10 && has_prev_nc && ge_int prev_nc_numeric 10, 30);
    (mask_30 && negb has_nc && has_prev_nc && ge_int prev_nc_numeric 10, 30);
    (mask_30 && has_nc && lt_int nc_numeric 10 && has_prev_nc && lt_int prev_nc_numeric 10, 60);
    (mask_30 && has_nc && lt_int nc_numeric 10 && negb has_prev_nc, 60);
    (mask_60 && has_nc && ge_int nc_numeric 10, 30);
    (mask_60 && has_nc && lt_int nc_numeric 10 && has_prev_nc && ge_int prev_nc_numeric 10, 60);
    (mask_60 && negb has_nc && has_prev_nc && ge_int prev_nc_numeric 10, 60);
    (mask_60 && has_nc && lt_int nc_numeric 10 && has_prev_nc && lt_int prev_nc_numeric 10, 90);
    (mask_60 && has_nc && lt_int nc_numeric 10 && negb has_prev_nc, 90);
    (mask_90 && has_nc && ge_int nc_numeric 10, 60);
    (mask_90 && has_nc && lt_int nc_numeric 10 && has_prev_nc && ge_int prev_nc_numeric 10, 90);
    (mask_90 && negb has_nc && has_prev_nc && ge_int prev_nc_numeric 10, 90);
    (mask_90 && has_nc && lt_int nc_numeric 10 && has_prev_nc && lt_int prev_nc_numeric 10 && isin risk [1; 2; 3], 90);
    (mask_90 && has_nc && lt_int nc_numeric 10 && has_prev_nc && lt_int prev_nc_numeric 10 && isin risk [4; 5], 180);
    (mask_90 && has_nc && lt_int nc_numeric 10 && negb has_prev_nc && isin risk [1; 2; 3], 90);
    (mask_90 && has_nc && lt_int nc_numeric 10 && negb has_prev_nc && isin risk [4; 5], 180);
    (mask_180 && has_nc && ge_int nc_numeric 15, 90);
    (mask_180 && has_nc && lt_int nc_numeric 15 && has_prev_nc && ge_int prev_nc_numeric 15, 180);
    (mask_180 && negb has_nc && has_prev_nc && ge_int prev_nc_numeric 15, 180);
    (mask_180 && has_nc && lt_int nc_numeric 15 && has_prev_nc && lt_int prev_nc_numeric 15 && eq_int risk 4, 180);
    (mask_180 && has_nc && lt_int nc_numeric 15 && has_prev_nc && lt_int prev_nc_numeric 15 && negb (eq_int risk 4), 365);
    (mask_180 && has_nc && lt_int nc_numeric 15 && negb has_prev_nc && eq_int risk 4, 180);
    (mask_180 && has_nc && lt_int nc_numeric 15 && negb has_prev_nc && negb (eq_int risk 4), 365);
    (mask_365 && has_nc && ge_int nc_numeric 15, 180);
    (mask_365 && has_nc && lt_int nc_numeric 15 && has_prev_nc && ge_int prev_nc_numeric 15, 365);
    (mask_365 && negb has_nc && has_prev_nc && ge_int prev_nc_numeric 15, 365);
    (mask_365 && has_nc && lt_int nc_numeric 15 && has_prev_nc && lt_int prev_nc_numeric 15, 365);
    (mask_365 && has_nc && lt_int nc_numeric 15 && negb has_prev_nc, 365) ].

(** The statements in sequence: each one overwrites the score where its
    condition holds. *)
Definition apply_rules (l : list (bool * Z)) (score : Z) : Z :=
  fold_left (fun s (c : bool * Z) => np_where (fst c) (snd c) s) l score.

End Rule_table.

(** ** [process_armt] of ias_processor.py *)

(** [cell == s] for a string literal [s], as a boolean mask has it. *)
Definition cell_is (c : cell) (s : string) : bool :=
  match c with
  | CText t => String.eqb t s
  | _ => false
  end.

Module IAS_armt.

(** A row of the ARMT sheet, the columns the processor reads. *)
Record raw_row : Type := mk_raw {
  r_program : cell;
  r_policy_name : cell;
  r_child_class : cell;
  r_parent_class : cell;
  source_country : cell;
  include_destination_country : cell;
  r_parent_score : cell
}.

Section Processor.

Context {R : Runtime}.

(** Lines 81-82: [astype(str).str.strip()]. *)
Definition Source (r : raw_row) : string := Text.strip (py_str (source_country r)).

Definition Destination (r : raw_row) : string :=
  Text.strip (py_str (include_destination_country r)).

(** Lines 86-90: the AmazonGlobal rows, one row per source of the list; a
    destination that is a list becomes SOME. *)
Definition explode_core (r : raw_row) : list IAS.armt_row :=
  map (fun s =>
         IAS.mk_armt "AmazonGlobal" (r_policy_name r) (r_child_class r)
           (r_parent_class r) (Text.strip s)
           (if Text.contains "," (Destination r) then "SOME" else Destination r)
           (r_parent_score r))
      (Text.split "," (Source r)).

(** Lines 94-99: the CrossListing rows, one row per destination and source
    of the two lists. *)
Definition explode_cross (r : raw_row) : list IAS.armt_row :=
  flat_map
    (fun d =>
       map (fun s =>
              IAS.mk_armt "CrossListing" (r_policy_name r) (r_child_class r)
                (r_parent_class r) (Text.strip s) (Text.strip d)
                (r_parent_score r))
           (Text.split "," (Source r)))
    (Text.split "," (Destination r)).

(** [process_armt], up to the three derived columns, which the model reads
    as [a_ARC], [combined_class] and [combined_class2]. *)
Definition process_armt (armt : list raw_row) : list IAS.armt_row :=
  let armt_core := filter (fun r => cell_is (r_program r) "AmazonGlobal") armt in
  let armt_cross := filter (fun r => cell_is (r_program r) "CrossListing") armt in
  flat_map explode_core armt_core ++ flat_map explode_cross armt_cross.

End Processor.

End IAS_armt.

(** ** [process_armt] of gdn_processor.py *)

(** [Series.unique()]: the values in the order of their first appearance. *)
Fixpoint unique (l : list string) : list string :=
  match l with
  | [] => []
  | x :: l' => x :: filter (fun y => negb (String.eqb y x)) (unique l')
  end.

(** The ascending order of the keys of a sorted [groupby]. *)
Fixpoint insert_asc (x : string) (l : list string) : list string :=
  match l with
  | [] => [x]
  | y :: l' => if Text.le x y then x :: l else y :: insert_asc x l'
  end.

Definition sort_asc (l : list string) : list string :=
  fold_right insert_asc [] l.

Module GDN_armt.

(** A row of the ARMT sheet, the columns the processor reads.  The class
    names are text or empty cells. *)
Record raw_row : Type := mk_raw {
  r_program : cell;
  r_policy_name : cell;
  r_child_class : option string;
  r_parent_class : option string;
  source_country : cell;
  include_destination_country : cell;
  r_parent_score : cell
}.

Section Processor.

Context {R : Runtime}.

(** Lines 82-83: [astype(str).str.strip()]. *)
Definition Source (r : raw_row) : string := Text.strip (py_str (source_country r)).

Definition Destination (r : raw_row) : string :=
  Text.strip (py_str (include_destination_country r)).

(** Lines 87-89: the child class once No-Child has been replaced by the
    parent class. *)
Definition child (r : raw_row) : option string :=
  match r_child_class r with
  | Some c => if String.eqb c "No-Child" then r_parent_class r else Some c
  | None => None
  end.

(** [astype(str)] on a class name. *)
Definition class_text (c : option string) : string :=
  match c with
  | Some s => s
  | None => "nan"
  end.

(** The rows of one group of [groupby(['child_class'])] among the rows of
    [program], in the order of the sheet. *)
Definition group (armt : list raw_row) (program key : string) : list raw_row :=
  filter (fun r => cell_is (r_program r) program
                   && match child r with
                      | Some c => String.eqb c key
                      | None => false
                      end)
         armt.

(** The keys of the groups: the child classes of the rows of [program],
    empty cells dropped, in ascending order. *)
Definition keys (armt : list raw_row) (program : string) : list string :=
  sort_asc
    (unique
       (flat_map (fun r => if cell_is (r_program r) program
                           then match child r with
                                | Some c => [c]
                                | None => []
                                end
                           else [])
                 armt)).

(** ['first']: the first value of the group that is not null. *)
Definition first_valid (l : list cell) : cell :=
  match find (fun c => negb (isna c)) l with
  | Some c => c
  | None => CNull
  end.

(** The aggregate of one group (lines 95-102 and 108-115). *)
Definition aggregate (armt : list raw_row) (program key : string)
  : list GDN.armt_row :=
  match group armt program key with
  | [] => []
  | (first :: _) as rows =>
      [GDN.mk_armt key
         (String.concat "," (unique (map (fun r => class_text (r_parent_class r)) rows)))
         (String.concat "," (unique (map (fun r => py_str (r_policy_name r)) rows)))
         program
         (Source first)
         (Destination first)
         (first_valid (map r_parent_score rows))]
  end.

(** [process_armt] *)
Definition process_armt (armt : list raw_row) : list GDN.armt_row :=
  flat_map (aggregate armt "AmazonGlobal") (keys armt "AmazonGlobal")
  ++ flat_map (aggregate armt "CrossListing") (keys armt "CrossListing").

End Processor.

End GDN_armt.

(* ================================================================== *)
(** * The tables of the specification *)
(* ================================================================== *)

(** These follow the words of the specification, not the code; the
    properties below compare the code with them. *)
Module Spec.

(** The step-down threshold K of a tier. *)
Definition threshold (T : Z) : Z :=
  if (T =? 180) || (T =? 365) then 15 else 10.

(** The tier below: 30->30, 60->30, 90->60, 180->90, 365->180. *)
Definition tier_below (T : Z) : Z :=
  if T =? 30 then 30
  else if T =? 60 then 30
  else if T =? 90 then 60
  else if T =? 180 then 90
  else 180.

(** The promotion column of the rule table; at tier 90 it names a score for
    the risk scores 1 to 5 only. *)
Definition promoted (T : Z) (risk : pyfloat) : option Z :=
  if T =? 30 then Some 60
  else if T =? 60 then Some 90
  else if T =? 90 then
    if isin risk [1; 2; 3] then Some 90
    else if isin risk [4; 5] then Some 180
    else None
  else if T =? 180 then
    if eq_int risk 4 then Some 180 else Some 365
  else Some 365.


(** The promotion of the claim on an absent current NC: the tier above. *)
Definition tier_above (T : Z) : Z :=
  if T =? 30 then 60
  else if T =? 60 then 90
  else if T =? 90 then 180
  else 365.

(** The day offset table of the due-date calculator. *)
Definition offset (nc : pyfloat) (score : Z) : option Z :=
  if lt_int nc 10 then
    if is_tier score then Some score else None
  else if lt_int nc 15 then
    if score =? 30 then Some 30
    else if score =? 60 then Some 30
    else if score =? 90 then Some 60
    else if score =? 180 then Some 180
    else if score =? 365 then Some 365
    else None
  else
    if score =? 30 then Some 30
    else if score =? 60 then Some 30
    else if score =? 90 then Some 60
    else if score =? 180 then Some 90
    else if score =? 365 then Some 180
    else None.

End Spec.

(* ================================================================== *)
(** * Properties *)
(* ================================================================== *)

(** ** Numbers *)

Lemma lt_int_ge_int (x : pyfloat) (k : Z) :
  lt_int x k = notna x && negb (ge_int x k).
Proof. destruct x; reflexivity. Qed.

Lemma ge_int_notna (x : pyfloat) (k : Z) : ge_int x k = true -> notna x = true.
Proof. destruct x; simpl; congruence. Qed.

Lemma eq_int_notna (x : pyfloat) (k : Z) : eq_int x k = true -> notna x = true.
Proof. destruct x; simpl; congruence. Qed.

Lemma eq_int_other (x : pyfloat) (a b : Z) :
  eq_int x a = true -> a <> b -> eq_int x b = false.
Proof.
  destruct x as [| |q|]; simpl; try discriminate.
  intros Ha Hab. apply Qeq_bool_iff in Ha.
  destruct (Qeq_bool q (inject_Z b)) eqn:Hb; [|reflexivity].
  apply Qeq_bool_iff in Hb. exfalso. apply Hab.
  rewrite Ha in Hb. unfold Qeq, inject_Z in Hb. simpl in Hb. lia.
Qed.

(** [int(x)] of a float that equals the integer [a] is [a]. *)
Lemma py_int_eq_int (x : pyfloat) (a : Z) :
  eq_int x a = true -> py_int x = IntValue a.
Proof.
  destruct x as [| |q|]; simpl; try discriminate.
  intros Ha. apply Qeq_bool_iff in Ha. f_equal.
  unfold Qeq, inject_Z in Ha. simpl in Ha.
  rewrite Z.mul_1_r in Ha. rewrite Ha.
  apply Z.quot_mul. discriminate.
Qed.

Lemma is_tier_iff (z : Z) : is_tier z = true <-> In z tiers.
Proof.
  unfold is_tier. rewrite existsb_exists. split.
  - intros [y [Hy E]]. apply Z.eqb_eq in E. now subst.
  - intros H. exists z. split; [assumption | apply Z.eqb_refl].
Qed.

Lemma RISK_TO_CADENCE_tier (x : pyfloat) : is_tier (RISK_TO_CADENCE x) = true.
Proof.
  unfold RISK_TO_CADENCE.
  repeat match goal with |- context [if ?b then _ else _] => destruct b end;
    reflexivity.
Qed.

(** ** Rows of a table *)

Lemma nth_error_map_Some {A B : Type} (f : A -> B) (l : list A) i a :
  nth_error l i = Some a -> nth_error (map f l) i = Some (f a).
Proof. intros H. rewrite nth_error_map, H. reflexivity. Qed.

(** ** The score transition *)

Section Transition.

Context {R : Runtime} {X : Type}.

(** What the code makes of a row whose previous cadence is the tier [T], in
    terms of the comparisons of that tier only. *)
Definition tier_outcome (T : Z) (r : Row X) : Z :=
  let nc := safe_to_numeric (NC_Count r) in
  let pnc := safe_to_numeric (Previous_NC r) in
  let K := Spec.threshold T in
  if notna nc then
    if ge_int nc K then Spec.tier_below T
    else if notna pnc && ge_int pnc K then T
    else match Spec.promoted T (risk_score r) with
         | Some v => v
         | None => Cadence_Score r
         end
  else if notna pnc && ge_int pnc K then T
  else Cadence_Score r.

Lemma isin_123_45 (x : pyfloat) :
  isin x [1; 2; 3] = true -> isin x [4; 5] = false.
Proof.
  unfold isin. simpl. rewrite !orb_false_r. intros H.
  apply orb_true_iff in H. destruct H as [H|H];
    [|apply orb_true_iff in H; destruct H as [H|H]];
    rewrite (eq_int_other _ _ 4 H), (eq_int_other _ _ 5 H); try reflexivity; lia.
Qed.

Ltac other_tiers H :=
  repeat match goal with
    | |- context [eq_int ?x ?b] =>
        lazymatch type of H with
        | eq_int x b = true => fail
        | eq_int x ?a = true =>
            rewrite (eq_int_other x a b H) by lia
        end
    end.

Lemma updated_score_tier (T : Z) (r : Row X) :
  In T tiers ->
  eq_int (safe_to_numeric (Previous_Cadence r)) T = true ->
  updated_score r = tier_outcome T r.
Proof.
  intros HT Hpc.
  pose proof (eq_int_notna _ _ Hpc) as Hna.
  pose proof (isin_123_45 (risk_score r)) as Hrisk.
  unfold updated_score, tier_outcome, Spec.promoted.
  cbv zeta. rewrite Hna.
  rewrite !lt_int_ge_int.
  set (pc := safe_to_numeric (Previous_Cadence r)) in *.
  set (nc := safe_to_numeric (NC_Count r)).
  set (pnc := safe_to_numeric (Previous_NC r)).
  set (low := isin (risk_score r) [1; 2; 3]) in *.
  set (high := isin (risk_score r) [4; 5]) in *.
  set (four := eq_int (risk_score r) 4).
  unfold tiers in HT. simpl in HT.
  destruct HT as [<-|[<-|[<-|[<-|[<-|[]]]]]];
    rewrite Hpc;
    repeat match goal with
      | |- context [eq_int pc ?b] =>
          rewrite (eq_int_other pc _ b Hpc) by lia
      end;
    unfold Spec.threshold, Spec.tier_below, np_where; simpl;
    destruct (notna nc); simpl;
    try (destruct (ge_int nc 10)); try (destruct (ge_int nc 15)); simpl;
    destruct (notna pnc); simpl;
    try (destruct (ge_int pnc 10)); try (destruct (ge_int pnc 15)); simpl;
    try reflexivity;
    try (destruct four; reflexivity);
    (destruct low; [rewrite Hrisk by reflexivity | destruct high]; reflexivity).
Qed.

End Transition.

(** ** Reading cells *)

Section Reading.

Context {R : Runtime}.

Lemma safe_to_numeric_not_found (s : string) :
  is_not_found (CText s) = true -> safe_to_numeric (CText s) = NaN.
Proof. unfold safe_to_numeric. now intros ->. Qed.

Lemma safe_to_numeric_known (s : string) :
  notna (safe_to_numeric (CText s)) = true ->
  is_not_found (CText s) = false /\
  py_float s = Some (safe_to_numeric (CText s)).
Proof.
  unfold safe_to_numeric.
  destruct (is_not_found (CText s)); [discriminate|].
  simpl. destruct (py_float s); [auto | discriminate].
Qed.

End Reading.

(** ** The loops over the rows *)

Lemma for_rows_nth {A B : Type} (f : A -> option B) (l : list A) (out : list B) :
  for_rows f l = Some out ->
  forall i a, nth_error l i = Some a ->
  exists b, f a = Some b /\ nth_error out i = Some b.
Proof.
  revert out. induction l as [|x l IH]; intros out H i a Hi.
  - destruct i; discriminate.
  - simpl in H. destruct (f x) as [b|] eqn:Fx; [|discriminate].
    destruct (for_rows f l) as [bs|] eqn:Fl; [|discriminate].
    injection H as <-. destruct i as [|i].
    + injection Hi as <-. exists b. auto.
    + simpl in Hi. simpl. eapply IH; eauto.
Qed.

Lemma for_rows_In {A B : Type} (f : A -> option B) (l : list A) (out : list B) :
  for_rows f l = Some out ->
  forall b, In b out -> exists a, In a l /\ f a = Some b.
Proof.
  revert out. induction l as [|x l IH]; intros out H b Hb.
  - injection H as <-. destruct Hb.
  - simpl in H. destruct (f x) as [y|] eqn:Fx; [|discriminate].
    destruct (for_rows f l) as [bs|] eqn:Fl; [|discriminate].
    injection H as <-. destruct Hb as [<-|Hb].
    + exists x. split; [now left | assumption].
    + destruct (IH bs eq_refl b Hb) as [a [Ha Fa]].
      exists a. split; [now right | assumption].
Qed.

Lemma for_rows_map {A B C : Type} (g : A -> B) (f : B -> option C) (l : list A) :
  for_rows f (map g l) = for_rows (fun a => f (g a)) l.
Proof.
  induction l as [|x l IH]; [reflexivity|].
  simpl. rewrite IH. reflexivity.
Qed.

Section Claims_on_rows.

Context {R : Runtime} {X : Type}.

(** A row as [update_cadence_score] leaves it. *)
Definition scored (r : Row X) : Row X := set_Cadence_Score (updated_score r) r.

(** A row as the first loop of [calculate_due_dates] leaves it. *)
Definition dated (r : Row X) : Row X :=
  set_Due_Date (computed_due_date (set_Due_Date NOT_FOUND r))
    (set_Due_Date NOT_FOUND r).

Lemma calculate_due_dates_rows (Cadence : list (Row X)) :
  calculate_due_dates Cadence = for_rows (fun r => fallback (dated r)) Cadence.
Proof.
  unfold calculate_due_dates. rewrite !for_rows_map. reflexivity.
Qed.

Lemma update_then_due_rows (Cadence : list (Row X)) :
  calculate_due_dates (update_cadence_score Cadence)
  = for_rows (fun r => fallback (dated (scored r))) Cadence.
Proof.
  rewrite calculate_due_dates_rows. unfold update_cadence_score.
  rewrite for_rows_map. reflexivity.
Qed.



Lemma tier_fits_int64 (T : Z) : In T tiers -> fits_int64 T = true.
Proof.
  simpl. intros [<-|[<-|[<-|[<-|[<-|[]]]]]]; reflexivity.
Qed.

(** The score [int(float(prev_cad))] of the fallback, when the previous
    cadence reads as the integer [T]. *)
Lemma fallback_restores_tier (r : Row X) (T : Z) :
  fits_int64 T = true ->
  eq_int (safe_to_numeric (Previous_Cadence r)) T = true ->
  is_not_found (NC_Count r) = true ->
  exists r', fallback r = Some r' /\ Cadence_Score r' = T.
Proof.
  intros HT Hpc Hnc.
  destruct (safe_to_numeric_known _ (eq_int_notna _ _ Hpc)) as [Hf Hp].
  unfold fallback. rewrite Hnc, Hf, Hp. simpl.
  rewrite (py_int_eq_int _ _ Hpc), HT.
  destruct (is_not_found (Previous_Due_Date (set_Cadence_Score T r)));
    simpl; eexists; split; reflexivity.
Qed.

(** C2, as the code has it. Score transition with the current NC absent:
    for a row whose Previous Cadence reads as a tier [T] and whose NC Count
    is the sentinel, [update_cadence_score] gives [T] when the previous NC
    is known and at least K, and leaves the score of [create_cadence] as it
    is otherwise (previous NC below K, or absent); the fallback of
    [calculate_due_dates] then sets the score to [T] in every case. *)
Theorem C2_absent_nc_holds_tier
    (Cadence : list (Row X)) (i : nat) (r : Row X) (T : Z) :
  nth_error Cadence i = Some r ->
  In T tiers ->
  eq_int (safe_to_numeric (Previous_Cadence r)) T = true ->
  is_not_found (NC_Count r) = true ->
  let pnc := safe_to_numeric (Previous_NC r) in
  option_map Cadence_Score (nth_error (update_cadence_score Cadence) i)
  = Some (if notna pnc && ge_int pnc (Spec.threshold T) then T
          else Cadence_Score r)
  /\
  forall Out, calculate_due_dates (update_cadence_score Cadence) = Some Out ->
    option_map Cadence_Score (nth_error Out i) = Some T.
Proof.
  intros Hi HT Hpc Hnc pnc. split.
  - unfold update_cadence_score.
    rewrite (nth_error_map_Some _ _ _ _ Hi). simpl. f_equal.
    rewrite (updated_score_tier T r HT Hpc).
    unfold tier_outcome.
    rewrite (safe_to_numeric_not_found _ Hnc). reflexivity.
  - intros Out HOut. rewrite update_then_due_rows in HOut.
    destruct (for_rows_nth _ _ _ HOut i r Hi) as [b [Hb Hn]].
    rewrite Hn. simpl. f_equal.
    destruct (fallback_restores_tier (dated (scored r)) T
                (tier_fits_int64 T HT) Hpc Hnc)
      as [r' [Hr' Hs]].
    rewrite Hr' in Hb. injection Hb as <-. exact Hs.
Qed.

End Claims_on_rows.

(** A row for the examples: the columns the stages read. *)
Definition sample_row (risk : Z) (score : Z)
    (resolved nc prev_cad prev_due prev_nc : string) : Row unit :=
  mkRow "Electronics,Cables,US" "AmazonGlobal" "Policy" "Electronics" "US" "Any"
    (of_int risk) resolved nc score (jsr_flag "Policy")
    prev_cad prev_due prev_nc NOT_FOUND tt.



(** C2 as stated fails: previous tier 60, current NC absent, previous NC 5
    (below 10) and risk 1.  [update_cadence_score] leaves the score 30 of
    [create_cadence], the fallback makes it 60; the claim says 90. *)
Lemma C2_counterexample :
  let claimed (T : Z) (r : Row unit) :=
    let pnc := safe_to_numeric (R := reference_runtime) (Previous_NC r) in
    if notna pnc
    then if ge_int pnc (Spec.threshold T) then T else Spec.tier_above T
    else T in
  ~ (forall (r : Row unit) (T : Z),
       In T tiers ->
       eq_int (safe_to_numeric (R := reference_runtime) (Previous_Cadence r)) T = true ->
       is_not_found (NC_Count r) = true ->
       updated_score (R := reference_runtime) r = claimed T r)
  /\
  ~ (forall (r : Row unit) (T : Z) (Out : list (Row unit)),
       In T tiers ->
       eq_int (safe_to_numeric (R := reference_runtime) (Previous_Cadence r)) T = true ->
       is_not_found (NC_Count r) = true ->
       calculate_due_dates (R := reference_runtime)
         (update_cadence_score (R := reference_runtime) [r]) = Some Out ->
       map Cadence_Score Out = [claimed T r]).
Proof.
  pose (r := sample_row 1 30 NOT_FOUND NOT_FOUND "60" "2024-03-15" "5.0").
  split; intros H.
  - specialize (H r 60). vm_compute in H.
    assert (E : 30 = 90) by (apply H; auto 10). discriminate.
  - specialize (H r 60 _ (or_intror (or_introl eq_refl)) eq_refl eq_refl eq_refl).
    vm_compute in H. discriminate.
Qed.

(** C2 as the code has it, at the same row: 30 after the update, 60 after
    the fallback. *)
Lemma C2_witness :
  let r := sample_row 1 30 NOT_FOUND NOT_FOUND "60" "2024-03-15" "5.0" in
  option_map Cadence_Score
    (nth_error (update_cadence_score (R := reference_runtime) [r]) 0) = Some 30
  /\
  forall Out,
    calculate_due_dates (R := reference_runtime)
      (update_cadence_score (R := reference_runtime) [r]) = Some Out ->
    option_map Cadence_Score (nth_error Out 0) = Some 60.
Proof.
  intros r.
  apply (C2_absent_nc_holds_tier (R := reference_runtime) [r] 0 r 60).
  - reflexivity.
  - simpl. tauto.
  - reflexivity.
  - reflexivity.
Defined.

(** ** Due dates *)

Lemma ge_int_15_10 (x : pyfloat) : ge_int x 15 = true -> ge_int x 10 = true.
Proof.
  destruct x as [| |q|]; simpl; try congruence.
  rewrite !Qle_bool_iff. intros H.
  apply Qle_trans with (inject_Z 15); [|assumption].
  unfold Qle, inject_Z. simpl. lia.
Qed.

(** On a number, the four [if] blocks of the code choose the offset of the
    table of the specification. *)
Lemma due_days_offset (nc : pyfloat) (cad : Z) :
  notna nc = true -> due_days nc cad = Spec.offset nc cad.
Proof.
  intros Hnc. unfold due_days, Spec.offset, is_tier, tiers.
  rewrite !lt_int_ge_int, Hnc. simpl.
  pose proof (ge_int_15_10 nc) as H1510.
  destruct (ge_int nc 15).
  - rewrite H1510 by reflexivity. simpl.
    destruct (Z.eqb_spec cad 30), (Z.eqb_spec cad 60), (Z.eqb_spec cad 90),
      (Z.eqb_spec cad 180), (Z.eqb_spec cad 365); subst;
      try reflexivity; try discriminate.
  - destruct (ge_int nc 10); simpl;
      destruct (Z.eqb_spec cad 30), (Z.eqb_spec cad 60), (Z.eqb_spec cad 90),
        (Z.eqb_spec cad 180), (Z.eqb_spec cad 365); subst;
        try reflexivity; try discriminate.
Qed.

Section Due_dates.

Context {R : Runtime} {X : Type}.

Lemma notna_found (s : string) :
  notna (safe_to_numeric (CText s)) = true -> is_not_found (CText s) = false.
Proof. intros H. now destruct (safe_to_numeric_known s H). Qed.

(** [date_to_string] leaves text alone unless it reads as not found. *)
Lemma date_to_string_text (s : string) :
  is_not_found (CText s) = false -> date_to_string (CText s) = s.
Proof.
  intros H. unfold date_to_string. rewrite H.
  unfold is_not_found in H. simpl in H.
  unfold Text.mem in *. simpl in *.
  repeat (apply orb_false_iff in H; destruct H as [? H]).
  repeat match goal with E : String.eqb _ _ = false |- _ => rewrite E; clear E end.
  reflexivity.
Qed.

Lemma finalize_row_score (r : Row X) :
  Cadence_Score (finalize_row r) = Cadence_Score r.
Proof. unfold finalize_row. now destruct (eq_int (risk_score r) 0). Qed.

Lemma finalize_row_due (r : Row X) :
  Due_Date (finalize_row r) = date_to_string (CText (Due_Date r)).
Proof. unfold finalize_row. now destruct (eq_int (risk_score r) 0). Qed.

(** C3, as the code has it. Due-date offsets: for a row whose NC Count
    reads as a number and whose Resolved Date is not the sentinel, the Due
    Date is what [add_days_to_date] makes of the resolved date and the
    offset the table of the specification gives for (NC, Cadence Score):
    the resolved date moved by the offset when pandas reads the resolved
    date and the new date is one a Timestamp holds, the sentinel when the
    new date is out of that range or the resolved date is not read; and the
    sentinel when the score is no tier.  A row whose NC Count or Resolved
    Date is absent gets the sentinel from this calculation. *)
Theorem C3_due_date_offsets
    (Cadence Out : list (Row X)) (i : nat) (r : Row X) :
  nth_error Cadence i = Some r ->
  calculate_due_dates Cadence = Some Out ->
  let nc := safe_to_numeric (NC_Count r) in
  let resolved := Resolved_Date r in
  (notna nc = true -> is_not_found resolved = false ->
   exists r', nth_error Out i = Some r' /\
     match Spec.offset nc (Cadence_Score r) with
     | Some k =>
         Due_Date r' = add_days_to_date resolved k /\
         Due_Date r' = match to_datetime resolved with
                       | Some d =>
                           if in_range (add_days d k)
                           then strftime (add_days d k)
                           else NOT_FOUND
                       | None => NOT_FOUND
                       end
     | None => Due_Date r' = NOT_FOUND
     end)
  /\
  (notna nc = false \/ is_not_found resolved = true ->
   computed_due_date r = NOT_FOUND).
Proof.
  intros Hi HOut nc resolved. split.
  - intros Hnc Hres.
    rewrite calculate_due_dates_rows in HOut.
    destruct (for_rows_nth _ _ _ HOut i r Hi) as [r' [Hr' Hn]].
    exists r'. split; [exact Hn|].
    unfold fallback in Hr'.
    change (NC_Count (dated r)) with (NC_Count r) in Hr'.
    rewrite (notna_found _ Hnc) in Hr'. injection Hr' as <-.
    change (Due_Date (dated r)) with (computed_due_date r).
    unfold computed_due_date. fold nc. fold resolved.
    rewrite Hnc, Hres. simpl.
    rewrite (due_days_offset nc _ Hnc).
    destruct (Spec.offset nc (Cadence_Score r)) as [k|]; [|reflexivity].
    split; [reflexivity|].
    unfold add_days_to_date. rewrite Hres.
    destruct (to_datetime resolved) as [d|]; [|reflexivity].
    unfold timestamp_add. now destruct (in_range (add_days d k)).
  - intros H. unfold computed_due_date. fold nc. fold resolved.
    destruct H as [-> | ->]; [reflexivity|].
    now rewrite orb_true_r.
Qed.

(** C4, as the code has it. Fallback carry-forward: a row whose NC Count is
    the sentinel ends with the Cadence Score [int(float(Previous Cadence))]
    when Previous Cadence is not the sentinel and [float] reads a number in
    it: the number cut to its integer part, which int64 holds in every
    table [calculate_due_dates] returns.  It keeps its score when Previous
    Cadence is the sentinel, is no number for [float], or reads as NaN.  It
    ends with the Due Date of Previous Due Date when that is not the
    sentinel. *)
Theorem C4_fallback_carry_forward
    (Cadence Out : list (Row X)) (i : nat) (r : Row X) :
  nth_error Cadence i = Some r ->
  calculate_due_dates Cadence = Some Out ->
  is_not_found (NC_Count r) = true ->
  exists r', nth_error (map finalize_row Out) i = Some r' /\
    (forall x z,
        is_not_found (Previous_Cadence r) = false ->
        py_float (Previous_Cadence r) = Some x ->
        py_int x = IntValue z ->
        Cadence_Score r' = z /\ fits_int64 z = true)
    /\
    (is_not_found (Previous_Cadence r) = true
     \/ py_float (Previous_Cadence r) = None
     \/ py_float (Previous_Cadence r) = Some NaN ->
     Cadence_Score r' = Cadence_Score r)
    /\
    (is_not_found (Previous_Due_Date r) = false ->
     Due_Date r' = Previous_Due_Date r).
Proof.
  intros Hi HOut Hnc.
  rewrite calculate_due_dates_rows in HOut.
  destruct (for_rows_nth _ _ _ HOut i r Hi) as [b [Hb Hn]].
  exists (finalize_row b). split; [now apply nth_error_map_Some|].
  unfold fallback in Hb.
  change (NC_Count (dated r)) with (NC_Count r) in Hb.
  change (Previous_Cadence (dated r)) with (Previous_Cadence r) in Hb.
  rewrite Hnc in Hb.
  rewrite finalize_row_score, finalize_row_due.
  split; [|split].
  - intros x z Hf Hx Hz. rewrite Hf, Hx, Hz in Hb. simpl in Hb.
    destruct (fits_int64 z); simpl in Hb; [|discriminate].
    split; [|reflexivity].
    destruct (is_not_found (Previous_Due_Date r)); simpl in Hb;
      injection Hb as <-; reflexivity.
  - intros [Hf|[Hx|Hx]]; rewrite ?Hf, ?Hx in Hb; simpl in Hb.
    + destruct (is_not_found (Previous_Due_Date r)); simpl in Hb;
        injection Hb as <-; reflexivity.
    + destruct (negb (is_not_found (Previous_Cadence r))); simpl in Hb;
        destruct (is_not_found (Previous_Due_Date r)); simpl in Hb;
        injection Hb as <-; reflexivity.
    + destruct (negb (is_not_found (Previous_Cadence r))); simpl in Hb;
        destruct (is_not_found (Previous_Due_Date r)); simpl in Hb;
        injection Hb as <-; reflexivity.
  - intros Hd.
    assert (Hdue : Due_Date b = Previous_Due_Date r).
    { destruct (negb (is_not_found (Previous_Cadence r))).
      - destruct (py_float (Previous_Cadence r)) as [x|].
        + destruct (py_int x) as [z| |]; try discriminate;
            [destruct (fits_int64 z); [|discriminate]|];
            simpl in Hb; rewrite Hd in Hb; simpl in Hb;
            injection Hb as <-; reflexivity.
        + simpl in Hb. rewrite Hd in Hb. simpl in Hb.
          injection Hb as <-; reflexivity.
      - simpl in Hb. rewrite Hd in Hb. simpl in Hb.
        injection Hb as <-; reflexivity. }
    rewrite Hdue. now apply date_to_string_text.
Qed.

End Due_dates.

(** C3 at a row with NC 12 and score 90: the offset is 60 days. *)
Lemma C3_witness :
  exists r',
    nth_error [dated (R := reference_runtime)
                 (sample_row 3 90 "2024-01-10" "12.0" "90" "2024-03-01" "0.0")] 0
    = Some r'
    /\ Due_Date r' = "2024-03-10".
Proof.
  pose (r := sample_row 3 90 "2024-01-10" "12.0" "90" "2024-03-01" "0.0").
  destruct (C3_due_date_offsets (R := reference_runtime) [r]
              [dated (R := reference_runtime) r] 0 r eq_refl eq_refl)
    as [H _].
  destruct (H eq_refl eq_refl) as [r' [Hn Hd]].
  exists r'. split; [exact Hn|].
  cbv in Hd. exact (proj2 Hd).
Defined.

(** C3 as stated fails: a row with NC 3 and score 60, resolved on
    2262-03-01.  The offset of the table is 60 days and the resolved date
    plus 60 days is 2262-04-30; a Timestamp ends on 2262-04-11, the addition
    raises, [add_days_to_date] catches it, and the Due Date is the
    sentinel. *)
Lemma C3_counterexample :
  exists (r : Row unit) Out r',
    notna (safe_to_numeric (R := reference_runtime) (NC_Count r)) = true
    /\ is_not_found (Resolved_Date r) = false
    /\ Spec.offset (safe_to_numeric (R := reference_runtime) (NC_Count r))
         (Cadence_Score r) = Some 60
    /\ to_datetime (Runtime := reference_runtime) (Resolved_Date r)
       = Some (mkdate 2262 3 1)
    /\ strftime (add_days (mkdate 2262 3 1) 60) = "2262-04-30"
    /\ calculate_due_dates (R := reference_runtime) [r] = Some Out
    /\ nth_error Out 0 = Some r'
    /\ Due_Date r' = NOT_FOUND.
Proof.
  exists (sample_row 2 60 "2262-03-01" "3.0" NOT_FOUND NOT_FOUND NOT_FOUND).
  eexists _, _.
  do 5 (split; [vm_compute; reflexivity|]).
  split; [vm_compute; reflexivity|].
  split; reflexivity.
Qed.

(** C4 at the example of the specification: NC Count not found, Previous
    Cadence 60 and Previous Due Date 2024-03-15 give the score 60 and the
    due date 2024-03-15. *)
Lemma C4_witness :
  exists r',
    nth_error
      (map (finalize_row (R := reference_runtime))
         [set_Due_Date "2024-03-15"
            (set_Cadence_Score 60
               (sample_row 1 30 NOT_FOUND NOT_FOUND "60" "2024-03-15" NOT_FOUND))]) 0
    = Some r'
    /\ Cadence_Score r' = 60 /\ Due_Date r' = "2024-03-15".
Proof.
  pose (r := sample_row 1 30 NOT_FOUND NOT_FOUND "60" "2024-03-15" NOT_FOUND).
  destruct (C4_fallback_carry_forward (R := reference_runtime) [r]
              [set_Due_Date "2024-03-15" (set_Cadence_Score 60 r)] 0 r
              eq_refl eq_refl eq_refl)
    as [r' [Hn [Hs [_ Hd]]]].
  exists r'. split; [exact Hn|]. split.
  - exact (proj1 (Hs (of_int 60) 60 eq_refl eq_refl eq_refl)).
  - exact (Hd eq_refl).
Defined.

(** C4 as stated fails: the score written is not the numeric value of
    Previous Cadence but its integer part.  A master file whose Cadence
    Score cell is the text 60.7 gives the Previous Cadence 60.7, and the
    fallback writes [int(float('60.7'))], which is 60. *)
Lemma C4_counterexample :
  exists (r : Row unit) x Out r',
    is_not_found (NC_Count r) = true
    /\ Previous_Cadence r = "60.7"
    /\ is_not_found (Previous_Cadence r) = false
    /\ py_float (Runtime := reference_runtime) (Previous_Cadence r) = Some x
    /\ eq_int x 60 = false
    /\ calculate_due_dates (R := reference_runtime) [r] = Some Out
    /\ nth_error (map (finalize_row (R := reference_runtime)) Out) 0 = Some r'
    /\ Cadence_Score r' = 60.
Proof.
  exists (sample_row 1 30 NOT_FOUND NOT_FOUND "60.7" "2024-03-15" NOT_FOUND).
  eexists _, _, _.
  do 3 (split; [reflexivity|]).
  split; [vm_compute; reflexivity|].
  split; [vm_compute; reflexivity|].
  split; [vm_compute; reflexivity|].
  split; reflexivity.
Qed.

(** ** Lookups *)

Lemma lookup_Some {A : Type} (key : A -> string) (rows : list A) (k : string) (r : A) :
  lookup key rows k = Some r -> In r rows /\ key r = k.
Proof.
  unfold lookup. intros H. apply find_some in H.
  destruct H as [H1 H2]. apply String.eqb_eq in H2. auto.
Qed.

Lemma lookup_None {A : Type} (key : A -> string) (rows : list A) (k : string) :
  lookup key rows k = None <-> ~ In k (map key rows).
Proof.
  unfold lookup. split.
  - intros H Hin. apply in_map_iff in Hin. destruct Hin as [r [Hk Hr]].
    pose proof (find_none _ _ H r Hr) as E. simpl in E.
    rewrite Hk, String.eqb_refl in E. discriminate.
  - intros H. destruct (find _ rows) as [r|] eqn:F; [|reflexivity].
    apply find_some in F. destruct F as [F1 F2]. apply String.eqb_eq in F2.
    exfalso. apply H. apply in_map_iff. exists r. auto.
Qed.

Lemma groupby_sum_keys {R : Runtime} {A : Type} (key : A -> string)
    (val : A -> pyfloat) (rows : list A) (k : string) :
  In k (map fst (groupby_sum key val rows)) <-> In k (map key rows).
Proof.
  unfold groupby_sum. rewrite map_map. simpl. rewrite map_id.
  apply nodup_In.
Qed.

Lemma lookup_groupby_sum_None {R : Runtime} {A : Type} (key : A -> string)
    (val : A -> pyfloat) (rows : list A) (k : string) :
  lookup fst (groupby_sum key val rows) k = None -> lookup key rows k = None.
Proof.
  rewrite !lookup_None, groupby_sum_keys. auto.
Qed.

(** ** GDN node enumeration *)

(** The membership condition of the claim on one normalised ARMT row:
    AmazonGlobal with a source in the core list, or CrossListing with a
    destination in the cross list and a source outside the deny list. *)
Definition claimed_gdn_node (row : GDN.armt_row) : bool :=
  let source := map Text.strip (Text.split "," (GDN.a_Source row)) in
  let destination := map Text.strip (Text.split "," (GDN.a_Destination row)) in
  (String.eqb (GDN.a_program row) "AmazonGlobal"
   && existsb (fun j => Text.mem j GDN.GDN_Core) source)
  || (String.eqb (GDN.a_program row) "CrossListing"
      && existsb (fun k => Text.mem k GDN.GDN_Cross) destination
      && existsb (fun t => negb (Text.mem t GDN.GDN_Excluded_Sources)) source).

(** What [create_nodes] tests on a row: the core loop has no program guard. *)
Definition code_gdn_node (row : GDN.armt_row) : bool :=
  let source := map Text.strip (Text.split "," (GDN.a_Source row)) in
  let destination := map Text.strip (Text.split "," (GDN.a_Destination row)) in
  existsb (fun j => Text.mem j GDN.GDN_Core) source
  || (String.eqb (GDN.a_program row) "CrossListing"
      && existsb (fun k => Text.mem k GDN.GDN_Cross) destination
      && existsb (fun t => negb (Text.mem t GDN.GDN_Excluded_Sources)) source).

Lemma existsb_map {A B : Type} (f : B -> bool) (g : A -> B) (l : list A) :
  existsb f (map g l) = existsb (fun x => f (g x)) l.
Proof. induction l as [|x l IH]; simpl; [reflexivity | now rewrite IH]. Qed.

Lemma flat_map_if_In {A : Type} (c : A -> bool) (v : string) (l : list A) (k : string) :
  In k (flat_map (fun x => if c x then [v] else []) l)
  <-> k = v /\ existsb c l = true.
Proof.
  rewrite in_flat_map, existsb_exists. split.
  - intros [x [Hx Hk]]. destruct (c x) eqn:E; [|destruct Hk].
    destruct Hk as [<-|[]]. split; [reflexivity | now exists x].
  - intros [-> [x [Hx E]]]. exists x. rewrite E. split; [assumption | now left].
Qed.

Lemma added_nodes_In (armt : list GDN.armt_row) (k : string) :
  In k (GDN.added_nodes armt)
  <-> exists row, In row armt /\ GDN.child_class row = k /\ code_gdn_node row = true.
Proof.
  unfold GDN.added_nodes. rewrite in_flat_map.
  split; intros [row [Hrow H]]; exists row; (split; [exact Hrow|]).
  - unfold code_gdn_node. rewrite !existsb_map.
    apply in_app_or in H. destruct H as [H|H].
    + apply flat_map_if_In in H. destruct H as [-> H].
      split; [reflexivity|]. now rewrite H.
    + destruct (String.eqb (GDN.a_program row) "CrossListing"); [|destruct H].
      apply in_flat_map in H. destruct H as [d [Hd H]].
      apply flat_map_if_In in H. destruct H as [-> H].
      split; [reflexivity|]. apply orb_true_iff. right. simpl.
      apply existsb_exists in H. destruct H as [t [Ht E]].
      apply andb_true_iff in E. destruct E as [E1 E2].
      apply andb_true_iff. split; apply existsb_exists; eauto.
  - destruct H as [<- H]. unfold code_gdn_node in H. rewrite !existsb_map in H.
    apply in_or_app. apply orb_true_iff in H. destruct H as [H|H].
    + left. apply flat_map_if_In. auto.
    + right. apply andb_true_iff in H. destruct H as [H H3].
      apply andb_true_iff in H. destruct H as [H1 H2]. rewrite H1.
      apply existsb_exists in H2. destruct H2 as [d [Hd E]].
      apply in_flat_map. exists d. split; [exact Hd|].
      apply flat_map_if_In. split; [reflexivity|].
      apply existsb_exists in H3. destruct H3 as [t [Ht E3]].
      apply existsb_exists. exists t. split; [exact Ht|]. now rewrite E, E3.
Qed.


(** Every row the claim admits passes the test of the code. *)
Lemma claimed_gdn_node_code (row : GDN.armt_row) :
  claimed_gdn_node row = true -> code_gdn_node row = true.
Proof.
  unfold claimed_gdn_node, code_gdn_node. intros H.
  apply orb_true_iff in H. apply orb_true_iff. destruct H as [H|H]; [left|now right].
  now apply andb_true_iff in H.
Qed.

(** C8, the failing input. A CrossListing row with source DE and
    destination JP is no node by the claim (it is not AmazonGlobal, and JP is
    not in the cross list), yet [create_nodes] adds its child class: the loop
    under the comment "AmazonGlobal - DE source" has no test on the program. *)
Theorem C8_core_loop_ignores_program :
  let row := GDN.mk_armt "Cables" "Electronics" "Policy" "CrossListing" "DE" "JP"
               (CNum (of_int 2)) in
  GDN.create_nodes (R := reference_runtime) [row] = ["Cables"]
  /\ claimed_gdn_node row = false
  /\ code_gdn_node row = true.
Proof. repeat split. Qed.

(** ** What the last stages do to a row *)

Section Last_stages.

Context {R : Runtime} {X : Type}.

Lemma np_where_tier (c : bool) (v old : Z) :
  is_tier v = true -> is_tier old = true -> is_tier (np_where c v old) = true.
Proof. unfold np_where. now destruct c. Qed.

(** [update_cadence_score] only writes tiers. *)
Lemma updated_score_is_tier (r : Row X) :
  is_tier (Cadence_Score r) = true -> is_tier (updated_score r) = true.
Proof.
  intros H. unfold updated_score. cbv zeta.
  repeat (apply np_where_tier; [reflexivity|]). exact H.
Qed.

(** The columns the fallback leaves alone. *)
Lemma fallback_keeps (r r' : Row X) :
  fallback r = Some r' ->
  Key r' = Key r /\ Policies r' = Policies r /\ JSR r' = JSR r /\
  risk_score r' = risk_score r /\ Resolved_Date r' = Resolved_Date r /\
  NC_Count r' = NC_Count r /\ extra r' = extra r.
Proof.
  unfold fallback. intros H.
  destruct (is_not_found (NC_Count r)); [|injection H as <-; repeat split].
  destruct (negb (is_not_found (Previous_Cadence r)));
    [destruct (py_float (Previous_Cadence r)) as [x|];
     [destruct (py_int x) as [z| |]; try discriminate;
      [destruct (fits_int64 z); [|discriminate]|]|]|];
    simpl in H;
    match type of H with
    | (if ?c then _ else _) = _ => destruct c
    end; injection H as <-; repeat split.
Qed.

(** The score after the fallback: untouched, or read from Previous
    Cadence on a row without NC Count. *)
Lemma fallback_score (r r' : Row X) :
  fallback r = Some r' ->
  Cadence_Score r' = Cadence_Score r \/
  (is_not_found (NC_Count r) = true /\
   is_not_found (Previous_Cadence r) = false /\
   exists x, py_float (Previous_Cadence r) = Some x /\
             py_int x = IntValue (Cadence_Score r')).
Proof.
  unfold fallback. intros H.
  destruct (is_not_found (NC_Count r)) eqn:Hnc; [|injection H as <-; now left].
  destruct (is_not_found (Previous_Cadence r)) eqn:Hpc; simpl in H.
  - left. destruct (is_not_found (Previous_Due_Date r));
      injection H as <-; reflexivity.
  - destruct (py_float (Previous_Cadence r)) as [x|] eqn:Hx.
    + destruct (py_int x) as [z| |] eqn:Hz; try discriminate.
      * destruct (fits_int64 z); [|discriminate].
        right. repeat split; try reflexivity. exists x. split; [reflexivity|].
        simpl in H.
        destruct (is_not_found (Previous_Due_Date r));
          injection H as <-; exact Hz.
      * left. simpl in H. destruct (is_not_found (Previous_Due_Date r));
          injection H as <-; reflexivity.
    + left. simpl in H. destruct (is_not_found (Previous_Due_Date r));
        injection H as <-; reflexivity.
Qed.

(** The fallback stores nothing int64 cannot hold. *)
Lemma fallback_score_fits (r r' : Row X) :
  fallback r = Some r' ->
  Cadence_Score r' = Cadence_Score r \/ fits_int64 (Cadence_Score r') = true.
Proof.
  unfold fallback. intros H.
  destruct (is_not_found (NC_Count r)); [|injection H as <-; now left].
  destruct (is_not_found (Previous_Cadence r)); simpl in H.
  - left. destruct (is_not_found (Previous_Due_Date r));
      injection H as <-; reflexivity.
  - destruct (py_float (Previous_Cadence r)) as [x|].
    + destruct (py_int x) as [z| |]; try discriminate.
      * destruct (fits_int64 z) eqn:F; [|discriminate].
        right. simpl in H.
        destruct (is_not_found (Previous_Due_Date r));
          injection H as <-; exact F.
      * left. simpl in H. destruct (is_not_found (Previous_Due_Date r));
          injection H as <-; reflexivity.
    + left. simpl in H. destruct (is_not_found (Previous_Due_Date r));
        injection H as <-; reflexivity.
Qed.

(** After the last stages the score of a row is an integer of int64: a tier
    or what the fallback stored. *)
Lemma last_stages_fit (r r3 : Row X) :
  is_tier (Cadence_Score r) = true ->
  fallback (dated (scored r)) = Some r3 ->
  fits_int64 (Cadence_Score r3) = true.
Proof.
  intros Hs Hf. destruct (fallback_score_fits _ _ Hf) as [E|E]; [|exact E].
  rewrite E. apply tier_fits_int64, is_tier_iff.
  now apply updated_score_is_tier.
Qed.

(** The due date after the fallback on a row with an NC Count. *)
Lemma fallback_known_nc (r : Row X) :
  is_not_found (NC_Count r) = false -> fallback r = Some r.
Proof. unfold fallback. now intros ->. Qed.

(** Previous Cadence carries a tier: whatever the fallback can read from it
    is one of the five scores. *)
Definition carries_tier (s : string) : Prop :=
  forall x z,
    is_not_found (CText s) = false -> py_float s = Some x ->
    py_int x = IntValue z -> is_tier z = true.

Lemma carries_tier_not_found : carries_tier NOT_FOUND.
Proof. intros x z H. discriminate. Qed.

Lemma fallback_score_is_tier (r r3 : Row X) :
  is_tier (Cadence_Score r) = true ->
  carries_tier (Previous_Cadence r) ->
  fallback (dated (scored r)) = Some r3 ->
  is_tier (Cadence_Score r3) = true.
Proof.
  intros Hs Hc Hf.
  destruct (fallback_score _ _ Hf) as [E | [_ [Hpc [x [Hx Hz]]]]].
  - rewrite E. now apply updated_score_is_tier.
  - exact (Hc x _ Hpc Hx Hz).
Qed.

(** A risk score that is 0 or at least 1 going in. *)
Definition risk_in_domain (x : pyfloat) : Prop :=
  eq_int x 0 = true \/ ge_int x 1 = true.

Lemma finalize_row_risk (r : Row X) :
  risk_in_domain (risk_score r) ->
  ge_int (risk_score (finalize_row r)) 1 = true.
Proof.
  intros Hr. unfold finalize_row.
  destruct (eq_int (risk_score r) 0) eqn:E; simpl.
  - reflexivity.
  - destruct Hr as [Hr|Hr]; [congruence | exact Hr].
Qed.

End Last_stages.

(** ** The rows of a run *)

Section Runs.

Context {R : Runtime}.

(** Every row of a GDN Cadence table comes from a node through the stages. *)
Lemma GDN_process_rows (armt : list GDN.armt_row) (outflow : list GDN.outflow_row)
    (master : GDN.master_table) (cadence filtered : list (Row unit)) :
  GDN.process armt outflow master = Success cadence filtered ->
  forall r, In r cadence ->
  exists node r1 r3,
    In node (GDN.create_nodes armt) /\
    GDN.master_lookup_row master
      (GDN.cadence_row armt (fst (GDN.process_outflow outflow))
         (snd (GDN.process_outflow outflow)) node) = Some r1 /\
    fallback (dated (scored r1)) = Some r3 /\
    r = finalize_row r3.
Proof.
  unfold GDN.process. intros H r Hr.
  destruct (GDN.process_outflow outflow) as [out out1]. simpl.
  destruct (List.length (GDN.create_nodes armt) =? 0)%nat; [discriminate|].
  destruct (GDN.apply_master_lookups _ master) as [t1|] eqn:E1; [|discriminate].
  destruct (calculate_due_dates (update_cadence_score t1)) as [t3|] eqn:E3;
    [|discriminate].
  injection H as <- _.
  unfold GDN.finalize_cadence in Hr. apply in_map_iff in Hr.
  destruct Hr as [r3 [<- Hr3]].
  rewrite update_then_due_rows in E3.
  destruct (for_rows_In _ _ _ E3 r3 Hr3) as [r1 [Hr1 F3]].
  unfold GDN.apply_master_lookups in E1.
  destruct (for_rows_In _ _ _ E1 r1 Hr1) as [r0 [Hr0 F1]].
  unfold GDN.create_cadence in Hr0. apply in_map_iff in Hr0.
  destruct Hr0 as [node [<- Hnode]].
  exists node, r1, r3. auto.
Qed.

(** Every row of an IAS Cadence table comes from a node through the stages. *)
Lemma IAS_process_rows (armt : list IAS.armt_row) (outflow : list IAS.outflow_row)
    (master : IAS.master_table) (cadence filtered : list (Row IAS.kept_columns)) :
  IAS.process armt outflow master = Success cadence filtered ->
  forall r, In r cadence ->
  exists node r1 r3,
    In node (IAS.create_nodes armt) /\
    IAS.master_lookup_row master
      (IAS.cadence_row armt (fst (fst (IAS.process_outflow outflow)))
         (snd (fst (IAS.process_outflow outflow)))
         (snd (IAS.process_outflow outflow)) node) = Some r1 /\
    fallback (dated (scored (IAS.merge_row r1))) = Some r3 /\
    r = finalize_row (set_extra (fst (extra r3)) r3).
Proof.
  unfold IAS.process. intros H r Hr.
  destruct (IAS.process_outflow outflow) as [[out out1] out2]. simpl.
  destruct (List.length (IAS.create_nodes armt) =? 0)%nat; [discriminate|].
  destruct (IAS.apply_master_lookups _ master) as [t1|] eqn:E1; [|discriminate].
  destruct (calculate_due_dates (update_cadence_score (IAS.merge_columns t1)))
    as [t3|] eqn:E3; [|discriminate].
  injection H as <- _.
  unfold IAS.finalize_cadence in Hr. apply in_map_iff in Hr.
  destruct Hr as [r3 [<- Hr3]].
  rewrite update_then_due_rows in E3. unfold IAS.merge_columns in E3.
  rewrite for_rows_map in E3.
  destruct (for_rows_In _ _ _ E3 r3 Hr3) as [r1 [Hr1 F3]].
  unfold IAS.apply_master_lookups in E1.
  destruct (for_rows_In _ _ _ E1 r1 Hr1) as [r0 [Hr0 F1]].
  unfold IAS.create_cadence in Hr0. apply in_map_iff in Hr0.
  destruct Hr0 as [node [<- Hnode]].
  exists node, r1, r3. auto.
Qed.

End Runs.

(** ** The domain of scores and risks *)

Section Domain.

Context {R : Runtime}.

Lemma previous_cadence_carries (c : option cell) (s : string) :
  (forall x t, c = Some x -> previous_cadence (Some x) = Some t -> carries_tier t) ->
  previous_cadence c = Some s -> carries_tier s.
Proof.
  intros H Hs. destruct c as [x|].
  - exact (H x s eq_refl Hs).
  - simpl in Hs. injection Hs as <-. apply carries_tier_not_found.
Qed.

Lemma risk_of_in_domain {A : Type} (score : A -> cell) (a : option A) :
  (forall x, a = Some x -> risk_in_domain (risk_of (Some (score x)))) ->
  risk_in_domain (risk_of (option_map score a)).
Proof.
  intros H. destruct a as [x|]; simpl.
  - now apply H.
  - right. reflexivity.
Qed.

Lemma merged_carries (p s : string) :
  carries_tier p -> carries_tier s -> carries_tier (IAS.merged p s).
Proof. unfold IAS.merged. now destruct (is_not_found p). Qed.

(** C5, as the code has it. Score and risk domain: in the Cadence table of
    a successful run of IAS or GDN every Cadence Score is one of 30, 60, 90,
    180, 365 provided every Cadence Score of the master file that can be
    carried forward is one of them, and every risk score is at least 1
    provided every ARMT parent score reads as 0 or as a number of at least 1
    (or is missing). *)
Theorem C5_score_and_risk_domain :
  (forall (armt : list IAS.armt_row) (outflow : list IAS.outflow_row)
          (master : IAS.master_table) cadence filtered,
      IAS.process armt outflow master = Success cadence filtered ->
      (forall m s, In m (IAS.master_rows master) ->
                   previous_cadence (Some (IAS.m_Cadence_Score m)) = Some s ->
                   carries_tier s) ->
      (forall a, In a armt -> risk_in_domain (risk_of (Some (IAS.parent_score a)))) ->
      forall r, In r cadence ->
                is_tier (Cadence_Score r) = true /\ ge_int (risk_score r) 1 = true)
  /\
  (forall (armt : list GDN.armt_row) (outflow : list GDN.outflow_row)
          (master : GDN.master_table) cadence filtered,
      GDN.process armt outflow master = Success cadence filtered ->
      (forall m s, In m (GDN.master_rows master) ->
                   previous_cadence (Some (GDN.m_Cadence_Score m)) = Some s ->
                   carries_tier s) ->
      (forall a, In a armt -> risk_in_domain (risk_of (Some (GDN.parent_score a)))) ->
      forall r, In r cadence ->
                is_tier (Cadence_Score r) = true /\ ge_int (risk_score r) 1 = true).
Proof.
  split; intros armt outflow master cadence filtered Hrun Hmaster Harmt r Hr.
  - destruct (IAS_process_rows _ _ _ _ _ Hrun r Hr)
      as (node & r1 & r3 & _ & H1 & H3 & ->).
    unfold IAS.master_lookup_row in H1.
    destruct (previous_cadence (option_map IAS.m_Cadence_Score
                (lookup IAS.m_Combined_Classes (IAS.master_rows master) _)))
      as [cad|] eqn:C1; [|discriminate].
    destruct (previous_cadence (option_map IAS.m_Cadence_Score
                (lookup IAS.m_Combined_Classes2 (IAS.master_rows master) _)))
      as [cad2|] eqn:C2; [|discriminate].
    simpl in H1. injection H1 as <-.
    assert (Hc1 : carries_tier cad).
    { apply (previous_cadence_carries _ _) with (2 := C1). intros x t Hx Ht.
      destruct (lookup IAS.m_Combined_Classes _ _) as [m|] eqn:L; [|discriminate].
      injection Hx as <-. apply lookup_Some in L. eapply Hmaster; [apply L | exact Ht]. }
    assert (Hc2 : carries_tier cad2).
    { apply (previous_cadence_carries _ _) with (2 := C2). intros x t Hx Ht.
      destruct (lookup IAS.m_Combined_Classes2 _ _) as [m|] eqn:L; [|discriminate].
      injection Hx as <-. apply lookup_Some in L. eapply Hmaster; [apply L | exact Ht]. }
    split.
    + rewrite finalize_row_score. simpl.
      eapply fallback_score_is_tier; [| |exact H3].
      * apply RISK_TO_CADENCE_tier.
      * apply merged_carries; assumption.
    + apply finalize_row_risk.
      destruct (fallback_keeps _ _ H3) as (_ & _ & _ & Hrisk & _).
      simpl. rewrite Hrisk. simpl.
      apply risk_of_in_domain. intros x Hx.
      apply lookup_Some in Hx. apply Harmt, Hx.
  - destruct (GDN_process_rows _ _ _ _ _ Hrun r Hr)
      as (node & r1 & r3 & _ & H1 & H3 & ->).
    unfold GDN.master_lookup_row in H1.
    destruct (previous_cadence (option_map GDN.m_Cadence_Score
                (lookup GDN.m_child_class (GDN.master_rows master) _)))
      as [cad|] eqn:C1; [|discriminate].
    injection H1 as <-.
    assert (Hc1 : carries_tier cad).
    { apply (previous_cadence_carries _ _) with (2 := C1). intros x t Hx Ht.
      destruct (lookup GDN.m_child_class _ _) as [m|] eqn:L; [|discriminate].
      injection Hx as <-. apply lookup_Some in L. eapply Hmaster; [apply L | exact Ht]. }
    split.
    + rewrite finalize_row_score.
      eapply fallback_score_is_tier; [| |exact H3].
      * apply RISK_TO_CADENCE_tier.
      * exact Hc1.
    + apply finalize_row_risk.
      destruct (fallback_keeps _ _ H3) as (_ & _ & _ & Hrisk & _).
      rewrite Hrisk. simpl.
      apply risk_of_in_domain. intros x Hx.
      apply lookup_Some in Hx. apply Harmt, Hx.
Qed.

End Domain.

(** An IAS run: one AmazonGlobal row from FR with parent score -2, no
    outflow, and a master file that has the node at Cadence Score 45. *)
Definition out_of_domain_armt : list IAS.armt_row :=
  [IAS.mk_armt "AmazonGlobal" (CText "Policy") (CText "Cables")
     (CText "Electronics") "FR" "Any" (CNum (of_int (-2)))].

Definition out_of_domain_master : IAS.master_table :=
  IAS.mk_master_table true
    [IAS.mk_master (CText "Electronics") (CText "Cables") (CText "FR")
       (CText "FR-Any") (CNum (of_int 45)) (CText "2024-03-15") (CText NOT_FOUND)].

(** C5 as stated fails: the run succeeds and its row has the Cadence Score
    45, carried forward from the master file, and the risk score -2. *)
Lemma C5_counterexample :
  exists cadence filtered r,
    IAS.process (R := reference_runtime) out_of_domain_armt [] out_of_domain_master
    = Success cadence filtered
    /\ In r cadence
    /\ Cadence_Score r = 45 /\ is_tier (Cadence_Score r) = false
    /\ risk_score r = of_int (-2) /\ ge_int (risk_score r) 1 = false.
Proof.
  eexists _, _, _. split; [vm_compute; reflexivity|].
  split; [left; reflexivity|]. repeat split.
Qed.

(** An IAS run inside the domain: parent score 2 and a master score of 60. *)
Definition in_domain_armt : list IAS.armt_row :=
  [IAS.mk_armt "AmazonGlobal" (CText "Policy") (CText "Cables")
     (CText "Electronics") "FR" "Any" (CNum (of_int 2))].

Definition in_domain_master : IAS.master_table :=
  IAS.mk_master_table true
    [IAS.mk_master (CText "Electronics") (CText "Cables") (CText "FR")
       (CText "FR-Any") (CNum (of_int 60)) (CText "2024-03-15") (CText NOT_FOUND)].

Lemma C5_witness :
  exists cadence filtered,
    IAS.process (R := reference_runtime) in_domain_armt [] in_domain_master
    = Success cadence filtered
    /\ forall r, In r cadence ->
                 is_tier (Cadence_Score r) = true /\ ge_int (risk_score r) 1 = true.
Proof.
  eexists _, _. split; [vm_compute; reflexivity|].
  eapply (proj1 (C5_score_and_risk_domain (R := reference_runtime))
            in_domain_armt [] in_domain_master).
  - vm_compute. reflexivity.
  - intros m s [<-|[]] Hs. vm_compute in Hs. injection Hs as <-.
    intros x z _ Hx Hz. vm_compute in Hx. injection Hx as <-.
    vm_compute in Hz. injection Hz as <-. reflexivity.
  - intros a [<-|[]]. right. reflexivity.
Defined.

(** ** The JSR flag *)

(** An IAS run: one CrossListing row from FR to UK whose policy is a JSR
    policy; no outflow, an empty master file. *)
Definition jsr_armt : list IAS.armt_row :=
  [IAS.mk_armt "CrossListing" (CText "Toys_JSR") (CText "Cables")
     (CText "Electronics") "FR" "UK" (CNum (of_int 2))].

(** C10, the failing input. The node of a CrossListing row is keyed by
    [combined_class2], so its primary lookup misses: JSR is computed from the
    primary Policies 'not Found!', and [merge_columns] then fills Policies
    from the secondary column without recomputing JSR.  The output row has
    the policy Toys_JSR and the flag No. *)
Theorem C10_jsr_stale_after_merge :
  exists r,
    IAS.process (R := reference_runtime) jsr_armt [] (IAS.mk_master_table true [])
    = Success [r] [r]
    /\ Policies r = "Toys_JSR"
    /\ JSR r = "No"
    /\ jsr_flag (Policies r) = "Yes".
Proof. eexists. split; [vm_compute; reflexivity|]. repeat split. Qed.

(** GDN has no merge: its flag is the flag of the Policies it shows. *)
Lemma GDN_jsr_of_final_policies {R : Runtime} (armt : list GDN.armt_row)
    (outflow : list GDN.outflow_row) (master : GDN.master_table)
    (cadence filtered : list (Row unit)) :
  GDN.process armt outflow master = Success cadence filtered ->
  forall r, In r cadence -> JSR r = jsr_flag (Policies r).
Proof.
  intros Hrun r Hr.
  destruct (GDN_process_rows _ _ _ _ _ Hrun r Hr)
    as (node & r1 & r3 & _ & H1 & H3 & ->).
  destruct (fallback_keeps _ _ H3) as (_ & HP & HJ & _).
  unfold GDN.master_lookup_row in H1.
  destruct (previous_cadence _) as [cad|]; [|discriminate].
  injection H1 as <-.
  unfold finalize_row.
  destruct (eq_int (risk_score r3) 0); simpl; rewrite HP, HJ; reflexivity.
Qed.

(** IAS: the flag is the flag of the primary Policies, before the merge. *)
Lemma IAS_jsr_of_primary_policies {R : Runtime} (armt : list IAS.armt_row)
    (outflow : list IAS.outflow_row) (master : IAS.master_table)
    (cadence filtered : list (Row IAS.kept_columns)) :
  IAS.process armt outflow master = Success cadence filtered ->
  forall r, In r cadence ->
  JSR r = jsr_flag
            (cell_or_not_found IAS.policy_name
               (lookup IAS.combined_class armt (Key r))).
Proof.
  intros Hrun r Hr.
  destruct (IAS_process_rows _ _ _ _ _ Hrun r Hr)
    as (node & r1 & r3 & _ & H1 & H3 & ->).
  destruct (fallback_keeps _ _ H3) as (HK & _ & HJ & _).
  unfold IAS.master_lookup_row in H1.
  destruct (previous_cadence _) as [cad|]; [|discriminate].
  destruct (previous_cadence _) as [cad2|]; [|discriminate].
  simpl in H1. injection H1 as <-.
  unfold finalize_row.
  destruct (eq_int _ 0); simpl; rewrite HK, HJ; reflexivity.
Qed.

(** ** Row order and the iteration order of the node set *)

Lemma for_rows_perm {A B : Type} (f : A -> option B) (l1 l2 : list A) :
  Permutation l1 l2 ->
  match for_rows f l1, for_rows f l2 with
  | Some a, Some b => Permutation a b
  | None, None => True
  | _, _ => False
  end.
Proof.
  induction 1 as [|x l l' _ IH|x y l|l l' l'' _ IH1 _ IH2]; simpl.
  - constructor.
  - destruct (f x); [|exact I].
    destruct (for_rows f l), (for_rows f l'); try assumption.
    now constructor.
  - destruct (f x), (f y), (for_rows f l); try exact I. constructor.
  - destruct (for_rows f l), (for_rows f l'), (for_rows f l'');
      try assumption; try contradiction.
    eapply perm_trans; eassumption.
Qed.

Lemma filter_perm {A : Type} (p : A -> bool) (l1 l2 : list A) :
  Permutation l1 l2 -> Permutation (filter p l1) (filter p l2).
Proof.
  induction 1 as [|x l l' _ IH|x y l|l l' l'' _ IH1 _ IH2]; simpl.
  - constructor.
  - destruct (p x); [now constructor | assumption].
  - destruct (p x), (p y); try reflexivity. constructor.
  - eapply perm_trans; eassumption.
Qed.

Lemma existsb_perm {A : Type} (p : A -> bool) (l1 l2 : list A) :
  Permutation l1 l2 -> existsb p l1 = existsb p l2.
Proof.
  induction 1 as [|x l l' _ IH|x y l|l l' l'' _ IH1 _ IH2]; simpl.
  - reflexivity.
  - now rewrite IH.
  - destruct (p x), (p y); reflexivity.
  - now rewrite IH1.
Qed.

(** [update_cadence_score] writes the score only: which rows the second
    loop cannot finish is settled before it. *)
Lemma stopped_update {R : Runtime} {X : Type} (Cadence : list (Row X)) :
  stopped (update_cadence_score Cadence) = stopped Cadence.
Proof.
  unfold stopped, update_cadence_score.
  replace (existsb exceeds_int64
             (map (fun r => set_Cadence_Score (updated_score r) r) Cadence))
    with (existsb exceeds_int64 Cadence); [reflexivity|].
  induction Cadence as [|r l IH]; simpl; [reflexivity|].
  now rewrite IH.
Qed.

(** Two outcomes with the same rows, up to the order of the rows. *)
Definition same_rows {A : Type} (o1 o2 : outcome A) : Prop :=
  match o1, o2 with
  | Success c1 f1, Success c2 f2 => Permutation c1 c2 /\ Permutation f1 f2
  | Failed w1, Failed w2 => w1 = w2
  | _, _ => False
  end.

Section Order.

Context {R : Runtime}.

(** [GDN.process] after [create_nodes], on a given list of nodes. *)
Definition gdn_run (nodes : list string) (armt : list GDN.armt_row)
    (outflow : list GDN.outflow_row) (master : GDN.master_table)
  : outcome (Row unit) :=
  if (List.length nodes =? 0)%nat then Failed NoValidNodes
  else
    match for_rows
            (fun node =>
               GDN.master_lookup_row master
                 (GDN.cadence_row armt (fst (GDN.process_outflow outflow))
                    (snd (GDN.process_outflow outflow)) node)) nodes with
    | None => Failed Raised
    | Some t1 =>
        match for_rows (fun r => fallback (dated (scored r))) t1 with
        | None => Failed (stopped t1)
        | Some t3 =>
            Success (map finalize_row t3)
              (filter (fun r => 0 <? Cadence_Score r) (map finalize_row t3))
        end
    end.

(** [IAS.process] after [create_nodes], on a given list of nodes. *)
Definition ias_run (nodes : list string) (armt : list IAS.armt_row)
    (outflow : list IAS.outflow_row) (master : IAS.master_table)
  : outcome (Row IAS.kept_columns) :=
  if (List.length nodes =? 0)%nat then Failed NoValidNodes
  else
    match for_rows
            (fun node =>
               IAS.master_lookup_row master
                 (IAS.cadence_row armt (fst (fst (IAS.process_outflow outflow)))
                    (snd (fst (IAS.process_outflow outflow)))
                    (snd (IAS.process_outflow outflow)) node)) nodes with
    | None => Failed Raised
    | Some t1 =>
        match for_rows (fun r => fallback (dated (scored (IAS.merge_row r)))) t1 with
        | None => Failed (stopped (map IAS.merge_row t1))
        | Some t3 =>
            let final := map (fun r => finalize_row (set_extra (fst (extra r)) r)) t3 in
            Success final (filter (fun r => 0 <? Cadence_Score r) final)
        end
    end.

Lemma gdn_run_perm (n1 n2 : list string) armt outflow master :
  Permutation n1 n2 ->
  same_rows (gdn_run n1 armt outflow master) (gdn_run n2 armt outflow master).
Proof.
  intros HP. unfold gdn_run.
  rewrite (Permutation_length HP).
  destruct (List.length n2 =? 0)%nat; [reflexivity|].
  pose proof (for_rows_perm
    (fun node =>
       GDN.master_lookup_row master
         (GDN.cadence_row armt (fst (GDN.process_outflow outflow))
            (snd (GDN.process_outflow outflow)) node)) _ _ HP) as H1.
  destruct (for_rows _ n1) as [a1|], (for_rows _ n2) as [a2|];
    try contradiction; [|reflexivity].
  pose proof (for_rows_perm (fun r => fallback (dated (scored r))) _ _ H1) as H3.
  destruct (for_rows _ a1) as [b1|], (for_rows _ a2) as [b2|];
    try contradiction.
  - simpl. split; [|apply filter_perm]; now apply Permutation_map.
  - simpl. unfold stopped. now rewrite (existsb_perm _ _ _ H1).
Qed.

Lemma ias_run_perm (n1 n2 : list string) armt outflow master :
  Permutation n1 n2 ->
  same_rows (ias_run n1 armt outflow master) (ias_run n2 armt outflow master).
Proof.
  intros HP. unfold ias_run.
  rewrite (Permutation_length HP).
  destruct (List.length n2 =? 0)%nat; [reflexivity|].
  pose proof (for_rows_perm
    (fun node =>
       IAS.master_lookup_row master
         (IAS.cadence_row armt (fst (fst (IAS.process_outflow outflow)))
            (snd (fst (IAS.process_outflow outflow)))
            (snd (IAS.process_outflow outflow)) node)) _ _ HP) as H1.
  destruct (for_rows _ n1) as [a1|], (for_rows _ n2) as [a2|];
    try contradiction; [|reflexivity].
  pose proof (for_rows_perm
    (fun r => fallback (dated (scored (IAS.merge_row r)))) _ _ H1) as H3.
  destruct (for_rows _ a1) as [b1|], (for_rows _ a2) as [b2|];
    try contradiction.
  - simpl. split; [|apply filter_perm]; now apply Permutation_map.
  - simpl. unfold stopped.
    now rewrite (existsb_perm _ _ _ (Permutation_map IAS.merge_row H1)).
Qed.

Lemma for_rows_ext {A B : Type} (f g : A -> option B) (l : list A) :
  (forall a, f a = g a) -> for_rows f l = for_rows g l.
Proof.
  intros H. induction l as [|x l IH]; simpl; [reflexivity|].
  now rewrite H, IH.
Qed.

(** The stages do not look at the iteration order of sets. *)
Lemma updated_score_order {X : Type} (order : list string -> list string)
    (r : Row X) :
  updated_score (R := with_set_order R order) r = updated_score r.
Proof.
  unfold updated_score.
  change (@safe_to_numeric (with_set_order R order)) with (@safe_to_numeric R).
  reflexivity.
Qed.

Lemma last_stages_order {X : Type} (order : list string -> list string)
    (r : Row X) :
  fallback (R := with_set_order R order)
    (dated (R := with_set_order R order)
       (scored (R := with_set_order R order) r))
  = fallback (dated (scored r)).
Proof.
  unfold scored. rewrite updated_score_order. reflexivity.
Qed.

Lemma GDN_process_run (order : list string -> list string) armt outflow master :
  GDN.process (R := with_set_order R order) armt outflow master
  = gdn_run (order (GDN.added_nodes armt)) armt outflow master.
Proof.
  unfold GDN.process, gdn_run, GDN.create_nodes.
  destruct (GDN.process_outflow (R := with_set_order R order) outflow)
    as [out out1] eqn:E.
  change (GDN.process_outflow (R := with_set_order R order) outflow)
    with (GDN.process_outflow outflow) in E.
  rewrite E. simpl list_of_set. simpl fst. simpl snd.
  destruct (List.length _ =? 0)%nat; [reflexivity|].
  unfold GDN.apply_master_lookups, GDN.create_cadence.
  rewrite for_rows_map.
  change (fun a => GDN.master_lookup_row (R := with_set_order R order) master
                     (GDN.cadence_row (R := with_set_order R order) armt out out1 a))
    with (fun a => GDN.master_lookup_row master (GDN.cadence_row armt out out1 a)).
  destruct (for_rows _ _) as [t1|]; [|reflexivity].
  rewrite update_then_due_rows.
  rewrite (for_rows_ext _ _ t1 (last_stages_order order)).
  destruct (for_rows _ t1) as [t3|]; [reflexivity|].
  rewrite (stopped_update (R := with_set_order R order)). reflexivity.
Qed.

Lemma IAS_process_run (order : list string -> list string) armt outflow master :
  IAS.process (R := with_set_order R order) armt outflow master
  = ias_run (order (IAS.added_nodes armt)) armt outflow master.
Proof.
  unfold IAS.process, ias_run, IAS.create_nodes.
  destruct (IAS.process_outflow (R := with_set_order R order) outflow)
    as [[out out1] out2] eqn:E.
  change (IAS.process_outflow (R := with_set_order R order) outflow)
    with (IAS.process_outflow outflow) in E.
  rewrite E. simpl list_of_set. simpl fst. simpl snd.
  destruct (List.length _ =? 0)%nat; [reflexivity|].
  unfold IAS.apply_master_lookups, IAS.create_cadence.
  rewrite for_rows_map.
  change (fun a => IAS.master_lookup_row (R := with_set_order R order) master
                     (IAS.cadence_row (R := with_set_order R order) armt out out1 out2 a))
    with (fun a => IAS.master_lookup_row master (IAS.cadence_row armt out out1 out2 a)).
  destruct (for_rows _ _) as [t1|]; [|reflexivity].
  rewrite update_then_due_rows. unfold IAS.merge_columns.
  rewrite for_rows_map.
  rewrite (for_rows_ext _ _ t1
             (fun r => last_stages_order order (IAS.merge_row r))).
  destruct (for_rows _ t1) as [t3|]; [reflexivity|].
  rewrite (stopped_update (R := with_set_order R order)). reflexivity.
Qed.

End Order.

(** C9, as the code has it. Determinism up to the order of the node set:
    two runs of [process] on the same ARMT, Outflow and Master tables, in
    interpreters that only differ in the iteration order of sets, both fail
    for the same reason or both return Cadence tables with the same rows and
    values, the rows in the order [list(nodes)] gave; when [list(nodes)]
    gives the same order the two results are identical. *)
Theorem C9_deterministic_up_to_set_order
    {R : Runtime} (order1 order2 : list string -> list string) :
  lists_sets (with_set_order R order1) ->
  lists_sets (with_set_order R order2) ->
  (forall (armt : list IAS.armt_row) outflow master,
      same_rows (IAS.process (R := with_set_order R order1) armt outflow master)
                (IAS.process (R := with_set_order R order2) armt outflow master)
      /\ (order1 (IAS.added_nodes armt) = order2 (IAS.added_nodes armt) ->
          IAS.process (R := with_set_order R order1) armt outflow master
          = IAS.process (R := with_set_order R order2) armt outflow master))
  /\
  (forall (armt : list GDN.armt_row) outflow master,
      same_rows (GDN.process (R := with_set_order R order1) armt outflow master)
                (GDN.process (R := with_set_order R order2) armt outflow master)
      /\ (order1 (GDN.added_nodes armt) = order2 (GDN.added_nodes armt) ->
          GDN.process (R := with_set_order R order1) armt outflow master
          = GDN.process (R := with_set_order R order2) armt outflow master)).
Proof.
  intros H1 H2.
  split; intros armt outflow master.
  - rewrite !IAS_process_run. split.
    + apply ias_run_perm.
      eapply perm_trans; [apply (H1 (IAS.added_nodes armt))|].
      symmetry. apply (H2 (IAS.added_nodes armt)).
    + now intros ->.
  - rewrite !GDN_process_run. split.
    + apply gdn_run_perm.
      eapply perm_trans; [apply (H1 (GDN.added_nodes armt))|].
      symmetry. apply (H2 (GDN.added_nodes armt)).
    + now intros ->.
Qed.

Lemma insertion_order_lists (l : list string) :
  Permutation (Reference.insertion_order l) (nodup string_dec l).
Proof.
  unfold Reference.insertion_order. apply NoDup_Permutation.
  - apply NoDup_rev, NoDup_nodup.
  - apply NoDup_nodup.
  - intros x. rewrite <- in_rev, !nodup_In, <- in_rev. reflexivity.
Qed.

Lemma reverse_order_lists (l : list string) :
  Permutation (Reference.reverse_order l) (nodup string_dec l).
Proof.
  unfold Reference.reverse_order. apply NoDup_Permutation.
  - apply NoDup_nodup.
  - apply NoDup_nodup.
  - intros x. rewrite !nodup_In, <- in_rev. reflexivity.
Qed.

Lemma reference_lists_sets : lists_sets reference_runtime.
Proof. exact insertion_order_lists. Qed.

Lemma reversed_lists_sets : lists_sets reversed_runtime.
Proof. exact reverse_order_lists. Qed.

(** A GDN run with two nodes. *)
Definition two_nodes_armt : list GDN.armt_row :=
  [GDN.mk_armt "Cables" "Electronics" "Policy A" "AmazonGlobal" "DE" "Any"
     (CNum (of_int 2));
   GDN.mk_armt "Plugs" "Electronics" "Policy B" "AmazonGlobal" "DE" "Any"
     (CNum (of_int 3))].

(** C9 as stated fails: both iteration orders list the set, and the two
    runs return the rows Cables, Plugs and Plugs, Cables. *)
Lemma C9_counterexample :
  exists t1 f1 t2 f2,
    lists_sets reference_runtime /\ lists_sets reversed_runtime
    /\ GDN.process (R := reference_runtime) two_nodes_armt []
         (GDN.mk_master_table true []) = Success t1 f1
    /\ GDN.process (R := reversed_runtime) two_nodes_armt []
         (GDN.mk_master_table true []) = Success t2 f2
    /\ map Key t1 = ["Cables"; "Plugs"]
    /\ map Key t2 = ["Plugs"; "Cables"]
    /\ t1 <> t2.
Proof.
  eexists _, _, _, _.
  split; [exact reference_lists_sets|].
  split; [exact reversed_lists_sets|].
  split; [vm_compute; reflexivity|].
  split; [vm_compute; reflexivity|].
  split; [reflexivity|]. split; [reflexivity|]. discriminate.
Qed.

Lemma C9_witness :
  same_rows
    (GDN.process
       (R := with_set_order reference_runtime Reference.insertion_order)
       two_nodes_armt [] (GDN.mk_master_table true []))
    (GDN.process
       (R := with_set_order reference_runtime Reference.reverse_order)
       two_nodes_armt [] (GDN.mk_master_table true [])).
Proof.
  apply (proj2 (C9_deterministic_up_to_set_order (R := reference_runtime)
                  Reference.insertion_order Reference.reverse_order
                  insertion_order_lists reverse_order_lists)
           two_nodes_armt [] (GDN.mk_master_table true [])).
Defined.

(** ** Dates *)

Lemma date_leb_refl (d : date) : date_leb d d = true.
Proof.
  unfold date_leb. rewrite !Z.eqb_refl, Z.leb_refl. simpl.
  now rewrite !orb_true_r.
Qed.

Lemma date_leb_spec (a b : date) :
  date_leb a b = true <->
  year a < year b \/
  (year a = year b /\ (month a < month b \/ (month a = month b /\ day a <= day b))).
Proof.
  unfold date_leb.
  rewrite !orb_true_iff, !andb_true_iff, !orb_true_iff, !andb_true_iff.
  rewrite !Z.ltb_lt, !Z.eqb_eq, Z.leb_le. reflexivity.
Qed.

Lemma date_leb_trans (a b c : date) :
  date_leb a b = true -> date_leb b c = true -> date_leb a c = true.
Proof. rewrite !date_leb_spec. lia. Qed.

Lemma next_day_later (d : date) : date_leb d (next_day d) = true.
Proof.
  rewrite date_leb_spec. unfold next_day.
  destruct (day d <? days_in_month (year d) (month d)); simpl; [lia|].
  destruct (month d <? 12) eqn:E; simpl; [|lia].
  apply Z.ltb_lt in E. lia.
Qed.

Lemma iter_next_day_later (n : nat) (d : date) :
  date_leb d (Nat.iter n next_day d) = true.
Proof.
  induction n as [|n IH]; simpl.
  - apply date_leb_refl.
  - eapply date_leb_trans; [exact IH | apply next_day_later].
Qed.

(** Moving a date forward never brings it back. *)
Lemma add_days_later (d : date) (k : Z) :
  0 <= k -> date_leb d (add_days d k) = true.
Proof.
  intros Hk. unfold add_days.
  destruct (Z.leb_spec 0 k); [|lia]. apply iter_next_day_later.
Qed.

(** The offsets of the code are positive. *)
Lemma due_days_positive (nc : pyfloat) (cad k : Z) :
  due_days nc cad = Some k -> 0 < k.
Proof.
  unfold due_days.
  repeat match goal with
    | |- context [if ?b then _ else _] => destruct b
    end; intros H; try discriminate; injection H as <-; lia.
Qed.

(** ** Sorting *)

Lemma insert_desc_perm {A : Type} (key : A -> string) (x : A) (l : list A) :
  Permutation (insert_desc key x l) (x :: l).
Proof.
  induction l as [|y l IH]; simpl; [reflexivity|].
  destruct (Text.le (key y) (key x)); [reflexivity|].
  rewrite IH. apply perm_swap.
Qed.

Lemma sort_desc_perm {A : Type} (key : A -> string) (l : list A) :
  Permutation (sort_desc key l) l.
Proof.
  induction l as [|x l IH]; simpl; [reflexivity|].
  rewrite insert_desc_perm. now constructor.
Qed.

Lemma sort_desc_In {A : Type} (key : A -> string) (l : list A) (x : A) :
  In x (sort_desc key l) <-> In x l.
Proof.
  split; apply Permutation_in; [|symmetry]; apply sort_desc_perm.
Qed.

(** ** Due date and resolved date *)

Section Ordering.

Context {R : Runtime}.

(** The text of a Resolved Date column: the sentinel or a date written by
    [strftime]. *)
Definition resolved_text (s : string) : Prop :=
  s = NOT_FOUND \/ exists d, wf_date d = true /\ s = strftime d.

(** What [create_cadence] and the joins guarantee of a row before the last
    stages: its Resolved Date is such a text. *)
Definition joined {X : Type} (r : Row X) : Prop :=
  resolved_text (Resolved_Date r).

Lemma date_to_string_text_cases (s : string) :
  date_to_string (CText s) = NOT_FOUND \/
  (date_to_string (CText s) = s /\ is_not_found (CText s) = false).
Proof.
  unfold date_to_string.
  destruct (is_not_found (CText s)); [now left|].
  destruct (Text.mem _ _); [now left | now right].
Qed.

Lemma date_to_string_date (d : option date) :
  (forall t, d = Some t -> wf_date t = true) ->
  resolved_text (date_to_string (CText (date_to_string (cell_of_date d)))).
Proof.
  intros Hwf.
  destruct (date_to_string_text_cases (date_to_string (cell_of_date d)))
    as [E | [E _]]; rewrite E; [now left|].
  destruct d as [t|]; simpl.
  - right. exists t. split; [now apply Hwf | reflexivity].
  - now left.
Qed.

Lemma merged_resolved_text (p s : string) :
  resolved_text p -> resolved_text s -> resolved_text (IAS.merged p s).
Proof. unfold IAS.merged. now destruct (is_not_found p). Qed.

Lemma finalize_row_resolved {X : Type} (r : Row X) :
  Resolved_Date (finalize_row r) = Resolved_Date r.
Proof. unfold finalize_row. now destruct (eq_int (risk_score r) 0). Qed.

Lemma finalize_row_nc {X : Type} (r : Row X) :
  NC_Count (finalize_row r) = NC_Count r.
Proof. unfold finalize_row. now destruct (eq_int (risk_score r) 0). Qed.

(** From a joined row to the finalized one: with an NC Count, a due date
    that is present lies on or after the resolved date. *)
Lemma due_on_or_after_resolved {X : Type} (r r3 : Row X) :
  reads_dates R ->
  joined r ->
  fallback (dated (scored r)) = Some r3 ->
  is_not_found (NC_Count r3) = false ->
  Due_Date (finalize_row r3) <> NOT_FOUND ->
  Resolved_Date r3 <> NOT_FOUND ->
  exists d k,
    wf_date d = true /\ 0 < k /\
    Resolved_Date r3 = strftime d /\
    Due_Date (finalize_row r3) = strftime (add_days d k) /\
    date_leb d (add_days d k) = true.
Proof.
  intros Hreads Htext Hf Enc Hdue Hres. unfold joined in Htext.
  destruct (fallback_keeps _ _ Hf) as (_ & _ & _ & _ & HR & HN & _).
  change (Resolved_Date (dated (scored r))) with (Resolved_Date r) in HR.
  change (NC_Count (dated (scored r))) with (NC_Count r) in HN.
  rewrite HR in Hres |- *. rewrite HN in Enc.
  rewrite (fallback_known_nc (dated (scored r)) Enc) in Hf.
  injection Hf as <-.
  rewrite finalize_row_due in Hdue |- *.
  change (Due_Date (dated (scored r)))
    with (computed_due_date (set_Due_Date NOT_FOUND (scored r))) in Hdue |- *.
  destruct (date_to_string_text_cases
              (computed_due_date (set_Due_Date NOT_FOUND (scored r))))
    as [E | [E _]]; [contradiction|].
  rewrite E in Hdue |- *. clear E.
  unfold computed_due_date in Hdue |- *.
  change (Resolved_Date (set_Due_Date NOT_FOUND (scored r)))
    with (Resolved_Date r) in Hdue |- *.
  destruct (negb _ || is_not_found (CText (Resolved_Date r))) eqn:E1;
    [contradiction|].
  apply orb_false_iff in E1. destruct E1 as [_ Efound].
  destruct (due_days _ _) as [k|] eqn:Ek; [|contradiction].
  unfold add_days_to_date in Hdue |- *. rewrite Efound in Hdue |- *.
  destruct (to_datetime (Resolved_Date r)) as [d'|] eqn:Ed; [|contradiction].
  unfold timestamp_add in Hdue |- *.
  destruct (in_range (add_days d' k)); [|contradiction].
  destruct Htext as [E | [d [Hwf E]]]; [contradiction|].
  rewrite E in Ed. pose proof (Hreads d d' Hwf Ed) as ->.
  pose proof (due_days_positive _ _ _ Ek) as Hk.
  exists d, k. repeat split; try assumption.
  apply add_days_later. lia.
Qed.

(** GDN: the rows entering the last stages are joined. *)
Lemma GDN_row_joined (armt : list GDN.armt_row) (outflow : list GDN.outflow_row)
    (master : GDN.master_table) (node : string) (r1 : Row unit) :
  (forall o d, In o outflow -> GDN.resolved o = Some d -> wf_date d = true) ->
  GDN.master_lookup_row master
    (GDN.cadence_row armt (fst (GDN.process_outflow outflow))
       (snd (GDN.process_outflow outflow)) node) = Some r1 ->
  joined r1.
Proof.
  intros Hwf H1.
  unfold GDN.master_lookup_row in H1.
  destruct (previous_cadence _) as [cad|]; [|discriminate].
  injection H1 as <-. unfold joined. simpl.
  unfold GDN.process_outflow. simpl.
  set (sorted := sort_desc snd _).
  set (out := map _ sorted).
  destruct (lookup GDN.n_child_class out node) as [o|] eqn:L; [|now left].
  simpl. apply lookup_Some in L. destruct L as [Hin _].
  apply in_map_iff in Hin. destruct Hin as [[raw s] [<- Hin]].
  apply sort_desc_In in Hin. apply in_map_iff in Hin.
  destruct Hin as [raw' [E Hraw]]. injection E as -> <-. simpl.
  apply date_to_string_date. intros t Ht. eapply Hwf; eassumption.
Qed.

(** IAS: the rows entering the last stages, after [merge_columns], are
    joined. *)
Lemma IAS_row_joined (armt : list IAS.armt_row) (outflow : list IAS.outflow_row)
    (master : IAS.master_table) (node : string) (r1 : Row IAS.working_columns) :
  (forall o d, In o outflow -> IAS.resolved o = Some d -> wf_date d = true) ->
  IAS.master_lookup_row master
    (IAS.cadence_row armt (fst (fst (IAS.process_outflow outflow)))
       (snd (fst (IAS.process_outflow outflow)))
       (snd (IAS.process_outflow outflow)) node) = Some r1 ->
  joined (IAS.merge_row r1).
Proof.
  intros Hwf H1.
  unfold IAS.master_lookup_row in H1.
  destruct (previous_cadence _) as [cad|]; [|discriminate].
  destruct (previous_cadence _) as [cad2|]; [|discriminate].
  simpl in H1. injection H1 as <-. unfold joined. simpl.
  unfold IAS.process_outflow. simpl.
  set (out := sort_desc IAS.n_Resolved_date _).
  assert (Hout : forall o, In o out ->
            resolved_text (date_to_string (CText (IAS.n_Resolved_date o)))).
  { intros o Hin. apply sort_desc_In in Hin. apply in_map_iff in Hin.
    destruct Hin as [raw [<- Hraw]]. simpl.
    apply date_to_string_date. intros t Ht. eapply Hwf; eassumption. }
  assert (Hlook : forall key, resolved_text
            (text_or_not_found
               (fun r => date_to_string (CText (IAS.n_Resolved_date r)))
               (lookup key out node))).
  { intros key. destruct (lookup key out node) as [o|] eqn:L; [|now left].
    apply lookup_Some in L. simpl. apply Hout, L. }
  apply merged_resolved_text; apply Hlook.
Qed.

(** C6, as the code has it. Due-date ordering: in the Cadence table of a
    successful run of IAS or GDN, a row that has an NC Count and whose Due
    Date and Resolved Date are both present has a Due Date that is its
    Resolved Date moved forward by a positive number of days, so it is on or
    after the Resolved Date.  A row without NC Count takes its Due Date from
    the Previous Due Date of the master table, whatever its Resolved Date. *)
Theorem C6_due_date_not_before_resolved :
  reads_dates R ->
  (forall (armt : list IAS.armt_row) outflow master cadence filtered,
      (forall o d, In o outflow -> IAS.resolved o = Some d -> wf_date d = true) ->
      IAS.process armt outflow master = Success cadence filtered ->
      forall r, In r cadence ->
        is_not_found (NC_Count r) = false ->
        Due_Date r <> NOT_FOUND -> Resolved_Date r <> NOT_FOUND ->
        exists d k,
          wf_date d = true /\ 0 < k /\
          Resolved_Date r = strftime d /\
          Due_Date r = strftime (add_days d k) /\
          date_leb d (add_days d k) = true)
  /\
  (forall (armt : list GDN.armt_row) outflow master cadence filtered,
      (forall o d, In o outflow -> GDN.resolved o = Some d -> wf_date d = true) ->
      GDN.process armt outflow master = Success cadence filtered ->
      forall r, In r cadence ->
        is_not_found (NC_Count r) = false ->
        Due_Date r <> NOT_FOUND -> Resolved_Date r <> NOT_FOUND ->
        exists d k,
          wf_date d = true /\ 0 < k /\
          Resolved_Date r = strftime d /\
          Due_Date r = strftime (add_days d k) /\
          date_leb d (add_days d k) = true).
Proof.
  intros Hreads.
  split; intros armt outflow master cadence filtered Hwf Hrun r Hr Hnc Hdue Hres.
  - destruct (IAS_process_rows _ _ _ _ _ Hrun r Hr)
      as (node & r1 & r3 & _ & H1 & H3 & ->).
    pose proof (IAS_row_joined _ _ _ _ _ Hwf H1) as Hj.
    assert (Ed : Due_Date (finalize_row (set_extra (fst (extra r3)) r3))
                 = Due_Date (finalize_row r3))
      by (rewrite !finalize_row_due; reflexivity).
    rewrite finalize_row_resolved in Hres |- *.
    rewrite finalize_row_nc in Hnc.
    rewrite Ed in Hdue |- *.
    exact (due_on_or_after_resolved _ _ Hreads Hj H3 Hnc Hdue Hres).
  - destruct (GDN_process_rows _ _ _ _ _ Hrun r Hr)
      as (node & r1 & r3 & _ & H1 & H3 & ->).
    pose proof (GDN_row_joined _ _ _ _ _ Hwf H1) as Hj.
    rewrite finalize_row_resolved in Hres |- *.
    rewrite finalize_row_nc in Hnc.
    exact (due_on_or_after_resolved _ _ Hreads Hj H3 Hnc Hdue Hres).
Qed.

End Ordering.

(** ** The reference runtime meets what the properties ask *)

(** A string that starts with a character that is no blank and no letter N. *)
Definition plain_head (s : string) : bool :=
  match s with
  | EmptyString => false
  | String c _ =>
      negb (Text.is_space c) && negb (Ascii.eqb (Text.lower_ascii c) "n")
  end.

Lemma rstrip_head (c : ascii) (t : string) :
  Text.is_space c = false -> exists u, Text.rstrip (String c t) = String c u.
Proof.
  intros H. simpl. destruct (Text.rstrip t); [rewrite H|]; eexists; reflexivity.
Qed.

Lemma plain_head_found (s : string) :
  plain_head s = true -> is_not_found (CText s) = false.
Proof.
  destruct s as [|c t]; [discriminate|]. simpl. intros H.
  apply andb_true_iff in H. destruct H as [Hs Hn].
  apply negb_true_iff in Hs, Hn.
  unfold is_not_found. simpl. unfold Text.strip.
  destruct (rstrip_head c t Hs) as [u ->]. simpl. rewrite Hs. simpl.
  unfold Text.mem. simpl. rewrite Hn. reflexivity.
Qed.

Lemma plain_head_app (s t : string) :
  plain_head s = true -> plain_head (s ++ t) = true.
Proof. destruct s; [discriminate | trivial]. Qed.

Lemma digit_cases (n : Z) :
  exists m, 0 <= m < 10 /\ n mod 10 = m /\ digit n = ascii_of_N (Z.to_N (48 + m)).
Proof.
  exists (n mod 10). split; [apply Z.mod_pos_bound; lia|]. split; reflexivity.
Qed.

Ltac digit_by_cases n :=
  let m := fresh "m" in
  let Hm := fresh "Hm" in
  let Em := fresh "Em" in
  let Ed := fresh "Ed" in
  let Hc := fresh "Hc" in
  destruct (digit_cases n) as (m & Hm & Em & Ed);
  assert (m = 0 \/ m = 1 \/ m = 2 \/ m = 3 \/ m = 4 \/ m = 5 \/ m = 6 \/ m = 7
          \/ m = 8 \/ m = 9) as Hc by lia;
  clear Hm;
  repeat destruct Hc as [Hc|Hc];
  rewrite Hc in Em, Ed; clear Hc; rewrite ?Em, Ed.

Lemma digit_plain (n : Z) (t : string) : plain_head (String (digit n) t) = true.
Proof. digit_by_cases n; reflexivity. Qed.

Lemma digits_fuel_plain (fuel : nat) (n : Z) (acc : string) :
  plain_head acc = true \/ fuel <> O ->
  plain_head (digits_fuel fuel n acc) = true.
Proof.
  revert n acc. induction fuel as [|f IH]; intros n acc H; simpl.
  - destruct H as [H|H]; [exact H | congruence].
  - destruct (n <? 10); [apply digit_plain|].
    apply IH. left. apply digit_plain.
Qed.

Lemma str_int_plain (z : Z) : plain_head (str_int z) = true.
Proof.
  unfold str_int. destruct (z <? 0); [reflexivity|].
  apply digits_fuel_plain. right. discriminate.
Qed.

Lemma layout_plain (ds : string) (decpt : Z) :
  plain_head ds = true -> plain_head (Reference.layout ds decpt) = true.
Proof.
  intros H. unfold Reference.layout. cbv zeta.
  destruct ((decpt <=? -4) || (16 <? decpt)).
  - destruct ds as [|c t]; [discriminate|]. exact H.
  - destruct (Z.leb_spec decpt 0) as [L|L]; [reflexivity|].
    destruct (Z.of_nat (String.length ds) <=? decpt).
    + now apply plain_head_app.
    + destruct (Z.to_nat decpt) as [|n] eqn:E; [lia|].
      destruct ds as [|c t]; [discriminate|]. exact H.
Qed.

Lemma digits_of_plain (n d : Z) :
  plain_head (fst (Reference.digits_of n d)) = true.
Proof.
  unfold Reference.digits_of. cbv zeta.
  destruct (Reference.shortest_digits _ _ _ _ _) as [m k].
  destruct (m =? 10 ^ k); [reflexivity | apply str_int_plain].
Qed.

Lemma reference_prints_floats : prints_floats reference_runtime.
Proof.
  intros [| |q|] H; [discriminate | reflexivity | | reflexivity].
  apply plain_head_found.
  change (py_str_float (Fin q)) with (Reference.string_of_float (Fin q)).
  unfold Reference.string_of_float. cbv zeta.
  destruct (Z.abs (Qnum q) =? 0); [reflexivity|].
  pose proof (digits_of_plain (Z.abs (Qnum q)) (Z.pos (Qden q))) as P.
  destruct (Reference.digits_of _ _) as [ds decpt]. simpl in P.
  destruct (Qnum q <? 0); [reflexivity|].
  now apply layout_plain.
Qed.

Lemma digit_val_digit (n : Z) : Reference.digit_val (digit n) = Some (n mod 10).
Proof. digit_by_cases n; reflexivity. Qed.

Lemma days_in_month_le_31 (y m : Z) : days_in_month y m <= 31.
Proof.
  unfold days_in_month.
  repeat match goal with |- context [if ?b then _ else _] => destruct b end; lia.
Qed.

Lemma digits_value_pad4 (y : Z) :
  0 <= y < 10000 ->
  Reference.digits_value
    (String (digit (y / 100 / 10))
       (String (digit (y / 100)) (String (digit (y / 10)) (String (digit y) ""))))
    0 0
  = Some (y, 4%nat).
Proof.
  intros Hy. cbn [Reference.digits_value].
  rewrite !digit_val_digit. do 2 f_equal.
  Z.div_mod_to_equations. lia.
Qed.

Lemma digits_value_pad2 (m : Z) :
  0 <= m < 100 ->
  Reference.digits_value (String (digit (m / 10)) (String (digit m) "")) 0 0
  = Some (m, 2%nat).
Proof.
  intros Hm. cbn [Reference.digits_value].
  rewrite !digit_val_digit. do 2 f_equal.
  Z.div_mod_to_equations. lia.
Qed.

Lemma wf_date_bounds (d : date) :
  wf_date d = true ->
  1677 <= year d <= 2262 /\ 1 <= month d <= 12 /\ 1 <= day d <= 31.
Proof.
  unfold wf_date, valid_date. intros Hwf.
  repeat (apply andb_true_iff in Hwf; destruct Hwf as [Hwf ?]).
  repeat match goal with H : (_ <=? _) = true |- _ => apply Z.leb_le in H end.
  pose proof (days_in_month_le_31 (year d) (month d)). lia.
Qed.

Lemma reference_reads_dates : reads_dates reference_runtime.
Proof.
  intros d d' Hwf. apply wf_date_bounds in Hwf. destruct d as [y m dd].
  simpl in Hwf.
  unfold to_datetime, reference_runtime, strftime, pad4, pad2.
  cbn [year month day Reference.parse_iso_date].
  rewrite digits_value_pad4 by lia.
  rewrite !digits_value_pad2 by lia.
  destruct (valid_date _ && in_range _); [|discriminate].
  intros E. now injection E as <-.
Qed.

(** C6 on a GDN run: one node, resolved on 2024-01-05 with NC 3 and risk 2,
    so the score is 60 and the due date 60 days later. *)
Definition dated_armt : list GDN.armt_row :=
  [GDN.mk_armt "Cables" "Electronics" "Policy" "AmazonGlobal" "DE" "Any"
     (CNum (of_int 2))].

Definition dated_outflow : list GDN.outflow_row :=
  [GDN.mk_outflow "Cables" "Electronics" (Some (mkdate 2024 1 5)) (of_int 3) 0].

Lemma C6_witness :
  exists cadence filtered r,
    GDN.process (R := reference_runtime) dated_armt dated_outflow
      (GDN.mk_master_table true []) = Success cadence filtered
    /\ In r cadence
    /\ NC_Count r = "3.0"
    /\ Resolved_Date r = "2024-01-05"
    /\ Due_Date r = "2024-03-05"
    /\ exists d k,
         wf_date d = true /\ 0 < k /\
         Resolved_Date r = strftime d /\
         Due_Date r = strftime (add_days d k) /\
         date_leb d (add_days d k) = true.
Proof.
  eexists _, _, _.
  split; [vm_compute; reflexivity|].
  split; [left; reflexivity|].
  split; [reflexivity|].
  split; [reflexivity|]. split; [reflexivity|].
  eapply (proj2 (C6_due_date_not_before_resolved (R := reference_runtime)
                   reference_reads_dates)
            dated_armt dated_outflow (GDN.mk_master_table true [])).
  - intros o d [<-|[]] E. injection E as <-. reflexivity.
  - vm_compute. reflexivity.
  - left. reflexivity.
  - reflexivity.
  - discriminate.
  - discriminate.
Defined.

(** The claim as the spec words it fails: two outflow rows of the node
    Cables, resolved on 2024-01-05, with the quantities inf and -inf.  Their
    sum is NaN, NC Count is 'not Found!', and the fallback writes the
    Previous Due Date 2023-12-01 of the master table beside the Resolved
    Date 2024-01-05. *)
Definition cancelling_outflow : list GDN.outflow_row :=
  [GDN.mk_outflow "Cables" "Electronics" (Some (mkdate 2024 1 5)) PosInf 0;
   GDN.mk_outflow "Cables" "Electronics" (Some (mkdate 2024 1 5)) NegInf 0].

Definition earlier_master : GDN.master_table :=
  GDN.mk_master_table true
    [GDN.mk_master "Cables" (CNum (of_int 60)) (CText "2023-12-01")
       (CNum (of_int 4))].

(** The same on an IAS run, for the AmazonGlobal node of Cables from FR. *)
Definition ias_cancelling_outflow : list IAS.outflow_row :=
  [IAS.mk_outflow "Cables" "Electronics" (Some (mkdate 2024 1 5)) "Defect"
     "FR-UK" PosInf 0;
   IAS.mk_outflow "Cables" "Electronics" (Some (mkdate 2024 1 5)) "Defect"
     "FR-UK" NegInf 0].

Definition ias_earlier_master : IAS.master_table :=
  IAS.mk_master_table true
    [IAS.mk_master (CText "Electronics") (CText "Cables") (CText "FR")
       (CText "FR-Any") (CNum (of_int 60)) (CText "2023-12-01")
       (CNum (of_int 4))].

Lemma C6_counterexample :
  (exists cadence filtered r,
     IAS.process (R := reference_runtime) in_domain_armt ias_cancelling_outflow
       ias_earlier_master = Success cadence filtered
     /\ In r cadence
     /\ NC_Count r = NOT_FOUND
     /\ Resolved_Date r = strftime (mkdate 2024 1 5)
     /\ Due_Date r = strftime (mkdate 2023 12 1)
     /\ Due_Date r <> NOT_FOUND
     /\ Resolved_Date r <> NOT_FOUND
     /\ date_leb (mkdate 2024 1 5) (mkdate 2023 12 1) = false)
  /\
  (exists cadence filtered r,
     GDN.process (R := reference_runtime) dated_armt cancelling_outflow
       earlier_master = Success cadence filtered
     /\ In r cadence
     /\ NC_Count r = NOT_FOUND
     /\ Resolved_Date r = strftime (mkdate 2024 1 5)
     /\ Due_Date r = strftime (mkdate 2023 12 1)
     /\ Due_Date r <> NOT_FOUND
     /\ Resolved_Date r <> NOT_FOUND
     /\ date_leb (mkdate 2024 1 5) (mkdate 2023 12 1) = false).
Proof.
  split; eexists _, _, _;
    (split; [vm_compute; reflexivity|]);
    (split; [left; reflexivity|]);
    (split; [reflexivity|]); (split; [reflexivity|]); (split; [reflexivity|]);
    (split; [discriminate|]); (split; [discriminate|]); reflexivity.
Qed.

(** ** The order of strings and the order of dates *)

Lemma compare_not_Gt_trans (a b c : string) :
  String.compare a b <> Gt -> String.compare b c <> Gt ->
  String.compare a c <> Gt.
Proof.
  revert b c. induction a as [|x a IH]; intros [|y b] [|z c]; simpl;
    try congruence.
  unfold Ascii.compare.
  destruct (N.compare_spec (N_of_ascii x) (N_of_ascii y)) as [E1|E1|E1],
           (N.compare_spec (N_of_ascii y) (N_of_ascii z)) as [E2|E2|E2],
           (N.compare_spec (N_of_ascii x) (N_of_ascii z)) as [E3|E3|E3];
    try congruence; try lia.
  apply IH.
Qed.

Lemma leb_not_Gt (a b : string) : Text.le a b = true <-> String.compare a b <> Gt.
Proof.
  unfold Text.le, String.leb.
  destruct (String.compare a b); split; congruence.
Qed.

Lemma le_trans (a b c : string) :
  Text.le a b = true -> Text.le b c = true -> Text.le a c = true.
Proof. rewrite !leb_not_Gt. apply compare_not_Gt_trans. Qed.

Lemma le_refl (a : string) : Text.le a a = true.
Proof.
  apply leb_not_Gt. assert (E : String.compare a a = Eq); [|congruence].
  induction a as [|x a IH]; simpl; [reflexivity|].
  unfold Ascii.compare. now rewrite N.compare_refl.
Qed.

Lemma le_total (a b : string) : Text.le a b = false -> Text.le b a = true.
Proof.
  intros H. destruct (String.leb_total a b) as [E|E]; [|exact E].
  unfold Text.le in H. congruence.
Qed.

(** [sort_desc] sorts: each row is followed by rows of smaller or equal
    key. *)
Definition sorted_desc {A : Type} (key : A -> string) (l : list A) : Prop :=
  StronglySorted (fun a b => Text.le (key b) (key a) = true) l.

Lemma insert_desc_sorted {A : Type} (key : A -> string) (x : A) (l : list A) :
  sorted_desc key l -> sorted_desc key (insert_desc key x l).
Proof.
  unfold sorted_desc. induction 1 as [|y l Hs IH Hy]; simpl.
  - constructor; constructor.
  - destruct (Text.le (key y) (key x)) eqn:E.
    + constructor; [now constructor|].
      constructor; [exact E|].
      eapply Forall_impl; [|exact Hy]. simpl. intros z Hz.
      eapply le_trans; eassumption.
    + constructor; [exact IH|].
      apply Forall_forall. intros z Hz.
      apply (Permutation_in _ (insert_desc_perm key x l)) in Hz.
      destruct Hz as [<-|Hz]; [now apply le_total|].
      rewrite Forall_forall in Hy. now apply Hy.
Qed.

Lemma sort_desc_sorted {A : Type} (key : A -> string) (l : list A) :
  sorted_desc key (sort_desc key l).
Proof.
  induction l as [|x l IH]; simpl; [constructor|].
  now apply insert_desc_sorted.
Qed.

(** In a sorted table the first row with a property has the greatest key
    among the rows with the property. *)
Lemma find_sorted_greatest {A : Type} (key : A -> string) (p : A -> bool)
    (l : list A) (x : A) :
  sorted_desc key l -> find p l = Some x ->
  forall y, In y l -> p y = true -> Text.le (key y) (key x) = true.
Proof.
  unfold sorted_desc. induction 1 as [|a l Hs IH Ha]; simpl; [discriminate|].
  destruct (p a) eqn:Pa.
  - intros E y [<-|Hy] Py; injection E as <-.
    + apply le_refl.
    + rewrite Forall_forall in Ha. now apply Ha.
  - intros E y [<-|Hy] Py; [congruence|]. now apply IH.
Qed.

Lemma find_map {A B : Type} (g : A -> B) (p : B -> bool) (l : list A) :
  find p (map g l) = option_map g (find (fun a => p (g a)) l).
Proof.
  induction l as [|a l IH]; simpl; [reflexivity|].
  destruct (p (g a)); [reflexivity | exact IH].
Qed.

Lemma find_exists {A : Type} (p : A -> bool) (l : list A) (y : A) :
  In y l -> p y = true -> exists x, find p l = Some x.
Proof.
  intros Hy Py. destruct (find p l) as [x|] eqn:F; [now exists x|].
  pose proof (find_none _ _ F y Hy). congruence.
Qed.

(** Digits and their order. *)
Lemma ascii_compare_digit (a b : Z) :
  Ascii.compare (digit a) (digit b) = (a mod 10 ?= b mod 10).
Proof.
  unfold Ascii.compare, digit.
  pose proof (Z.mod_pos_bound a 10 ltac:(lia)).
  pose proof (Z.mod_pos_bound b 10 ltac:(lia)).
  rewrite !N_ascii_embedding by lia.
  rewrite Z2N.inj_compare by lia.
  apply Z.add_compare_mono_l.
Qed.

(** The order of two comparisons in a row. *)
Definition then_compare (c1 c2 : comparison) : comparison :=
  match c1 with Eq => c2 | _ => c1 end.

Lemma compare_pad2 (a b : Z) (k1 k2 : string) :
  0 <= a < 100 -> 0 <= b < 100 ->
  String.compare (pad2 a k1) (pad2 b k2)
  = then_compare (a ?= b) (String.compare k1 k2).
Proof.
  intros Ha Hb. unfold pad2. simpl. rewrite !ascii_compare_digit.
  assert (Ha1 : (a / 10) mod 10 = a / 10)
    by (apply Z.mod_small; Z.div_mod_to_equations; lia).
  assert (Hb1 : (b / 10) mod 10 = b / 10)
    by (apply Z.mod_small; Z.div_mod_to_equations; lia).
  rewrite Ha1, Hb1.
  destruct (Z.compare_spec (a / 10) (b / 10)) as [E|E|E];
    destruct (Z.compare_spec (a mod 10) (b mod 10)) as [F|F|F];
    destruct (Z.compare_spec a b) as [G|G|G]; simpl; try reflexivity;
    exfalso; Z.div_mod_to_equations; lia.
Qed.

Lemma pad2_mod (n : Z) (k : string) : pad2 n k = pad2 (n mod 100) k.
Proof.
  assert (E1 : (n mod 100 / 10) mod 10 = (n / 10) mod 10)
    by (Z.div_mod_to_equations; lia).
  assert (E2 : (n mod 100) mod 10 = n mod 10)
    by (Z.div_mod_to_equations; lia).
  unfold pad2, digit. now rewrite E1, E2.
Qed.

Lemma compare_pad4 (a b : Z) (k1 k2 : string) :
  0 <= a < 10000 -> 0 <= b < 10000 ->
  String.compare (pad4 a k1) (pad4 b k2)
  = then_compare (a ?= b) (String.compare k1 k2).
Proof.
  intros Ha Hb. unfold pad4.
  rewrite compare_pad2 by (Z.div_mod_to_equations; lia).
  rewrite (pad2_mod a), (pad2_mod b).
  rewrite compare_pad2 by (Z.div_mod_to_equations; lia).
  destruct (Z.compare_spec (a / 100) (b / 100)) as [E|E|E];
    destruct (Z.compare_spec (a mod 100) (b mod 100)) as [F|F|F];
    destruct (Z.compare_spec a b) as [G|G|G]; simpl; try reflexivity;
    exfalso; Z.div_mod_to_equations; lia.
Qed.

(** The text of two dates compares as the dates do. *)
Lemma compare_strftime (a b : date) :
  wf_date a = true -> wf_date b = true ->
  String.compare (strftime a) (strftime b)
  = then_compare (year a ?= year b)
      (then_compare (month a ?= month b) (day a ?= day b)).
Proof.
  intros Ha Hb. apply wf_date_bounds in Ha, Hb. unfold strftime.
  rewrite compare_pad4 by lia. f_equal.
  change (String.compare (String "-" ?x) (String "-" ?y))
    with (String.compare x y).
  rewrite compare_pad2 by lia. f_equal.
  change (String.compare (String "-" ?x) (String "-" ?y))
    with (String.compare x y).
  rewrite compare_pad2 by lia.
  simpl. now destruct (day a ?= day b).
Qed.

Lemma le_strftime (a b : date) :
  wf_date a = true -> wf_date b = true ->
  Text.le (strftime a) (strftime b) = date_leb a b.
Proof.
  intros Ha Hb. unfold Text.le, String.leb.
  rewrite (compare_strftime a b Ha Hb).
  unfold date_leb, then_compare.
  destruct (Z.compare_spec (year a) (year b)) as [E|E|E];
    destruct (Z.compare_spec (month a) (month b)) as [F|F|F];
    destruct (Z.compare_spec (day a) (day b)) as [G|G|G];
    symmetry;
    repeat match goal with
      | |- context [?x <? ?y] => destruct (Z.ltb_spec x y)
      | |- context [?x =? ?y] => destruct (Z.eqb_spec x y)
      | |- context [?x <=? ?y] => destruct (Z.leb_spec x y)
      end; simpl; try reflexivity; lia.
Qed.

Lemma strftime_plain (d : date) : plain_head (strftime d) = true.
Proof. unfold strftime, pad4, pad2. apply digit_plain. Qed.

(** The sentinel sorts after every date. *)
Lemma not_found_after_dates (d : date) : Text.le NOT_FOUND (strftime d) = false.
Proof.
  unfold Text.le, String.leb, strftime, pad4, pad2, NOT_FOUND. simpl.
  digit_by_cases (year d / 100 / 10); reflexivity.
Qed.

(** ** The resolved date of a node *)

(** The key [process_outflow] leaves on an outflow row. *)
Definition normal_key (o : GDN.outflow_row) : string :=
  if String.eqb (GDN.o_child_class o) (GDN.o_parent_class o)
  then "No-Child" else GDN.o_child_class o.

(** [d] is the most recent resolved date among the outflow rows of [node]. *)
Definition most_recent (outflow : list GDN.outflow_row) (node : string) (d : date)
  : Prop :=
  (exists o, In o outflow /\ normal_key o = node /\ GDN.resolved o = Some d)
  /\ forall o d', In o outflow -> normal_key o = node ->
                  GDN.resolved o = Some d' -> date_leb d' d = true.

Section Resolved.

Context {R : Runtime}.

(** The text [process_outflow] sorts a row by. *)
Definition date_text (o : GDN.outflow_row) : string :=
  date_to_string (cell_of_date (GDN.resolved o)).

(** The row [create_cadence] reads the resolved date of a node from: a row
    of the node whose date text is the greatest. *)
Lemma GDN_first_row (outflow : list GDN.outflow_row) (node : string) :
  (exists o, In o outflow /\ normal_key o = node) ->
  exists o,
    In o outflow /\ normal_key o = node /\
    option_map GDN.n_Resolved_date
      (lookup GDN.n_child_class (fst (GDN.process_outflow outflow)) node)
    = Some (date_text o) /\
    forall o', In o' outflow -> normal_key o' = node ->
               Text.le (date_text o') (date_text o) = true.
Proof.
  intros [o0 [Hin0 Hk0]].
  unfold GDN.process_outflow, lookup. simpl fst. rewrite find_map.
  set (dated := map (fun r => (r, date_to_string (cell_of_date (GDN.resolved r))))
                  outflow).
  set (p := fun a : GDN.outflow_row * string =>
              String.eqb
                (GDN.n_child_class
                   (let (r, d) := a in
                    GDN.mk_outflow_out
                      (if String.eqb (GDN.o_child_class r) (GDN.o_parent_class r)
                       then "No-Child" else GDN.o_child_class r)
                      (GDN.o_parent_class r) d
                      (add_int64 (GDN.quantity r) (GDN.vendor_id r)))) node).
  assert (Hp : forall o s, p (o, s) = String.eqb (normal_key o) node)
    by reflexivity.
  assert (Hdated : forall o s, In (o, s) dated <-> In o outflow /\ s = date_text o).
  { intros o s. unfold dated. rewrite in_map_iff. split.
    - intros [o' [E Hin]]. injection E as -> <-. auto.
    - intros [Hin ->]. now exists o. }
  destruct (find_exists p (sort_desc snd dated) (o0, date_text o0))
    as [[o s] F].
  { apply sort_desc_In, Hdated. auto. }
  { rewrite Hp, Hk0. apply String.eqb_refl. }
  rewrite F. simpl.
  pose proof (find_some _ _ F) as [Hin Hpo].
  apply sort_desc_In, Hdated in Hin. destruct Hin as [Hin ->].
  rewrite Hp in Hpo. apply String.eqb_eq in Hpo.
  exists o. repeat split; try assumption.
  intros o' Hin' Hk'.
  apply (find_sorted_greatest snd p _ _ (sort_desc_sorted snd dated) F
           (o', date_text o')).
  - apply sort_desc_In, Hdated. auto.
  - rewrite Hp, Hk'. apply String.eqb_refl.
Qed.

Lemma date_text_cases (o : GDN.outflow_row) :
  match GDN.resolved o with
  | Some d => date_text o = strftime d
  | None => date_text o = NOT_FOUND
  end.
Proof. unfold date_text. now destruct (GDN.resolved o). Qed.

(** X30. GDN, resolution per key: for a node with outflow rows, the
    Resolved Date of the GDN Cadence table is the greatest text of the
    resolved dates of its rows. When every row of the node has a resolved
    date it is the most recent of them; as soon as one row has none, it is
    the sentinel, which sorts before every date in the descending order. *)
Theorem GDN_resolved_date_of_node
    (armt : list GDN.armt_row) (outflow : list GDN.outflow_row)
    (master : GDN.master_table) (cadence filtered : list (Row unit)) :
  GDN.process armt outflow master = Success cadence filtered ->
  (forall o d, In o outflow -> GDN.resolved o = Some d -> wf_date d = true) ->
  forall r, In r cadence ->
  (exists o, In o outflow /\ normal_key o = Key r) ->
  ((exists o, In o outflow /\ normal_key o = Key r /\ GDN.resolved o = None) ->
   Resolved_Date r = NOT_FOUND)
  /\
  ((forall o, In o outflow -> normal_key o = Key r -> GDN.resolved o <> None) ->
   exists d, most_recent outflow (Key r) d /\ Resolved_Date r = strftime d).
Proof.
  intros Hrun Hwf r Hr Hrows.
  destruct (GDN_process_rows _ _ _ _ _ Hrun r Hr)
    as (node & r1 & r3 & _ & H1 & H3 & ->).
  destruct (fallback_keeps _ _ H3) as (HK & _ & _ & _ & HR & _).
  unfold GDN.master_lookup_row in H1.
  destruct (previous_cadence _) as [cad|]; [|discriminate].
  injection H1 as <-.
  assert (EK : Key (finalize_row r3) = node).
  { unfold finalize_row. destruct (eq_int _ 0); simpl; exact HK. }
  rewrite EK in *. rewrite finalize_row_resolved, HR. simpl.
  destruct (GDN_first_row outflow node Hrows) as (o & Hin & Hk & Hlook & Hmax).
  destruct (lookup GDN.n_child_class _ node) as [row|]; [|discriminate].
  simpl in Hlook. injection Hlook as Hlook. simpl. rewrite Hlook.
  pose proof (date_text_cases o) as Ho.
  split.
  - intros (o' & Hin' & Hk' & Hnone).
    pose proof (Hmax o' Hin' Hk') as Hle.
    pose proof (date_text_cases o') as Ho'. rewrite Hnone in Ho'.
    rewrite Ho' in Hle.
    destruct (GDN.resolved o) as [d|] eqn:Eo.
    + rewrite Ho, not_found_after_dates in Hle. discriminate.
    + rewrite Ho. reflexivity.
  - intros Hall.
    destruct (GDN.resolved o) as [d|] eqn:Eo; [|now destruct (Hall o Hin Hk)].
    exists d. split.
    + split; [now exists o|].
      intros o' d' Hin' Hk' Eo'.
      pose proof (Hmax o' Hin' Hk') as Hle.
      pose proof (date_text_cases o') as Ho'. rewrite Eo' in Ho'.
      rewrite Ho, Ho' in Hle.
      rewrite le_strftime in Hle; eauto.
    + rewrite Ho. apply date_to_string_text, plain_head_found, strftime_plain.
Qed.

End Resolved.

(** A GDN outflow with two rows of one node, one of them without a resolved
    date. *)
Definition undated_outflow : list GDN.outflow_row :=
  [GDN.mk_outflow "Cables" "Electronics" (Some (mkdate 2024 1 5)) (of_int 3) 0;
   GDN.mk_outflow "Cables" "Electronics" None (of_int 2) 0].

(** The same two rows in an IAS outflow, resolved from FR to UK. *)
Definition ias_undated_outflow : list IAS.outflow_row :=
  [IAS.mk_outflow "Cables" "Electronics" (Some (mkdate 2024 1 5)) "Defect"
     "FR-UK" (of_int 3) 0;
   IAS.mk_outflow "Cables" "Electronics" None "Defect" "FR-UK" (of_int 2) 0].

(** The key [IAS.process_outflow] gives an outflow row in 'combined_class'. *)
Definition ias_normal_key (o : IAS.outflow_row) : string :=
  IAS.o_parent_class o ++ ","
  ++ (if String.eqb (IAS.o_child_class o) (IAS.o_parent_class o)
      then "No-Child" else IAS.o_child_class o)
  ++ "," ++ hd EmptyString (Text.split "-" (IAS.resolution o)).

(** [d] is the most recent resolved date among the IAS outflow rows of
    [node]. *)
Definition ias_most_recent (outflow : list IAS.outflow_row) (node : string)
    (d : date) : Prop :=
  (exists o, In o outflow /\ ias_normal_key o = node /\ IAS.resolved o = Some d)
  /\ forall o d', In o outflow -> ias_normal_key o = node ->
                  IAS.resolved o = Some d' -> date_leb d' d = true.

(** C7. Most-recent resolution per key does not hold of the code: both
    [process_outflow] sort on the text [date_to_string] returns, where
    'not Found!' stands before every date in the descending order, and
    [create_cadence] reads the first row of a key.  On a GDN run and on an
    IAS run with two outflow rows of one node, one resolved on 2024-01-05
    and one without a resolved date, the most recent resolved date of the
    node is 2024-01-05 and the Cadence table records 'not Found!'; in IAS
    neither the secondary lookup nor [merge_columns] brings the date back. *)
Theorem C7_undated_row_hides_resolved_date :
  (exists cadence filtered r,
     GDN.process (R := reference_runtime) dated_armt undated_outflow
       (GDN.mk_master_table true []) = Success cadence filtered
     /\ In r cadence
     /\ Key r = "Cables"
     /\ most_recent undated_outflow "Cables" (mkdate 2024 1 5)
     /\ Resolved_Date r = NOT_FOUND
     /\ Resolved_Date r <> strftime (mkdate 2024 1 5))
  /\
  (exists cadence filtered r,
     IAS.process (R := reference_runtime) in_domain_armt ias_undated_outflow
       (IAS.mk_master_table true []) = Success cadence filtered
     /\ In r cadence
     /\ Key r = "Electronics,Cables,FR"
     /\ ias_most_recent ias_undated_outflow "Electronics,Cables,FR"
          (mkdate 2024 1 5)
     /\ Resolved_Date r = NOT_FOUND
     /\ Resolved_Date r <> strftime (mkdate 2024 1 5)).
Proof.
  split; eexists _, _, _;
    (split; [vm_compute; reflexivity|]);
    (split; [left; reflexivity|]);
    (split; [reflexivity|]).
  - split.
    + split.
      * eexists. split; [left; reflexivity|]. split; reflexivity.
      * intros o d' [<-|[<-|[]]] _ E; [|discriminate].
        injection E as <-. reflexivity.
    + split; [reflexivity | discriminate].
  - split.
    + split.
      * eexists. split; [left; reflexivity|]. split; reflexivity.
      * intros o d' [<-|[<-|[]]] _ E; [|discriminate].
        injection E as <-. reflexivity.
    + split; [reflexivity | discriminate].
Qed.

(** A GDN outflow with two dated rows of one node. *)
Definition twice_dated_outflow : list GDN.outflow_row :=
  [GDN.mk_outflow "Cables" "Electronics" (Some (mkdate 2024 1 5)) (of_int 3) 0;
   GDN.mk_outflow "Cables" "Electronics" (Some (mkdate 2024 2 7)) (of_int 2) 0].

Lemma GDN_resolved_date_of_node_witness :
  exists cadence filtered r,
    GDN.process (R := reference_runtime) dated_armt twice_dated_outflow
      (GDN.mk_master_table true []) = Success cadence filtered
    /\ In r cadence
    /\ Resolved_Date r = "2024-02-07"
    /\ exists d, most_recent twice_dated_outflow (Key r) d
                 /\ Resolved_Date r = strftime d.
Proof.
  eexists _, _, _.
  split; [vm_compute; reflexivity|].
  split; [left; reflexivity|].
  split; [reflexivity|].
  eapply (GDN_resolved_date_of_node (R := reference_runtime)
            dated_armt twice_dated_outflow (GDN.mk_master_table true [])).
  - vm_compute. reflexivity.
  - intros o d [<-|[<-|[]]] E; injection E as <-; reflexivity.
  - left. reflexivity.
  - eexists. split; [left; reflexivity | reflexivity].
  - intros o [<-|[<-|[]]] _; discriminate.
Defined.

(* ================================================================== *)
(** * Further properties *)
(* ================================================================== *)

(** ** The helpers of base_processor.py *)

(** ** Blanks and case *)

(** A string of blanks only. *)
Fixpoint blank (w : string) : bool :=
  match w with
  | EmptyString => true
  | String c w' => Text.is_space c && blank w'
  end.

Lemma is_space_lower (c : ascii) :
  Text.is_space (Text.lower_ascii c) = Text.is_space c.
Proof. destruct c as [[] [] [] [] [] [] [] []]; reflexivity. Qed.

Lemma lstrip_lower (s : string) :
  Text.lstrip (Text.lower s) = Text.lower (Text.lstrip s).
Proof.
  induction s as [|c s IH]; simpl; [reflexivity|].
  rewrite is_space_lower. destruct (Text.is_space c); [exact IH | reflexivity].
Qed.

Lemma rstrip_lower (s : string) :
  Text.rstrip (Text.lower s) = Text.lower (Text.rstrip s).
Proof.
  induction s as [|c s IH]; simpl; [reflexivity|].
  rewrite IH, is_space_lower.
  destruct (Text.rstrip s); simpl; [|reflexivity].
  destruct (Text.is_space c); reflexivity.
Qed.

Lemma strip_lower (s : string) :
  Text.strip (Text.lower s) = Text.lower (Text.strip s).
Proof. unfold Text.strip. now rewrite rstrip_lower, lstrip_lower. Qed.

Lemma lstrip_blank (w s : string) :
  blank w = true -> Text.lstrip (w ++ s) = Text.lstrip s.
Proof.
  induction w as [|c w IH]; simpl; [reflexivity|].
  intros H. apply andb_true_iff in H. destruct H as [Hc Hw].
  rewrite Hc. now apply IH.
Qed.

Lemma rstrip_blank_only (w : string) :
  blank w = true -> Text.rstrip w = EmptyString.
Proof.
  induction w as [|c w IH]; simpl; [reflexivity|].
  intros H. apply andb_true_iff in H. destruct H as [Hc Hw].
  now rewrite (IH Hw), Hc.
Qed.

Lemma rstrip_blank (s w : string) :
  blank w = true -> Text.rstrip (s ++ w) = Text.rstrip s.
Proof.
  intros Hw. induction s as [|c s IH]; simpl.
  - now apply rstrip_blank_only.
  - now rewrite IH.
Qed.

Lemma lstrip_rstrip_blank (w s : string) :
  blank w = true ->
  Text.lstrip (Text.rstrip (w ++ s)) = Text.lstrip (Text.rstrip s).
Proof.
  induction w as [|c w IH]; simpl; [reflexivity|].
  intros H. apply andb_true_iff in H. destruct H as [Hc Hw].
  specialize (IH Hw).
  destruct (Text.rstrip (w ++ s)) as [|a t] eqn:E.
  - rewrite Hc. simpl. simpl in IH. exact IH.
  - simpl. rewrite Hc. exact IH.
Qed.

Lemma strip_blank (w1 s w2 : string) :
  blank w1 = true -> blank w2 = true ->
  Text.strip (w1 ++ s ++ w2) = Text.strip s.
Proof.
  intros H1 H2. unfold Text.strip.
  rewrite (lstrip_rstrip_blank w1 _ H1). now rewrite rstrip_blank.
Qed.

(** X1. [is_not_found] looks at a string through [strip] and [lower] only:
    blanks around the text and the case of its letters do not change the
    answer. *)
Theorem is_not_found_ignores_blanks_and_case (s t w1 w2 : string) :
  blank w1 = true -> blank w2 = true ->
  Text.lower t = Text.lower s ->
  is_not_found (CText (w1 ++ t ++ w2)) = is_not_found (CText s).
Proof.
  intros H1 H2 E. unfold is_not_found. simpl isna. cbv iota.
  rewrite (strip_blank w1 t w2 H1 H2).
  now rewrite <- !strip_lower, E.
Qed.

(** ** [date_to_string] and [add_days_to_date] *)

Section Date_text.

Context {R : Runtime}.

Lemma date_to_string_not_found :
  date_to_string (CText NOT_FOUND) = NOT_FOUND.
Proof. reflexivity. Qed.

Lemma date_to_string_strftime (d : date) :
  date_to_string (CText (strftime d)) = strftime d.
Proof. apply date_to_string_text, plain_head_found, strftime_plain. Qed.

(** [date_to_string] returns the sentinel, the text it was given, or the
    text [strftime] writes. *)
Lemma date_to_string_cases (v : cell) :
  date_to_string v = NOT_FOUND
  \/ (exists s, v = CText s /\ is_not_found (CText s) = false
                /\ date_to_string v = s)
  \/ (exists d, date_to_string v = strftime d).
Proof.
  destruct v as [|s|x|d].
  - now left.
  - destruct (date_to_string_text_cases s) as [E|[E F]]; [now left|].
    right. left. now exists s.
  - unfold date_to_string. destruct (is_not_found (CNum x)); [now left|].
    destruct (num_to_datetime x) as [d|]; [|now left].
    right. right. now exists d.
  - right. right. now exists d.
Qed.

Lemma date_to_string_again (v : cell) :
  date_to_string (CText (date_to_string v)) = date_to_string v.
Proof.
  destruct (date_to_string_cases v) as [E|[[s [-> [F E]]]|[d E]]]; rewrite E.
  - reflexivity.
  - exact E.
  - apply date_to_string_strftime.
Qed.

(** X2. [date_to_string] is idempotent: text it has written goes through it
    unchanged, whatever the cell it was written from (a text, a Timestamp,
    a number or an empty cell). *)
Theorem date_to_string_idempotent (v : cell) :
  date_to_string (CText (date_to_string v)) = date_to_string v.
Proof.
  destruct (date_to_string_cases v) as [E|[[s [-> [F E]]]|[d E]]]; rewrite E.
  - reflexivity.
  - exact E.
  - apply date_to_string_strftime.
Qed.

Lemma add_days_to_date_cases (v : cell) (days : Z) :
  add_days_to_date v days = NOT_FOUND
  \/ exists d, in_range d = true /\ add_days_to_date v days = strftime d.
Proof.
  unfold add_days_to_date.
  destruct (is_not_found v); [now left|].
  destruct (match v with
            | CNull => None
            | CText s => to_datetime s
            | CNum x => num_to_datetime x
            | CTime d => Some d
            end) as [d|]; [|now left].
  unfold timestamp_add.
  destruct (in_range (add_days d days)) eqn:E; [|now left].
  right. now exists (add_days d days).
Qed.

(** X3. What [add_days_to_date] returns is the sentinel or the text of a date a
    Timestamp can hold, never anything else; [date_to_string] leaves it as
    it is. *)
Theorem add_days_to_date_text (v : cell) (days : Z) :
  (add_days_to_date v days = NOT_FOUND
   \/ exists d, in_range d = true /\ add_days_to_date v days = strftime d)
  /\ date_to_string (CText (add_days_to_date v days)) = add_days_to_date v days.
Proof.
  split; [apply add_days_to_date_cases|].
  destruct (add_days_to_date_cases v days) as [E|[d [_ E]]]; rewrite E.
  - reflexivity.
  - apply date_to_string_strftime.
Qed.

(** X4. On a text, [add_days_to_date] answers the sentinel in three cases and no
    other: the text reads as not found, [pd.to_datetime] does not read it,
    or the new date leaves the range of a Timestamp. *)
Theorem add_days_to_date_not_found (s : string) (days : Z) :
  add_days_to_date (CText s) days = NOT_FOUND
  <-> is_not_found (CText s) = true
      \/ to_datetime s = None
      \/ exists d, to_datetime s = Some d /\ in_range (add_days d days) = false.
Proof.
  unfold add_days_to_date.
  destruct (is_not_found (CText s)) eqn:F; [intuition|].
  destruct (to_datetime s) as [d|] eqn:P; [|intuition].
  unfold timestamp_add.
  destruct (in_range (add_days d days)) eqn:E.
  - split.
    + intros H. exfalso.
      pose proof (plain_head_found _ (strftime_plain (add_days d days))) as Q.
      rewrite H in Q. discriminate.
    + intros [H|[H|[d' [H1 H2]]]]; try discriminate.
      injection H1 as <-. congruence.
  - split; [|reflexivity]. intros _. right. right. now exists d.
Qed.

End Date_text.

(** ** The stages *)

Lemma set_Cadence_Score_same {X : Type} (r : Row X) :
  set_Cadence_Score (Cadence_Score r) r = r.
Proof. now destruct r. Qed.

Lemma set_Due_Date_same {X : Type} (r : Row X) :
  set_Due_Date (Due_Date r) r = r.
Proof. now destruct r. Qed.

Lemma for_rows_None {A B : Type} (f : A -> option B) (l : list A) :
  for_rows f l = None <-> exists a, In a l /\ f a = None.
Proof.
  induction l as [|x l IH]; simpl.
  - split; [discriminate | now intros [a [[] _]]].
  - destruct (f x) as [b|] eqn:F.
    + destruct (for_rows f l) as [bs|].
      * split; [discriminate|].
        intros [a [[<-|Ha] Fa]]; [congruence|].
        assert (H : @None (list B) = None) by reflexivity.
        destruct IH as [_ IH]. discriminate IH. now exists a.
      * split; [|reflexivity]. intros _.
        destruct IH as [IH _]. destruct (IH eq_refl) as [a [Ha Fa]].
        exists a. auto.
    + split; [|reflexivity]. intros _. exists x. auto.
Qed.

Lemma for_rows_length {A B : Type} (f : A -> option B) (l : list A) (out : list B) :
  for_rows f l = Some out -> List.length out = List.length l.
Proof.
  revert out. induction l as [|x l IH]; simpl; intros out H.
  - now injection H as <-.
  - destruct (f x); [|discriminate].
    destruct (for_rows f l) as [bs|]; [|discriminate].
    injection H as <-. simpl. now rewrite (IH bs).
Qed.

(** A loop that keeps a column keeps it in the whole table. *)
Lemma for_rows_column {A B C : Type} (f : A -> option B) (ka : A -> C) (kb : B -> C)
    (l : list A) (out : list B) :
  (forall a b, f a = Some b -> kb b = ka a) ->
  for_rows f l = Some out -> map kb out = map ka l.
Proof.
  intros Hk. revert out. induction l as [|x l IH]; simpl; intros out H.
  - now injection H as <-.
  - destruct (f x) as [b|] eqn:F; [|discriminate].
    destruct (for_rows f l) as [bs|]; [|discriminate].
    injection H as <-. simpl. now rewrite (Hk x b F), (IH bs).
Qed.

(** The five tiers and everything else, for a case analysis on a score. *)
Ltac tier_cases cad :=
  destruct (Z.eqb_spec cad 30) as [->|?];
  [|destruct (Z.eqb_spec cad 60) as [->|?];
    [|destruct (Z.eqb_spec cad 90) as [->|?];
      [|destruct (Z.eqb_spec cad 180) as [->|?];
        [|destruct (Z.eqb_spec cad 365) as [->|?]]]]].

Section More_on_stages.

Context {R : Runtime} {X : Type}.

(** ** [update_cadence_score] *)

Lemma updated_score_no_tier (r : Row X) :
  (forall T, In T tiers ->
             eq_int (safe_to_numeric (Previous_Cadence r)) T = false) ->
  updated_score r = Cadence_Score r.
Proof.
  intros H. unfold updated_score.
  set (pc := safe_to_numeric (Previous_Cadence r)) in *.
  set (nc := safe_to_numeric (NC_Count r)).
  set (pnc := safe_to_numeric (Previous_NC r)).
  rewrite (H 30), (H 60), (H 90), (H 180), (H 365) by (simpl; tauto).
  cbv zeta. rewrite !andb_false_r. reflexivity.
Qed.

(** X5. Every rule of [update_cadence_score] asks for a Previous Cadence that
    reads as one of the five tiers: a row whose Previous Cadence reads as
    anything else, or as nothing, leaves the stage as it entered it. *)
Theorem update_cadence_score_needs_previous_tier
    (Cadence : list (Row X)) (i : nat) (r : Row X) :
  nth_error Cadence i = Some r ->
  (forall T, In T tiers ->
             eq_int (safe_to_numeric (Previous_Cadence r)) T = false) ->
  nth_error (update_cadence_score Cadence) i = Some r.
Proof.
  intros Hi H. unfold update_cadence_score.
  rewrite (nth_error_map_Some _ _ _ _ Hi).
  now rewrite (updated_score_no_tier r H), set_Cadence_Score_same.
Qed.

(** ** [calculate_due_dates] *)

(** X6. The offset of the first loop: there is one exactly when the NC Count is
    a number and the score one of the five tiers; it is a tier, never more
    than the score, and less than the score exactly from the step-down
    threshold on (10 for the tiers 60 and 90, 15 for 180 and 365). *)
Theorem due_days_bounds (nc : pyfloat) (cad : Z) :
  (notna nc = true ->
   ((exists k, due_days nc cad = Some k) <-> is_tier cad = true))
  /\ (notna nc = false -> due_days nc cad = None)
  /\ (forall k, due_days nc cad = Some k ->
        is_tier k = true /\ k <= cad /\
        (k < cad <->
         (ge_int nc 10 = true /\ (cad = 60 \/ cad = 90)) \/
         (ge_int nc 15 = true /\ (cad = 180 \/ cad = 365)))).
Proof.
  assert (Hcases :
            notna nc = false
            \/ (lt_int nc 10 = true /\ lt_int nc 15 = true
                /\ ge_int nc 10 = false /\ ge_int nc 15 = false)
            \/ (lt_int nc 10 = false /\ lt_int nc 15 = true
                /\ ge_int nc 10 = true /\ ge_int nc 15 = false)
            \/ (lt_int nc 10 = false /\ lt_int nc 15 = false
                /\ ge_int nc 10 = true /\ ge_int nc 15 = true)).
  { rewrite !lt_int_ge_int.
    destruct (notna nc) eqn:N; [right | now left].
    destruct (ge_int nc 15) eqn:G15.
    - rewrite (ge_int_15_10 nc G15). simpl. tauto.
    - destruct (ge_int nc 10); simpl; tauto. }
  assert (Hna : notna nc = false -> due_days nc cad = None).
  { intros N. destruct nc; try discriminate. reflexivity. }
  split; [|split; [exact Hna|]].
  - intros N. unfold due_days, is_tier, tiers. simpl existsb.
    destruct Hcases as [C|[[A [B [C D]]]|[[A [B [C D]]]|[A [B [C D]]]]]];
      [congruence| | |]; rewrite A, B, C, D; cbv zeta; tier_cases cad; simpl;
      (split; [intros [k Hk]; try discriminate; reflexivity
              | intros Hk; try discriminate; eexists; reflexivity]).
  - intros k.
    destruct Hcases as [C|[[A [B [C D]]]|[[A [B [C D]]]|[A [B [C D]]]]]].
    { rewrite (Hna C). discriminate. }
    all: unfold due_days; rewrite A, B, C, D; cbv zeta; tier_cases cad; simpl.
    all: intros Hk; try discriminate; injection Hk as <-.
    all: split; [reflexivity|]; split; [lia|].
    all: split;
      [ intros Hlt; first [ lia
                          | left; split; [reflexivity | lia]
                          | right; split; [reflexivity | lia] ]
      | intros [[H1 H2]|[H1 H2]]; first [lia | discriminate] ].
Qed.

End More_on_stages.

(** [int(x)] raises OverflowError on the two infinities only. *)
Lemma py_int_overflow (x : pyfloat) :
  py_int x = IntOverflowError <-> x = PosInf \/ x = NegInf.
Proof.
  destruct x; simpl; split; try discriminate; auto;
    intros [H|H]; discriminate.
Qed.

Section Fallback.

Context {R : Runtime} {X : Type}.

(** [r'] is [r] but for the score and the due date. *)
Definition same_but_score_and_due (r r' : Row X) : Prop :=
  set_Cadence_Score (Cadence_Score r) (set_Due_Date (Due_Date r) r') = r.

Lemma same_but_refl (r : Row X) : same_but_score_and_due r r.
Proof. now destruct r. Qed.

Lemma same_but_set_score (r r' : Row X) (z : Z) :
  same_but_score_and_due r r' ->
  same_but_score_and_due r (set_Cadence_Score z r').
Proof. unfold same_but_score_and_due. intros <-. now destruct r'. Qed.

Lemma same_but_set_due (r r' : Row X) (s : string) :
  same_but_score_and_due r r' ->
  same_but_score_and_due r (set_Due_Date s r').
Proof. unfold same_but_score_and_due. intros <-. now destruct r'. Qed.

Lemma fallback_same_but (r0 r r' : Row X) :
  same_but_score_and_due r0 r -> fallback r = Some r' ->
  same_but_score_and_due r0 r'.
Proof.
  intros H. unfold fallback.
  destruct (is_not_found (NC_Count r)); [|now intros [= <-]].
  destruct (negb (is_not_found (Previous_Cadence r))).
  - destruct (py_float (Previous_Cadence r)) as [x|].
    + destruct (py_int x) as [z| |]; try discriminate.
      * destruct (fits_int64 z); [|discriminate].
        destruct (negb (is_not_found (Previous_Due_Date (set_Cadence_Score z r))));
          intros [= <-];
          [apply same_but_set_due|]; now apply same_but_set_score.
      * destruct (negb (is_not_found (Previous_Due_Date r)));
          intros [= <-]; [now apply same_but_set_due | exact H].
    + destruct (negb (is_not_found (Previous_Due_Date r)));
        intros [= <-]; [now apply same_but_set_due | exact H].
  - destruct (negb (is_not_found (Previous_Due_Date r)));
      intros [= <-]; [now apply same_but_set_due | exact H].
Qed.

(** The second loop stops at a row in two cases: [int] raises
    OverflowError on an infinity, or the integer is beyond int64. *)
Lemma fallback_None (r : Row X) :
  fallback r = None
  <-> is_not_found (NC_Count r) = true
      /\ is_not_found (Previous_Cadence r) = false
      /\ exists x, py_float (Previous_Cadence r) = Some x
                   /\ ((x = PosInf \/ x = NegInf)
                       \/ exists z, py_int x = IntValue z
                                    /\ fits_int64 z = false).
Proof.
  unfold fallback.
  destruct (is_not_found (NC_Count r)); [|split; [discriminate | now intros [? _]]].
  destruct (is_not_found (Previous_Cadence r)); simpl.
  { destruct (negb (is_not_found (Previous_Due_Date r)));
      (split; [discriminate | now intros [_ [? _]]]). }
  destruct (py_float (Previous_Cadence r)) as [x|].
  - destruct (py_int x) as [z| |] eqn:E.
    + destruct (fits_int64 z) eqn:F.
      * destruct (negb _); split; try discriminate;
          intros [_ [_ [y [[= <-] [Hy | [z' [Hz Hf]]]]]]];
          try (apply py_int_overflow in Hy; congruence);
          rewrite E in Hz; injection Hz as <-; congruence.
      * split; [|reflexivity]. intros _. repeat split.
        exists x. split; [reflexivity|]. right. now exists z.
    + destruct (negb _); split; try discriminate;
        intros [_ [_ [y [[= <-] [Hy | [z' [Hz Hf]]]]]]];
        try (apply py_int_overflow in Hy; congruence);
        rewrite E in Hz; discriminate.
    + split; [|reflexivity]. intros _. repeat split.
      exists x. split; [reflexivity|]. left. now apply py_int_overflow.
  - destruct (negb _); split; try discriminate;
      intros [_ [_ [y [Hy _]]]]; discriminate.
Qed.

(** A row the second loop stops at for int64. *)
Lemma exceeds_int64_spec (r : Row X) :
  exceeds_int64 r = true
  <-> is_not_found (NC_Count r) = true
      /\ is_not_found (Previous_Cadence r) = false
      /\ exists x z, py_float (Previous_Cadence r) = Some x
                     /\ py_int x = IntValue z /\ fits_int64 z = false.
Proof.
  unfold exceeds_int64.
  rewrite !andb_true_iff, negb_true_iff.
  split.
  - intros [[Hn Hp] H]. repeat split; try assumption.
    destruct (py_float (Previous_Cadence r)) as [x|]; [|discriminate].
    destruct (py_int x) as [z| |] eqn:E; try discriminate.
    exists x, z. repeat split; try assumption. now apply negb_true_iff.
  - intros (Hn & Hp & x & z & Hx & Hz & Hf). repeat split; try assumption.
    rewrite Hx, Hz. now apply negb_true_iff.
Qed.

(** X7. On a table where no row would store a score beyond int64,
    [calculate_due_dates] raises exactly when a row without NC Count carries
    a Previous Cadence that [float] reads as an infinity: the
    [OverflowError] of [int] is not among the exceptions the second loop
    passes over. *)
Theorem calculate_due_dates_raises (Cadence : list (Row X)) :
  (forall r, In r Cadence -> exceeds_int64 r = false) ->
  (calculate_due_dates Cadence = None
   <-> exists r, In r Cadence
                 /\ is_not_found (NC_Count r) = true
                 /\ is_not_found (Previous_Cadence r) = false
                 /\ exists x, py_float (Previous_Cadence r) = Some x
                              /\ (x = PosInf \/ x = NegInf)).
Proof.
  intros Hfit.
  rewrite calculate_due_dates_rows, for_rows_None.
  split; intros [r [Hin H]]; exists r; (split; [exact Hin|]).
  - apply fallback_None in H.
    change (NC_Count (dated r)) with (NC_Count r) in H.
    change (Previous_Cadence (dated r)) with (Previous_Cadence r) in H.
    destruct H as (Hn & Hp & x & Hx & [Hinf | [z [Hz Hf]]]).
    + repeat split; try assumption. now exists x.
    + exfalso. pose proof (Hfit r Hin) as E.
      assert (E' : exceeds_int64 r = true)
        by (apply exceeds_int64_spec; repeat split; try assumption;
            now exists x, z).
      congruence.
  - apply fallback_None.
    destruct H as (Hn & Hp & x & Hx & Hinf).
    repeat split; try assumption. exists x. split; [exact Hx | now left].
Qed.

(** X8. [calculate_due_dates] keeps the rows, their order and every column but
    Cadence Score and Due Date; on a row that has an NC Count it keeps the
    score as well and leaves the due date the first loop computed. *)
Theorem calculate_due_dates_keeps (Cadence Out : list (Row X)) :
  calculate_due_dates Cadence = Some Out ->
  List.length Out = List.length Cadence
  /\ forall i r, nth_error Cadence i = Some r ->
       exists r', nth_error Out i = Some r'
         /\ same_but_score_and_due r r'
         /\ (is_not_found (NC_Count r) = false ->
             Cadence_Score r' = Cadence_Score r
             /\ Due_Date r' = computed_due_date r).
Proof.
  rewrite calculate_due_dates_rows. intros H.
  split; [now apply for_rows_length in H|].
  intros i r Hi.
  destruct (for_rows_nth _ _ _ H i r Hi) as [r' [F Hn]].
  exists r'. split; [exact Hn|]. split.
  - apply (fallback_same_but r (dated r) r'); [|exact F].
    unfold dated. apply same_but_set_due, same_but_set_due, same_but_refl.
  - intros Hnc.
    rewrite (fallback_known_nc (dated r)) in F by exact Hnc.
    injection F as <-. split; reflexivity.
Qed.

(** ** [finalize_cadence] *)

Lemma finalize_row_again (r : Row X) :
  finalize_row (finalize_row r) = finalize_row r.
Proof.
  unfold finalize_row.
  destruct (eq_int (risk_score r) 0) eqn:E; simpl.
  - now rewrite date_to_string_again.
  - rewrite E. simpl. now rewrite date_to_string_again.
Qed.

Lemma finalize_row_risk_not_0 (r : Row X) :
  eq_int (risk_score (finalize_row r)) 0 = false.
Proof.
  unfold finalize_row.
  destruct (eq_int (risk_score r) 0) eqn:E; simpl; [reflexivity | exact E].
Qed.

End Fallback.

(** X9. The three assignments of [finalize_cadence] are idempotent: a finalized
    table goes through them unchanged. *)
Theorem finalize_cadence_idempotent {R : Runtime} :
  (forall Cadence : list (Row unit),
      GDN.finalize_cadence (GDN.finalize_cadence Cadence)
      = GDN.finalize_cadence Cadence)
  /\ (forall Cadence : list (Row IAS.working_columns),
        map finalize_row (IAS.finalize_cadence Cadence)
        = IAS.finalize_cadence Cadence).
Proof.
  split; intros Cadence.
  - unfold GDN.finalize_cadence. rewrite map_map. apply map_ext.
    intros r. apply finalize_row_again.
  - unfold IAS.finalize_cadence. rewrite map_map. apply map_ext.
    intros r. apply finalize_row_again.
Qed.

(** ** A run *)

Lemma nodup_nil_iff (l : list string) : nodup string_dec l = [] <-> l = [].
Proof.
  split; [|now intros ->].
  destruct l as [|x l]; [reflexivity|]. intros H. exfalso.
  assert (Hx : In x (nodup string_dec (x :: l))) by (apply nodup_In; now left).
  rewrite H in Hx. exact Hx.
Qed.

Lemma set_is_empty {R : Runtime} (l : list string) :
  lists_sets R -> (list_of_set l = [] <-> l = []).
Proof.
  intros HR. pose proof (HR l) as HP. split; intros H.
  - rewrite H in HP. apply Permutation_nil in HP. now apply nodup_nil_iff.
  - subst l. simpl in HP. apply Permutation_sym in HP.
    now apply Permutation_nil in HP.
Qed.

Lemma set_NoDup {R : Runtime} (l : list string) :
  lists_sets R -> NoDup (list_of_set l).
Proof.
  intros HR. apply (Permutation_NoDup (l := nodup string_dec l)).
  - symmetry. apply HR.
  - apply NoDup_nodup.
Qed.

Lemma set_In {R : Runtime} (l : list string) (k : string) :
  lists_sets R -> (In k (list_of_set l) <-> In k l).
Proof.
  intros HR. rewrite <- (nodup_In string_dec l). split; intros H.
  - now apply (Permutation_in _ (HR l)).
  - now apply (Permutation_in _ (Permutation_sym (HR l))).
Qed.

Section Run.

Context {R : Runtime}.

(** ** The nodes of IAS *)

(** The key an ARMT row gives to the IAS node set, if any: an AmazonGlobal
    row from FR, IT or ES its Combined Classes, a CrossListing row from FR,
    IT, ES or MX its Combined Classes2. *)
Definition ias_node (row : IAS.armt_row) : option string :=
  if String.eqb (IAS.a_program row) "AmazonGlobal"
     && Text.mem (IAS.a_Source row) ["FR"; "IT"; "ES"]
  then Some (IAS.combined_class row)
  else if String.eqb (IAS.a_program row) "CrossListing"
          && Text.mem (IAS.a_Source row) IAS.IAS_CrossListing_Sources
  then Some (IAS.combined_class2 row)
  else None.

Lemma ias_added_nodes_In (armt : list IAS.armt_row) (k : string) :
  In k (IAS.added_nodes armt)
  <-> exists row, In row armt /\ ias_node row = Some k.
Proof.
  unfold IAS.added_nodes. rewrite !in_app_iff, !in_map_iff.
  split.
  - intros [H|[H|[H|H]]]; destruct H as [row [<- H]];
      rewrite !filter_In in H; exists row.
    + destruct H as [[Hin Hp] Hs]. split; [exact Hin|].
      unfold ias_node. rewrite Hp. apply String.eqb_eq in Hs. now rewrite Hs.
    + destruct H as [[Hin Hp] Hs]. split; [exact Hin|].
      unfold ias_node. rewrite Hp. apply String.eqb_eq in Hs. now rewrite Hs.
    + destruct H as [[Hin Hp] Hs]. split; [exact Hin|].
      unfold ias_node. rewrite Hp. apply String.eqb_eq in Hs. now rewrite Hs.
    + destruct H as [Hin Hc]. split; [exact Hin|].
      apply andb_true_iff in Hc. destruct Hc as [Hp Hs].
      apply String.eqb_eq in Hp. unfold ias_node. rewrite Hp, Hs. reflexivity.
  - intros [row [Hin H]]. unfold ias_node in H.
    destruct (String.eqb (IAS.a_program row) "AmazonGlobal") eqn:Hp.
    + rewrite andb_true_l in H.
      destruct (Text.mem (IAS.a_Source row) ["FR"; "IT"; "ES"]) eqn:M.
      * injection H as <-. unfold Text.mem in M. simpl in M.
        destruct (String.eqb (IAS.a_Source row) "FR") eqn:FR.
        { left. exists row. rewrite !filter_In. auto. }
        destruct (String.eqb (IAS.a_Source row) "IT") eqn:IT.
        { right. left. exists row. rewrite !filter_In. auto. }
        destruct (String.eqb (IAS.a_Source row) "ES") eqn:ES;
          [|discriminate].
        right. right. left. exists row. rewrite !filter_In. auto.
      * apply String.eqb_eq in Hp. rewrite Hp in H. discriminate.
    + rewrite andb_false_l in H.
      destruct (String.eqb (IAS.a_program row) "CrossListing"
                && Text.mem (IAS.a_Source row) IAS.IAS_CrossListing_Sources)
        eqn:Hc; [|discriminate].
      injection H as <-. right. right. right. exists row.
      rewrite filter_In. auto.
Qed.

(** ** A run as a loop over the nodes *)

Lemma GDN_process_as_run armt outflow master :
  GDN.process armt outflow master
  = gdn_run (GDN.create_nodes armt) armt outflow master.
Proof.
  unfold GDN.process, gdn_run.
  destruct (GDN.process_outflow outflow) as [out out1]. simpl fst. simpl snd.
  destruct (List.length _ =? 0)%nat; [reflexivity|].
  unfold GDN.apply_master_lookups, GDN.create_cadence.
  rewrite for_rows_map.
  destruct (for_rows _ _) as [t1|]; [|reflexivity].
  rewrite update_then_due_rows.
  destruct (for_rows _ t1) as [t3|]; [reflexivity|].
  now rewrite stopped_update.
Qed.

Lemma IAS_process_as_run armt outflow master :
  IAS.process armt outflow master
  = ias_run (IAS.create_nodes armt) armt outflow master.
Proof.
  unfold IAS.process, ias_run.
  destruct (IAS.process_outflow outflow) as [[out out1] out2].
  simpl fst. simpl snd.
  destruct (List.length _ =? 0)%nat; [reflexivity|].
  unfold IAS.apply_master_lookups, IAS.create_cadence.
  rewrite for_rows_map.
  destruct (for_rows _ _) as [t1|]; [|reflexivity].
  rewrite update_then_due_rows. unfold IAS.merge_columns.
  rewrite for_rows_map.
  destruct (for_rows _ t1) as [t3|]; [reflexivity|].
  now rewrite stopped_update.
Qed.

Lemma GDN_master_lookup_row_key {X : Type} (master : GDN.master_table)
    (r r' : Row X) :
  GDN.master_lookup_row master r = Some r' -> Key r' = Key r.
Proof.
  unfold GDN.master_lookup_row.
  destruct (previous_cadence _); [|discriminate]. now intros [= <-].
Qed.

Lemma IAS_master_lookup_row_key (master : IAS.master_table)
    (r r' : Row IAS.working_columns) :
  IAS.master_lookup_row master r = Some r' -> Key r' = Key r.
Proof.
  unfold IAS.master_lookup_row.
  destruct (previous_cadence _); [|discriminate].
  destruct (previous_cadence _); [|discriminate].
  destruct (extra r). now intros [= <-].
Qed.

Lemma last_stages_key {X : Type} (r r3 : Row X) :
  fallback (dated (scored r)) = Some r3 -> Key r3 = Key r.
Proof. intros H. now destruct (fallback_keeps _ _ H) as [-> _]. Qed.

Lemma finalize_row_key {X : Type} (r : Row X) : Key (finalize_row r) = Key r.
Proof. unfold finalize_row. now destruct (eq_int (risk_score r) 0). Qed.

Lemma IAS_merge_row_key (r : Row IAS.working_columns) :
  Key (IAS.merge_row r) = Key r.
Proof. unfold IAS.merge_row. now destruct (extra r). Qed.

Lemma gdn_run_keys nodes armt outflow master cadence filtered :
  gdn_run nodes armt outflow master = Success cadence filtered ->
  map Key cadence = nodes.
Proof.
  unfold gdn_run.
  destruct (List.length nodes =? 0)%nat; [discriminate|].
  destruct (for_rows _ nodes) as [t1|] eqn:E1; [|discriminate].
  destruct (for_rows _ t1) as [t3|] eqn:E3; [|discriminate].
  intros [= <- _]. rewrite map_map.
  transitivity (map Key t3).
  { apply map_ext. intros r. apply finalize_row_key. }
  transitivity (map Key t1).
  { apply (for_rows_column _ Key Key t1 t3) with (2 := E3).
    intros a b H. now apply last_stages_key in H. }
  transitivity (map (fun n : string => n) nodes); [|apply map_id].
  apply (for_rows_column _ (fun n => n) Key nodes t1) with (2 := E1).
  intros node b H. now apply GDN_master_lookup_row_key in H.
Qed.

Lemma ias_run_keys nodes armt outflow master cadence filtered :
  ias_run nodes armt outflow master = Success cadence filtered ->
  map Key cadence = nodes.
Proof.
  unfold ias_run.
  destruct (List.length nodes =? 0)%nat; [discriminate|].
  destruct (for_rows _ nodes) as [t1|] eqn:E1; [|discriminate].
  destruct (for_rows _ t1) as [t3|] eqn:E3; [|discriminate].
  intros [= <- _]. rewrite map_map.
  transitivity (map Key t3).
  { apply map_ext. intros r. now rewrite finalize_row_key. }
  transitivity (map Key t1).
  { apply (for_rows_column _ Key Key t1 t3) with (2 := E3).
    intros a b H. apply last_stages_key in H.
    now rewrite H, IAS_merge_row_key. }
  transitivity (map (fun n : string => n) nodes); [|apply map_id].
  apply (for_rows_column _ (fun n => n) Key nodes t1) with (2 := E1).
  intros node b H. now apply IAS_master_lookup_row_key in H.
Qed.

(** X10. The rows of the GDN Cadence table are the nodes, one row per node in the
    order [list(nodes)] gave: no child class has two rows, and a child class
    has a row exactly when one of its ARMT rows qualifies it (a source in
    the core list, under any program, or the CrossListing condition). *)
Theorem GDN_one_row_per_node
    (armt : list GDN.armt_row) (outflow : list GDN.outflow_row)
    (master : GDN.master_table) (cadence filtered : list (Row unit)) :
  lists_sets R ->
  GDN.process armt outflow master = Success cadence filtered ->
  map Key cadence = GDN.create_nodes armt
  /\ NoDup (map Key cadence)
  /\ forall k, In k (map Key cadence)
               <-> exists row, In row armt /\ GDN.child_class row = k
                               /\ code_gdn_node row = true.
Proof.
  intros HR H. rewrite GDN_process_as_run in H.
  apply gdn_run_keys in H. rewrite H.
  split; [reflexivity|]. split; [now apply set_NoDup|].
  intros k. unfold GDN.create_nodes. rewrite (set_In _ k HR).
  apply added_nodes_In.
Qed.

(** X11. The rows of the IAS Cadence table are the nodes, one row per node: no
    key has two rows, and a key has a row exactly when an AmazonGlobal row of
    the ARMT table from FR, IT or ES has it as Combined Classes or a
    CrossListing row from FR, IT, ES or MX has it as Combined Classes2.  A
    source ANY or Any, though listed in [IAS_Core], gives no node. *)
Theorem IAS_one_row_per_node
    (armt : list IAS.armt_row) (outflow : list IAS.outflow_row)
    (master : IAS.master_table) (cadence filtered : list (Row IAS.kept_columns)) :
  lists_sets R ->
  IAS.process armt outflow master = Success cadence filtered ->
  map Key cadence = IAS.create_nodes armt
  /\ NoDup (map Key cadence)
  /\ (forall k, In k (map Key cadence)
                <-> exists row, In row armt /\ ias_node row = Some k)
  /\ (forall row, IAS.a_Source row = "ANY" \/ IAS.a_Source row = "Any" ->
                  Text.mem (IAS.a_Source row) IAS.IAS_Core = true
                  /\ ias_node row = None).
Proof.
  intros HR H. rewrite IAS_process_as_run in H.
  apply ias_run_keys in H. rewrite H.
  split; [reflexivity|]. split; [now apply set_NoDup|]. split.
  - intros k. unfold IAS.create_nodes. rewrite (set_In _ k HR).
    apply ias_added_nodes_In.
  - intros row [E|E]; unfold ias_node; rewrite E; split; try reflexivity;
      simpl; rewrite !andb_false_r; reflexivity.
Qed.

(** ** No valid nodes *)

Lemma gdn_run_no_nodes nodes armt outflow master :
  gdn_run nodes armt outflow master = Failed NoValidNodes <-> nodes = [].
Proof.
  unfold gdn_run. destruct nodes as [|n nodes]; simpl.
  - tauto.
  - split; [|discriminate].
    destruct (GDN.master_lookup_row _ _); [|discriminate].
    destruct (for_rows _ nodes) as [t1|]; [|discriminate].
    destruct (for_rows _ _); [discriminate|].
    unfold stopped. destruct (existsb _ _); discriminate.
Qed.

Lemma ias_run_no_nodes nodes armt outflow master :
  ias_run nodes armt outflow master = Failed NoValidNodes <-> nodes = [].
Proof.
  unfold ias_run. destruct nodes as [|n nodes]; simpl.
  - tauto.
  - split; [|discriminate].
    destruct (IAS.master_lookup_row _ _); [|discriminate].
    destruct (for_rows _ nodes) as [t1|]; [|discriminate].
    destruct (for_rows _ _); [discriminate|].
    unfold stopped. destruct (existsb _ _); discriminate.
Qed.

Lemma no_member_nil {A : Type} (l : list A) : (forall x, ~ In x l) <-> l = [].
Proof.
  split.
  - destruct l as [|x l]; [reflexivity|]. intros H. destruct (H x). now left.
  - intros -> x [].
Qed.

(** X12. [process] ends with 'No valid ... nodes found in ARMT data' exactly when
    no row of the ARMT table qualifies a node; the outflow and the master
    table have no part in it. *)
Theorem no_valid_nodes :
  lists_sets R ->
  (forall (armt : list GDN.armt_row) (outflow : list GDN.outflow_row)
          (master : GDN.master_table),
      GDN.process armt outflow master = Failed NoValidNodes
      <-> forall row, In row armt -> code_gdn_node row = false)
  /\ (forall (armt : list IAS.armt_row) (outflow : list IAS.outflow_row)
             (master : IAS.master_table),
        IAS.process armt outflow master = Failed NoValidNodes
        <-> forall row, In row armt -> ias_node row = None).
Proof.
  intros HR. split; intros armt outflow master.
  - rewrite GDN_process_as_run, gdn_run_no_nodes.
    unfold GDN.create_nodes. rewrite (set_is_empty _ HR), <- no_member_nil.
    split.
    + intros H row Hin. destruct (code_gdn_node row) eqn:E; [|reflexivity].
      destruct (H (GDN.child_class row)). apply added_nodes_In.
      now exists row.
    + intros H k Hk. apply added_nodes_In in Hk.
      destruct Hk as [row [Hin [_ Hc]]]. rewrite (H row Hin) in Hc. discriminate.
  - rewrite IAS_process_as_run, ias_run_no_nodes.
    unfold IAS.create_nodes. rewrite (set_is_empty _ HR), <- no_member_nil.
    split.
    + intros H row Hin. destruct (ias_node row) as [k|] eqn:E; [|reflexivity].
      destruct (H k). apply ias_added_nodes_In. now exists row.
    + intros H k Hk. apply ias_added_nodes_In in Hk.
      destruct Hk as [row [Hin Hc]]. rewrite (H row Hin) in Hc. discriminate.
Qed.

End Run.

Section Rows_of_a_run.

Context {R : Runtime}.

(** ** The columns a stage leaves alone *)

Lemma risk_of_notna (score : option cell) : notna (risk_of score) = true.
Proof.
  unfold risk_of.
  destruct (notna (safe_to_numeric _)) eqn:E; [exact E | reflexivity].
Qed.

Lemma GDN_master_lookup_row_previous {X : Type} (master : GDN.master_table)
    (r r' : Row X) :
  GDN.master_lookup_row master r = Some r' ->
  exists cad due nc, r' = set_previous cad due nc r
    /\ previous_cadence
         (option_map GDN.m_Cadence_Score
            (lookup GDN.m_child_class (GDN.master_rows master) (Key r)))
       = Some cad.
Proof.
  unfold GDN.master_lookup_row.
  destruct (previous_cadence _) as [cad|]; [|discriminate].
  intros [= <-]. eauto.
Qed.

Lemma last_stages_risk {X : Type} (r r3 : Row X) :
  fallback (dated (scored r)) = Some r3 -> risk_score r3 = risk_score r.
Proof.
  intros H. destruct (fallback_keeps _ _ H) as [_ [_ [_ [E _]]]]. exact E.
Qed.

Lemma finalize_row_risk_notna {X : Type} (r : Row X) :
  notna (risk_score r) = true -> notna (risk_score (finalize_row r)) = true.
Proof.
  unfold finalize_row.
  destruct (eq_int (risk_score r) 0); simpl; [reflexivity | trivial].
Qed.

(** X13. The risk score of the Cadence table is a number and never 0: a missing
    or unreadable parent score was filled with 1 when the row was built, and
    [finalize_cadence] turns a 0 into 1. *)
Theorem risk_score_never_0 :
  (forall (armt : list GDN.armt_row) (outflow : list GDN.outflow_row)
          (master : GDN.master_table) cadence filtered,
      GDN.process armt outflow master = Success cadence filtered ->
      forall r, In r cadence ->
                notna (risk_score r) = true /\ eq_int (risk_score r) 0 = false)
  /\
  (forall (armt : list IAS.armt_row) (outflow : list IAS.outflow_row)
          (master : IAS.master_table) cadence filtered,
      IAS.process armt outflow master = Success cadence filtered ->
      forall r, In r cadence ->
                notna (risk_score r) = true /\ eq_int (risk_score r) 0 = false).
Proof.
  split; intros armt outflow master cadence filtered H r Hr.
  - destruct (GDN_process_rows _ _ _ _ _ H r Hr)
      as [node [r1 [r3 [_ [E1 [E3 ->]]]]]].
    split; [|apply finalize_row_risk_not_0].
    apply finalize_row_risk_notna.
    rewrite (last_stages_risk _ _ E3).
    apply GDN_master_lookup_row_previous in E1.
    destruct E1 as [cad [due [nc [-> _]]]]. apply risk_of_notna.
  - destruct (IAS_process_rows _ _ _ _ _ H r Hr)
      as [node [r1 [r3 [_ [E1 [E3 ->]]]]]].
    split; [|apply finalize_row_risk_not_0].
    apply finalize_row_risk_notna.
    change (risk_score (set_extra (fst (extra r3)) r3)) with (risk_score r3).
    rewrite (last_stages_risk _ _ E3).
    unfold IAS.master_lookup_row in E1.
    destruct (previous_cadence _); [|discriminate].
    destruct (previous_cadence _); [|discriminate].
    simpl in E1. injection E1 as <-. apply risk_of_notna.
Qed.

(** ** A node the master file does not know *)

Lemma safe_to_numeric_sentinel : safe_to_numeric (CText NOT_FOUND) = NaN.
Proof. now apply safe_to_numeric_not_found. Qed.

Lemma fallback_no_previous {X : Type} (r : Row X) :
  is_not_found (CText (Previous_Cadence r)) = true ->
  is_not_found (CText (Previous_Due_Date r)) = true ->
  fallback r = Some r.
Proof.
  intros Hc Hd. unfold fallback.
  destruct (is_not_found (NC_Count r)); [|reflexivity].
  rewrite Hc. simpl. now rewrite Hd.
Qed.

Lemma last_stages_no_previous {X : Type} (r1 r3 : Row X) :
  Previous_Cadence r1 = NOT_FOUND -> Previous_Due_Date r1 = NOT_FOUND ->
  fallback (dated (scored r1)) = Some r3 -> r3 = dated r1.
Proof.
  intros Hc Hd.
  assert (E : scored r1 = r1).
  { unfold scored. rewrite updated_score_no_tier.
    - apply set_Cadence_Score_same.
    - intros T _. rewrite Hc, safe_to_numeric_sentinel. reflexivity. }
  rewrite E, fallback_no_previous.
  - now intros [= <-].
  - change (Previous_Cadence (dated r1)) with (Previous_Cadence r1).
    now rewrite Hc.
  - change (Previous_Due_Date (dated r1)) with (Previous_Due_Date r1).
    now rewrite Hd.
Qed.

Lemma computed_due_date_normal {X : Type} (r : Row X) :
  date_to_string (CText (computed_due_date r)) = computed_due_date r.
Proof.
  unfold computed_due_date.
  destruct (negb (notna (safe_to_numeric (NC_Count r)))
            || is_not_found (Resolved_Date r)); [reflexivity|].
  destruct (due_days _ _) as [days|]; [|reflexivity].
  destruct (add_days_to_date_cases (CText (Resolved_Date r)) days)
    as [E|[d [_ E]]]; rewrite E.
  - reflexivity.
  - apply date_to_string_strftime.
Qed.

Lemma RISK_TO_CADENCE_finalized (x : pyfloat) :
  RISK_TO_CADENCE (if eq_int x 0 then of_int 1 else x) = RISK_TO_CADENCE x.
Proof.
  destruct (eq_int x 0) eqn:E; [|reflexivity].
  unfold RISK_TO_CADENCE. now rewrite E.
Qed.

(** What the last stages make of a row that has no previous cadence and no
    previous due date. *)
Lemma new_row_outcome {X : Type} (r1 r3 : Row X) :
  Previous_Cadence r1 = NOT_FOUND -> Previous_Due_Date r1 = NOT_FOUND ->
  Cadence_Score r1 = RISK_TO_CADENCE (risk_score r1) ->
  fallback (dated (scored r1)) = Some r3 ->
  Cadence_Score (finalize_row r3) = RISK_TO_CADENCE (risk_score (finalize_row r3))
  /\ Due_Date (finalize_row r3) = computed_due_date (finalize_row r3)
  /\ Previous_Cadence (finalize_row r3) = NOT_FOUND
  /\ Previous_Due_Date (finalize_row r3) = NOT_FOUND
  /\ Previous_NC (finalize_row r3) = Previous_NC r1.
Proof.
  intros Hc Hd Hs H. rewrite (last_stages_no_previous r1 r3 Hc Hd H).
  assert (Hrisk : risk_score (finalize_row (dated r1))
                  = if eq_int (risk_score r1) 0 then of_int 1 else risk_score r1).
  { unfold finalize_row.
    change (risk_score (dated r1)) with (risk_score r1).
    now destruct (eq_int (risk_score r1) 0). }
  assert (Hcd : computed_due_date (finalize_row (dated r1)) = computed_due_date r1).
  { unfold finalize_row.
    change (risk_score (dated r1)) with (risk_score r1).
    now destruct (eq_int (risk_score r1) 0). }
  split; [|split; [|split; [|split]]].
  - rewrite Hrisk, RISK_TO_CADENCE_finalized, finalize_row_score. exact Hs.
  - rewrite Hcd, finalize_row_due.
    change (Due_Date (dated r1)) with (computed_due_date r1).
    apply computed_due_date_normal.
  - unfold finalize_row. change (risk_score (dated r1)) with (risk_score r1).
    now destruct (eq_int (risk_score r1) 0).
  - unfold finalize_row. change (risk_score (dated r1)) with (risk_score r1).
    now destruct (eq_int (risk_score r1) 0).
  - unfold finalize_row. change (risk_score (dated r1)) with (risk_score r1).
    now destruct (eq_int (risk_score r1) 0).
Qed.

(** X14. A node the master file has no row for leaves a GDN run with the three
    Previous columns not found, the cadence score its risk score maps to,
    and the due date the first loop of [calculate_due_dates] computes from
    the row: neither a rule of [update_cadence_score] nor the fallback
    touches it. *)
Theorem GDN_node_new_to_master
    (armt : list GDN.armt_row) (outflow : list GDN.outflow_row)
    (master : GDN.master_table) (cadence filtered : list (Row unit))
    (r : Row unit) :
  GDN.process armt outflow master = Success cadence filtered ->
  In r cadence ->
  lookup GDN.m_child_class (GDN.master_rows master) (Key r) = None ->
  Cadence_Score r = RISK_TO_CADENCE (risk_score r)
  /\ Due_Date r = computed_due_date r
  /\ Previous_Cadence r = NOT_FOUND
  /\ Previous_Due_Date r = NOT_FOUND
  /\ Previous_NC r = NOT_FOUND.
Proof.
  intros H Hr Hm.
  destruct (GDN_process_rows _ _ _ _ _ H r Hr)
    as [node [r1 [r3 [_ [E1 [E3 ->]]]]]].
  rewrite finalize_row_key, (last_stages_key _ _ E3),
    (GDN_master_lookup_row_key _ _ _ E1) in Hm.
  unfold GDN.master_lookup_row in E1. rewrite Hm in E1. simpl in E1.
  assert (N : (if GDN.has_NC_Count master then NOT_FOUND else NOT_FOUND)
              = NOT_FOUND) by now destruct (GDN.has_NC_Count master).
  rewrite N in E1. injection E1 as <-.
  match type of E3 with
  | fallback (dated (scored ?x)) = _ =>
      destruct (new_row_outcome x r3 eq_refl eq_refl eq_refl E3)
        as [A [B [C [D E]]]]
  end.
  repeat split; assumption.
Qed.

(** X15. The same for an IAS run, for a node that neither key of the master file
    matches. *)
Theorem IAS_node_new_to_master
    (armt : list IAS.armt_row) (outflow : list IAS.outflow_row)
    (master : IAS.master_table) (cadence filtered : list (Row IAS.kept_columns))
    (r : Row IAS.kept_columns) :
  IAS.process armt outflow master = Success cadence filtered ->
  In r cadence ->
  lookup IAS.m_Combined_Classes (IAS.master_rows master) (Key r) = None ->
  lookup IAS.m_Combined_Classes2 (IAS.master_rows master) (Key r) = None ->
  Cadence_Score r = RISK_TO_CADENCE (risk_score r)
  /\ Due_Date r = computed_due_date r
  /\ Previous_Cadence r = NOT_FOUND
  /\ Previous_Due_Date r = NOT_FOUND
  /\ Previous_NC r = NOT_FOUND.
Proof.
  intros H Hr Hm Hm2.
  destruct (IAS_process_rows _ _ _ _ _ H r Hr)
    as [node [r1 [r3 [_ [E1 [E3 ->]]]]]].
  rewrite finalize_row_key in Hm, Hm2.
  change (Key (set_extra (fst (extra r3)) r3)) with (Key r3) in Hm, Hm2.
  rewrite (last_stages_key _ _ E3), IAS_merge_row_key,
    (IAS_master_lookup_row_key _ _ _ E1) in Hm, Hm2.
  unfold IAS.master_lookup_row in E1. rewrite Hm, Hm2 in E1. simpl in E1.
  assert (N : (if IAS.has_NC_Count master then NOT_FOUND else NOT_FOUND)
              = NOT_FOUND) by now destruct (IAS.has_NC_Count master).
  rewrite N in E1. injection E1 as <-.
  match type of E3 with
  | fallback (dated (scored ?x)) = _ =>
      destruct (new_row_outcome x r3 eq_refl eq_refl eq_refl E3)
        as [A [B [C [D E]]]]
  end.
  set (r4 := finalize_row (set_extra (fst (extra r3)) r3)).
  assert (Hrisk : risk_score r4 = risk_score (finalize_row r3)).
  { unfold r4, finalize_row.
    change (risk_score (set_extra (fst (extra r3)) r3)) with (risk_score r3).
    now destruct (eq_int (risk_score r3) 0). }
  assert (Hcd : computed_due_date r4 = computed_due_date (finalize_row r3)).
  { unfold r4, finalize_row.
    change (risk_score (set_extra (fst (extra r3)) r3)) with (risk_score r3).
    now destruct (eq_int (risk_score r3) 0). }
  assert (Hall : Cadence_Score r4 = Cadence_Score (finalize_row r3)
                 /\ Due_Date r4 = Due_Date (finalize_row r3)
                 /\ Previous_Cadence r4 = Previous_Cadence (finalize_row r3)
                 /\ Previous_Due_Date r4 = Previous_Due_Date (finalize_row r3)
                 /\ Previous_NC r4 = Previous_NC (finalize_row r3)).
  { unfold r4, finalize_row.
    change (risk_score (set_extra (fst (extra r3)) r3)) with (risk_score r3).
    now destruct (eq_int (risk_score r3) 0). }
  destruct Hall as [H1 [H2 [H3 [H4 H5]]]].
  rewrite Hrisk, Hcd, H1, H2, H3, H4, H5.
  repeat split; assumption.
Qed.

End Rows_of_a_run.

(** ** When a run returns a table *)

Section Returns.

Context {R : Runtime}.

(** A previous cadence that [int(float(...))] reads as an integer of
    int64, or that [float] refuses: no infinity, no number beyond int64. *)
Definition finite_text (s : string) : Prop :=
  forall x, is_not_found (CText s) = false -> py_float s = Some x ->
            x <> PosInf /\ x <> NegInf
            /\ forall z, py_int x = IntValue z -> fits_int64 z = true.

(** A Cadence Score of the master file that the lookups and the fallback
    take without an exception. *)
Definition finite_previous (c : cell) : Prop :=
  exists s, previous_cadence (Some c) = Some s /\ finite_text s.

Lemma finite_text_sentinel : finite_text NOT_FOUND.
Proof. intros x H. discriminate. Qed.

Lemma previous_cadence_of_lookup {A : Type} (key : A -> string) (score : A -> cell)
    (rows : list A) (k : string) :
  (forall m, In m rows -> finite_previous (score m)) ->
  exists s, previous_cadence (option_map score (lookup key rows k)) = Some s
            /\ finite_text s.
Proof.
  intros H. destruct (lookup key rows k) as [m|] eqn:E.
  - apply lookup_Some in E. destruct E as [Hin _]. apply (H m Hin).
  - exists NOT_FOUND. split; [reflexivity | apply finite_text_sentinel].
Qed.

Lemma fallback_finite {X : Type} (r : Row X) :
  finite_text (Previous_Cadence r) -> fallback r <> None.
Proof.
  intros H E. apply fallback_None in E.
  destruct E as [_ [F [x [P [[I|I] | [z [Hz Hf]]]]]]];
    destruct (H x F P) as [H1 [H2 H3]]; try contradiction.
  rewrite (H3 z Hz) in Hf. discriminate.
Qed.

Lemma merged_finite (p s : string) :
  finite_text p -> finite_text s -> finite_text (IAS.merged p s).
Proof. unfold IAS.merged. now destruct (is_not_found p). Qed.

Lemma gdn_run_succeeds nodes armt outflow master :
  nodes <> [] ->
  (forall m, In m (GDN.master_rows master) ->
             finite_previous (GDN.m_Cadence_Score m)) ->
  exists cadence filtered,
    gdn_run nodes armt outflow master = Success cadence filtered.
Proof.
  intros Hn Hm. unfold gdn_run.
  destruct nodes as [|n0 nodes0] eqn:En; [contradiction|].
  simpl Nat.eqb. cbv iota. rewrite <- En. clear Hn En n0 nodes0.
  destruct (for_rows _ nodes) as [t1|] eqn:E1.
  - destruct (for_rows _ t1) as [t3|] eqn:E3; [eauto|].
    exfalso. apply for_rows_None in E3. destruct E3 as [r1 [Hr1 F]].
    revert F. apply fallback_finite.
    change (Previous_Cadence (dated (scored r1))) with (Previous_Cadence r1).
    destruct (for_rows_In _ _ _ E1 r1 Hr1) as [node [_ F1]].
    unfold GDN.master_lookup_row in F1.
    destruct (previous_cadence_of_lookup GDN.m_child_class GDN.m_Cadence_Score
                (GDN.master_rows master)
                (Key (GDN.cadence_row armt (fst (GDN.process_outflow outflow))
                        (snd (GDN.process_outflow outflow)) node)) Hm)
      as [s [Es Fs]].
    rewrite Es in F1. injection F1 as <-. exact Fs.
  - exfalso. apply for_rows_None in E1. destruct E1 as [node [_ F1]].
    unfold GDN.master_lookup_row in F1.
    destruct (previous_cadence_of_lookup GDN.m_child_class GDN.m_Cadence_Score
                (GDN.master_rows master)
                (Key (GDN.cadence_row armt (fst (GDN.process_outflow outflow))
                        (snd (GDN.process_outflow outflow)) node)) Hm)
      as [s [Es Fs]].
    rewrite Es in F1. discriminate.
Qed.

Lemma ias_run_succeeds nodes armt outflow master :
  nodes <> [] ->
  (forall m, In m (IAS.master_rows master) ->
             finite_previous (IAS.m_Cadence_Score m)) ->
  exists cadence filtered,
    ias_run nodes armt outflow master = Success cadence filtered.
Proof.
  intros Hn Hm. unfold ias_run.
  destruct nodes as [|n0 nodes0] eqn:En; [contradiction|].
  simpl Nat.eqb. cbv iota. rewrite <- En. clear Hn En n0 nodes0.
  assert (Hrow : forall node r1,
             IAS.master_lookup_row master
               (IAS.cadence_row armt (fst (fst (IAS.process_outflow outflow)))
                  (snd (fst (IAS.process_outflow outflow)))
                  (snd (IAS.process_outflow outflow)) node) = Some r1 ->
             finite_text (Previous_Cadence (IAS.merge_row r1))).
  { intros node r1 F1. unfold IAS.master_lookup_row in F1.
    destruct (previous_cadence_of_lookup IAS.m_Combined_Classes
                IAS.m_Cadence_Score (IAS.master_rows master) node Hm)
      as [s [Es Fs]].
    destruct (previous_cadence_of_lookup IAS.m_Combined_Classes2
                IAS.m_Cadence_Score (IAS.master_rows master) node Hm)
      as [s2 [Es2 Fs2]].
    simpl Key in F1. rewrite Es, Es2 in F1. simpl in F1.
    injection F1 as <-. simpl. now apply merged_finite. }
  destruct (for_rows _ nodes) as [t1|] eqn:E1.
  - destruct (for_rows _ t1) as [t3|] eqn:E3; [eauto|].
    exfalso. apply for_rows_None in E3. destruct E3 as [r1 [Hr1 F]].
    revert F. apply fallback_finite.
    change (Previous_Cadence (dated (scored (IAS.merge_row r1))))
      with (Previous_Cadence (IAS.merge_row r1)).
    destruct (for_rows_In _ _ _ E1 r1 Hr1) as [node [_ F1]].
    now apply (Hrow node).
  - exfalso. apply for_rows_None in E1. destruct E1 as [node [_ F1]].
    unfold IAS.master_lookup_row in F1.
    destruct (previous_cadence_of_lookup IAS.m_Combined_Classes
                IAS.m_Cadence_Score (IAS.master_rows master) node Hm)
      as [s [Es Fs]].
    destruct (previous_cadence_of_lookup IAS.m_Combined_Classes2
                IAS.m_Cadence_Score (IAS.master_rows master) node Hm)
      as [s2 [Es2 Fs2]].
    simpl Key in F1. rewrite Es, Es2 in F1. simpl in F1. discriminate.
Qed.

(** X16. From the tables [process_armt] and [process_outflow] hand on, a run
    returns a Cadence table as soon as the ARMT table qualifies a node and
    every Cadence Score of the master file is, where [float] reads it, a
    finite number whose integer part fits int64 (no infinity, as a number or
    as a text, and nothing of magnitude 2^63 or more). *)
Theorem process_returns_a_table :
  lists_sets R ->
  (forall (armt : list GDN.armt_row) (outflow : list GDN.outflow_row)
          (master : GDN.master_table),
      (exists row, In row armt /\ code_gdn_node row = true) ->
      (forall m, In m (GDN.master_rows master) ->
                 finite_previous (GDN.m_Cadence_Score m)) ->
      exists cadence filtered,
        GDN.process armt outflow master = Success cadence filtered)
  /\
  (forall (armt : list IAS.armt_row) (outflow : list IAS.outflow_row)
          (master : IAS.master_table),
      (exists row k, In row armt /\ ias_node row = Some k) ->
      (forall m, In m (IAS.master_rows master) ->
                 finite_previous (IAS.m_Cadence_Score m)) ->
      exists cadence filtered,
        IAS.process armt outflow master = Success cadence filtered).
Proof.
  intros HR. split; intros armt outflow master Hnode Hm.
  - rewrite GDN_process_as_run. apply gdn_run_succeeds; [|exact Hm].
    unfold GDN.create_nodes. rewrite (set_is_empty _ HR).
    destruct Hnode as [row [Hin Hc]]. intros E.
    assert (Hk : In (GDN.child_class row) (GDN.added_nodes armt))
      by (apply added_nodes_In; now exists row).
    rewrite E in Hk. exact Hk.
  - rewrite IAS_process_as_run. apply ias_run_succeeds; [|exact Hm].
    unfold IAS.create_nodes. rewrite (set_is_empty _ HR).
    destruct Hnode as [row [k [Hin Hc]]]. intros E.
    assert (Hk : In k (IAS.added_nodes armt))
      by (apply ias_added_nodes_In; now exists row).
    rewrite E in Hk. exact Hk.
Qed.

End Returns.

(** ** [merge_columns] *)

Lemma merged_again (p s : string) :
  IAS.merged (IAS.merged p s) s = IAS.merged p s.
Proof.
  unfold IAS.merged. destruct (is_not_found p) eqn:E.
  - now destruct (is_not_found s).
  - now rewrite E.
Qed.

Lemma merged_found (p s : string) :
  is_not_found (CText (IAS.merged p s))
  = is_not_found (CText p) && is_not_found (CText s).
Proof.
  unfold IAS.merged. destruct (is_not_found p) eqn:E; [reflexivity | exact E].
Qed.

Lemma merge_row_again (r : Row IAS.working_columns) :
  IAS.merge_row (IAS.merge_row r) = IAS.merge_row r.
Proof.
  destruct r as [k p po pc so de ri re nc cs j pcad pdue pnc due [kept s]].
  unfold IAS.merge_row. simpl. now rewrite !merged_again.
Qed.

(** X17. [merge_columns] is idempotent, it leaves the key, the risk score, the
    cadence score, the JSR flag and the previous NC of every row as they
    are, and a merged column reads as not found only where the primary and
    the secondary column both did. *)
Theorem merge_columns_idempotent (Cadence : list (Row IAS.working_columns)) :
  IAS.merge_columns (IAS.merge_columns Cadence) = IAS.merge_columns Cadence
  /\ map (fun r => (Key r, risk_score r, Cadence_Score r, JSR r, Previous_NC r))
       (IAS.merge_columns Cadence)
     = map (fun r => (Key r, risk_score r, Cadence_Score r, JSR r, Previous_NC r))
         Cadence
  /\ forall p s, is_not_found (CText (IAS.merged p s))
                 = is_not_found (CText p) && is_not_found (CText s).
Proof.
  unfold IAS.merge_columns. split; [|split].
  - rewrite map_map. apply map_ext. intros r. apply merge_row_again.
  - rewrite map_map. apply map_ext. intros r.
    unfold IAS.merge_row. now destruct (extra r).
  - exact merged_found.
Qed.

Section Secondary.

Context {R : Runtime}.

Lemma risk_of_None : risk_of None = of_int 1.
Proof. reflexivity. Qed.

Lemma last_stages_same_but {X : Type} (r r3 : Row X) :
  fallback (dated (scored r)) = Some r3 -> same_but_score_and_due r r3.
Proof.
  apply fallback_same_but. unfold dated, scored.
  apply same_but_set_due, same_but_set_due, same_but_set_score, same_but_refl.
Qed.

Lemma same_but_columns {X : Type} (r r' : Row X) :
  same_but_score_and_due r r' ->
  program r' = program r /\ Policies r' = Policies r
  /\ Parent_Classes r' = Parent_Classes r /\ Source r' = Source r
  /\ Destination r' = Destination r /\ risk_score r' = risk_score r
  /\ extra r' = extra r.
Proof. intros <-. destruct r'. repeat split. Qed.

(** X18. An IAS node whose key is no Combined Classes of the ARMT table (a
    CrossListing node, keyed by Combined Classes2) takes its program, its
    policies and its classes from the row the secondary key finds, but not
    the risk score: the risk score is no merge pair, and stays the 1 the
    missing primary lookup was filled with. *)
Theorem IAS_secondary_risk_not_merged
    (armt : list IAS.armt_row) (outflow : list IAS.outflow_row)
    (master : IAS.master_table) (cadence filtered : list (Row IAS.kept_columns))
    (r : Row IAS.kept_columns) :
  IAS.process armt outflow master = Success cadence filtered ->
  In r cadence ->
  lookup IAS.combined_class armt (Key r) = None ->
  let a2 := lookup IAS.combined_class2 armt (Key r) in
  risk_score r = of_int 1
  /\ program r = text_or_not_found IAS.a_program a2
  /\ Policies r = cell_or_not_found IAS.policy_name a2
  /\ Parent_Classes r = cell_or_not_found IAS.parent_class a2
  /\ IAS.Child_Classes (extra r) = cell_or_not_found IAS.child_class a2.
Proof.
  intros H Hr Ha a2.
  destruct (IAS_process_rows _ _ _ _ _ H r Hr)
    as [node [r1 [r3 [_ [E1 [E3 ->]]]]]].
  rewrite finalize_row_key in Ha. unfold a2. rewrite finalize_row_key.
  change (Key (set_extra (fst (extra r3)) r3)) with (Key r3) in *.
  rewrite (last_stages_key _ _ E3), IAS_merge_row_key,
    (IAS_master_lookup_row_key _ _ _ E1) in *.
  simpl Key in *.
  destruct (same_but_columns _ _ (last_stages_same_but _ _ E3))
    as [K1 [K2 [K3 [_ [_ [K6 K7]]]]]].
  assert (F : risk_score (finalize_row (set_extra (fst (extra r3)) r3))
              = (if eq_int (risk_score r3) 0 then of_int 1 else risk_score r3)
              /\ program (finalize_row (set_extra (fst (extra r3)) r3)) = program r3
              /\ Policies (finalize_row (set_extra (fst (extra r3)) r3)) = Policies r3
              /\ Parent_Classes (finalize_row (set_extra (fst (extra r3)) r3))
                 = Parent_Classes r3
              /\ extra (finalize_row (set_extra (fst (extra r3)) r3))
                 = fst (extra r3)).
  { unfold finalize_row.
    change (risk_score (set_extra (fst (extra r3)) r3)) with (risk_score r3).
    now destruct (eq_int (risk_score r3) 0). }
  destruct F as [F1 [F2 [F3 [F4 F5]]]].
  rewrite F1, F2, F3, F4, F5, K1, K2, K3, K6, K7. clear F1 F2 F3 F4 F5 K1 K2 K3 K6 K7 E3.
  unfold IAS.master_lookup_row in E1.
  destruct (previous_cadence _) as [cad|]; [|discriminate].
  destruct (previous_cadence _) as [cad2|]; [|discriminate].
  injection E1 as <-.
  unfold IAS.merge_row, IAS.cadence_row. simpl. rewrite Ha. simpl.
  repeat split.
Qed.

End Secondary.

(** ** The JSR flag of GDN *)

Lemma prefix_app (p s : string) :
  prefix p s = true <-> exists b, s = (p ++ b)%string.
Proof.
  revert s. induction p as [|a p IH]; intros s.
  - split; [intros _; now exists s | intros _; now destruct s].
  - destruct s as [|c s]; simpl.
    + split; [discriminate | intros [b E]; discriminate].
    + destruct (ascii_dec a c) as [->|N].
      * rewrite IH. split; intros [b E]; exists b; [now rewrite E|].
        now injection E.
      * split; [discriminate|]. intros [b E]. injection E as E1 E2. congruence.
Qed.

Lemma contains_app (pat s : string) :
  Text.contains pat s = true <-> exists a b, s = (a ++ pat ++ b)%string.
Proof.
  induction s as [|c s IH].
  - change (Text.contains pat EmptyString) with (prefix pat EmptyString || false).
    rewrite orb_false_r, prefix_app. split.
    + intros [b E]. now exists EmptyString, b.
    + intros [a [b E]]. destruct a; [now exists b | discriminate].
  - change (Text.contains pat (String c s))
      with (prefix pat (String c s) || Text.contains pat s).
    rewrite orb_true_iff, prefix_app, IH. split.
    + intros [[b E]|[a [b E]]].
      * now exists EmptyString, b.
      * exists (String c a), b. simpl. now rewrite E.
    + intros [a [b E]]. destruct a as [|c' a].
      * left. now exists b.
      * right. injection E as _ E. now exists a, b.
Qed.

(** X19. In the GDN Cadence table the column JSR is Yes or No, and Yes exactly
    when the text _JSR or the text -JSR occurs in the Policies of the row. *)
Theorem GDN_JSR_marks_policies {R : Runtime}
    (armt : list GDN.armt_row) (outflow : list GDN.outflow_row)
    (master : GDN.master_table) (cadence filtered : list (Row unit))
    (r : Row unit) :
  GDN.process armt outflow master = Success cadence filtered ->
  In r cadence ->
  (JSR r = "Yes" \/ JSR r = "No")
  /\ (JSR r = "Yes"
      <-> exists a b, Policies r = (a ++ "_JSR" ++ b)%string
                      \/ Policies r = (a ++ "-JSR" ++ b)%string).
Proof.
  intros H Hr. rewrite (GDN_jsr_of_final_policies _ _ _ _ _ H r Hr).
  unfold jsr_flag.
  destruct (Text.contains "_JSR" (Policies r)) eqn:E1.
  - split; [now left|]. split; [|reflexivity]. intros _.
    apply contains_app in E1. destruct E1 as [a [b E]]. exists a, b. now left.
  - destruct (Text.contains "-JSR" (Policies r)) eqn:E2.
    + split; [now left|]. split; [|reflexivity]. intros _.
      apply contains_app in E2. destruct E2 as [a [b E]]. exists a, b. now right.
    + split; [now right|]. split; [discriminate|].
      intros [a [b [E|E]]].
      * assert (C : Text.contains "_JSR" (Policies r) = true)
          by (apply contains_app; now exists a, b).
        congruence.
      * assert (C : Text.contains "-JSR" (Policies r) = true)
          by (apply contains_app; now exists a, b).
        congruence.
Qed.

(** ** The NC Count of a GDN node *)





Section NC_of_a_node.

Context {R : Runtime}.








End NC_of_a_node.

(** ** Pieces of a list and blanks *)

Lemma contains_char (c : ascii) (s : string) :
  Text.contains (String c EmptyString) s = true
  <-> In c (list_ascii_of_string s).
Proof.
  induction s as [|b s IH].
  - simpl. split; [discriminate | tauto].
  - change (Text.contains (String c EmptyString) (String b s))
      with (prefix (String c EmptyString) (String b s)
            || Text.contains (String c EmptyString) s).
    rewrite orb_true_iff, IH. simpl.
    destruct (ascii_dec c b) as [->|N].
    + split; [now left | intros _; left; now destruct s].
    + split.
      * intros [H|H]; [discriminate | now right].
      * intros [H|H]; [congruence | now right].
Qed.

Lemma lstrip_chars (c : ascii) (s : string) :
  In c (list_ascii_of_string (Text.lstrip s)) -> In c (list_ascii_of_string s).
Proof.
  induction s as [|b s IH]; simpl; [tauto|].
  destruct (Text.is_space b); simpl; tauto.
Qed.

Lemma rstrip_chars (c : ascii) (s : string) :
  In c (list_ascii_of_string (Text.rstrip s)) -> In c (list_ascii_of_string s).
Proof.
  induction s as [|b s IH]; simpl; [tauto|].
  destruct (Text.rstrip s) as [|a t].
  - destruct (Text.is_space b); simpl; tauto.
  - simpl in *. tauto.
Qed.

Lemma strip_chars (c : ascii) (s : string) :
  In c (list_ascii_of_string (Text.strip s)) -> In c (list_ascii_of_string s).
Proof. intros H. now apply rstrip_chars, lstrip_chars. Qed.

Lemma split_chars (sep : ascii) (s p : string) :
  In p (Text.split sep s) -> ~ In sep (list_ascii_of_string p).
Proof.
  revert p. induction s as [|c s IH]; intros p; simpl.
  - intros [<-|[]]. simpl. tauto.
  - destruct (Ascii.eqb_spec c sep) as [->|N].
    + intros [<-|H]; [simpl; tauto | now apply IH].
    + destruct (Text.split sep s) as [|q qs].
      * intros [<-|[]]. simpl. intros [E|[]]. congruence.
      * intros [<-|H].
        -- simpl. intros [E|E]; [congruence|]. revert E. apply IH. now left.
        -- apply IH. now right.
Qed.

Lemma rstrip_idem (s : string) : Text.rstrip (Text.rstrip s) = Text.rstrip s.
Proof.
  induction s as [|c s IH]; simpl; [reflexivity|].
  destruct (Text.rstrip s) as [|a t] eqn:E.
  - destruct (Text.is_space c) eqn:Sc; simpl; [reflexivity | now rewrite Sc].
  - change (Text.rstrip (String c (String a t)))
      with (match Text.rstrip (String a t) with
            | EmptyString =>
                if Text.is_space c then EmptyString else String c EmptyString
            | u => String c u
            end).
    now rewrite IH.
Qed.

Lemma lstrip_idem (s : string) : Text.lstrip (Text.lstrip s) = Text.lstrip s.
Proof.
  induction s as [|c s IH]; simpl; [reflexivity|].
  destruct (Text.is_space c) eqn:Sc; [exact IH | simpl; now rewrite Sc].
Qed.

Lemma rstrip_lstrip_fixed (t : string) :
  Text.rstrip t = t -> Text.rstrip (Text.lstrip t) = Text.lstrip t.
Proof.
  induction t as [|c t IH]; [reflexivity|].
  intros H. simpl Text.lstrip.
  destruct (Text.is_space c) eqn:Sc; [|exact H].
  apply IH. simpl in H. destruct (Text.rstrip t) as [|a u].
  - rewrite Sc in H. discriminate.
  - now injection H.
Qed.

Lemma strip_idem (s : string) : Text.strip (Text.strip s) = Text.strip s.
Proof.
  unfold Text.strip.
  rewrite (rstrip_lstrip_fixed (Text.rstrip s) (rstrip_idem s)).
  apply lstrip_idem.
Qed.

Section IAS_armt_properties.

Context {R : Runtime}.

Lemma process_armt_In (armt : list IAS_armt.raw_row) (row : IAS.armt_row) :
  In row (IAS_armt.process_armt armt)
  <-> exists r, In r armt /\
        ((cell_is (IAS_armt.r_program r) "AmazonGlobal" = true
          /\ In row (IAS_armt.explode_core r))
         \/ (cell_is (IAS_armt.r_program r) "CrossListing" = true
             /\ In row (IAS_armt.explode_cross r))).
Proof.
  unfold IAS_armt.process_armt. rewrite in_app_iff, !in_flat_map. split.
  - intros [[r [Hr H]]|[r [Hr H]]]; apply filter_In in Hr; exists r; tauto.
  - intros [r [Hr [[P H]|[P H]]]]; [left | right]; exists r;
      rewrite filter_In; tauto.
Qed.

(** X21. Every row [process_armt] returns carries one source and one destination:
    the program is AmazonGlobal or CrossListing, the source and the
    destination hold no comma, and the source has no blank around it. *)
Theorem IAS_process_armt_single_valued
    (armt : list IAS_armt.raw_row) (row : IAS.armt_row) :
  In row (IAS_armt.process_armt armt) ->
  (IAS.a_program row = "AmazonGlobal" \/ IAS.a_program row = "CrossListing")
  /\ Text.contains "," (IAS.a_Source row) = false
  /\ Text.contains "," (IAS.a_Destination row) = false
  /\ Text.strip (IAS.a_Source row) = IAS.a_Source row.
Proof.
  intros H. apply process_armt_In in H.
  assert (Hno : forall s p, In p (Text.split "," s) ->
                            Text.contains "," (Text.strip p) = false).
  { intros s p Hp. destruct (Text.contains "," (Text.strip p)) eqn:E;
      [|reflexivity].
    apply contains_char, strip_chars in E. now apply split_chars in Hp. }
  destruct H as [r [_ [[_ H]|[_ H]]]].
  - unfold IAS_armt.explode_core in H. apply in_map_iff in H.
    destruct H as [s [<- Hs]]. simpl.
    split; [now left|]. split; [now apply (Hno _ _ Hs)|].
    split; [|apply strip_idem].
    destruct (Text.contains "," (IAS_armt.Destination r)) eqn:E;
      [reflexivity | exact E].
  - unfold IAS_armt.explode_cross in H. apply in_flat_map in H.
    destruct H as [d [Hd H]]. apply in_map_iff in H.
    destruct H as [s [<- Hs]]. simpl.
    split; [now right|]. split; [now apply (Hno _ _ Hs)|].
    split; [now apply (Hno _ _ Hd) | apply strip_idem].
Qed.

(** The key a row of the ARMT sheet gives the IAS node set for one source
    [s] and one destination [d] of its lists. *)
Definition raw_node (r : IAS_armt.raw_row) (s d : string) : option string :=
  let parent := py_str (IAS_armt.r_parent_class r) in
  let child := py_str (IAS_armt.r_child_class r) in
  if cell_is (IAS_armt.r_program r) "AmazonGlobal"
     && Text.mem (Text.strip s) ["FR"; "IT"; "ES"]
  then Some (parent ++ "," ++ child ++ "," ++ Text.strip s)%string
  else if cell_is (IAS_armt.r_program r) "CrossListing"
          && Text.mem (Text.strip s) IAS.IAS_CrossListing_Sources
  then Some (parent ++ "," ++ child ++ "," ++ Text.strip s ++ "-"
             ++ Text.strip d)%string
  else None.

Lemma cell_is_text (c : cell) (s : string) :
  cell_is c s = true -> c = CText s.
Proof.
  destruct c as [|t| |]; try discriminate. simpl. intros H.
  apply String.eqb_eq in H. now subst t.
Qed.

Lemma ias_node_core pol ch pa src dest sc :
  ias_node (IAS.mk_armt "AmazonGlobal" pol ch pa src dest sc)
  = if Text.mem src ["FR"; "IT"; "ES"]
    then Some (py_str pa ++ "," ++ py_str ch ++ "," ++ src)%string
    else None.
Proof.
  unfold ias_node, IAS.combined_class.
  cbn [IAS.a_program IAS.a_Source IAS.parent_class IAS.child_class].
  change (String.eqb "AmazonGlobal" "AmazonGlobal") with true.
  change (String.eqb "AmazonGlobal" "CrossListing") with false.
  now destruct (Text.mem src ["FR"; "IT"; "ES"]).
Qed.

Lemma ias_node_cross pol ch pa src dest sc :
  ias_node (IAS.mk_armt "CrossListing" pol ch pa src dest sc)
  = if Text.mem src IAS.IAS_CrossListing_Sources
    then Some (py_str pa ++ "," ++ py_str ch ++ "," ++ src ++ "-" ++ dest)%string
    else None.
Proof.
  unfold ias_node, IAS.combined_class2, IAS.a_ARC.
  cbn [IAS.a_program IAS.a_Source IAS.a_Destination IAS.parent_class
       IAS.child_class].
  change (String.eqb "CrossListing" "AmazonGlobal") with false.
  change (String.eqb "CrossListing" "CrossListing") with true.
  rewrite andb_false_l, andb_true_l.
  now destruct (Text.mem src IAS.IAS_CrossListing_Sources).
Qed.

Lemma raw_node_core (r : IAS_armt.raw_row) (s d : string) :
  cell_is (IAS_armt.r_program r) "AmazonGlobal" = true ->
  raw_node r s d
  = if Text.mem (Text.strip s) ["FR"; "IT"; "ES"]
    then Some (py_str (IAS_armt.r_parent_class r) ++ ","
               ++ py_str (IAS_armt.r_child_class r) ++ "," ++ Text.strip s)%string
    else None.
Proof.
  intros P. unfold raw_node. rewrite (cell_is_text _ _ P).
  change (cell_is (CText "AmazonGlobal") "AmazonGlobal") with true.
  change (cell_is (CText "AmazonGlobal") "CrossListing") with false.
  rewrite andb_true_l, andb_false_l.
  now destruct (Text.mem (Text.strip s) ["FR"; "IT"; "ES"]).
Qed.

Lemma raw_node_cross (r : IAS_armt.raw_row) (s d : string) :
  cell_is (IAS_armt.r_program r) "CrossListing" = true ->
  raw_node r s d
  = if Text.mem (Text.strip s) IAS.IAS_CrossListing_Sources
    then Some (py_str (IAS_armt.r_parent_class r) ++ ","
               ++ py_str (IAS_armt.r_child_class r) ++ ","
               ++ Text.strip s ++ "-" ++ Text.strip d)%string
    else None.
Proof.
  intros P. unfold raw_node. rewrite (cell_is_text _ _ P).
  change (cell_is (CText "CrossListing") "AmazonGlobal") with false.
  change (cell_is (CText "CrossListing") "CrossListing") with true.
  rewrite andb_true_l, andb_false_l.
  now destruct (Text.mem (Text.strip s) IAS.IAS_CrossListing_Sources).
Qed.

Lemma split_not_nil (sep : ascii) (s : string) : Text.split sep s <> [].
Proof.
  destruct s as [|c t]; simpl; [discriminate|].
  destruct (Ascii.eqb c sep); [discriminate|].
  destruct (Text.split sep t); discriminate.
Qed.

(** X22. The nodes of IAS read off the ARMT sheet: a key is a node exactly when
    some row of the sheet gives it for a source of its source list and a
    destination of its destination list.  For an AmazonGlobal row the
    destination has no part in the key. *)
Theorem IAS_nodes_of_the_sheet (armt : list IAS_armt.raw_row) (k : string) :
  lists_sets R ->
  (In k (IAS.create_nodes (IAS_armt.process_armt armt))
   <-> exists r s d,
         In r armt
         /\ In s (Text.split "," (IAS_armt.Source r))
         /\ In d (Text.split "," (IAS_armt.Destination r))
         /\ raw_node r s d = Some k).
Proof.
  intros HR. unfold IAS.create_nodes. rewrite (set_In _ k HR).
  rewrite ias_added_nodes_In. split.
  - intros [row [Hin Hk]]. apply process_armt_In in Hin.
    destruct Hin as [r [Hr [[P H]|[P H]]]].
    + unfold IAS_armt.explode_core in H. apply in_map_iff in H.
      destruct H as [s [<- Hs]].
      destruct (Text.split "," (IAS_armt.Destination r)) as [|d ds] eqn:E;
        [now apply split_not_nil in E|].
      exists r, s, d. rewrite E. repeat split; try assumption; [now left|].
      rewrite ias_node_core in Hk. now rewrite raw_node_core.
    + unfold IAS_armt.explode_cross in H. apply in_flat_map in H.
      destruct H as [d [Hd H]]. apply in_map_iff in H.
      destruct H as [s [<- Hs]].
      exists r, s, d. repeat split; try assumption.
      rewrite ias_node_cross in Hk. now rewrite raw_node_cross.
  - intros [r [s [d [Hr [Hs [Hd Hk]]]]]].
    destruct (cell_is (IAS_armt.r_program r) "AmazonGlobal") eqn:P.
    + rewrite raw_node_core in Hk by exact P.
      exists (IAS.mk_armt "AmazonGlobal" (IAS_armt.r_policy_name r)
                (IAS_armt.r_child_class r) (IAS_armt.r_parent_class r)
                (Text.strip s)
                (if Text.contains "," (IAS_armt.Destination r)
                 then "SOME" else IAS_armt.Destination r)
                (IAS_armt.r_parent_score r)).
      split; [|now rewrite ias_node_core].
      apply process_armt_In. exists r. split; [exact Hr|]. left.
      split; [exact P|]. unfold IAS_armt.explode_core.
      apply in_map_iff. now exists s.
    + destruct (cell_is (IAS_armt.r_program r) "CrossListing") eqn:P2.
      * rewrite raw_node_cross in Hk by exact P2.
        exists (IAS.mk_armt "CrossListing" (IAS_armt.r_policy_name r)
                  (IAS_armt.r_child_class r) (IAS_armt.r_parent_class r)
                  (Text.strip s) (Text.strip d) (IAS_armt.r_parent_score r)).
        split; [|now rewrite ias_node_cross].
        apply process_armt_In. exists r. split; [exact Hr|]. right.
        split; [exact P2|]. unfold IAS_armt.explode_cross.
        apply in_flat_map. exists d. split; [exact Hd|].
        apply in_map_iff. now exists s.
      * unfold raw_node in Hk. rewrite P, P2 in Hk. discriminate.
Qed.

End IAS_armt_properties.

(** ** Distinct values and sorted keys *)

Lemma unique_In (l : list string) (x : string) : In x (unique l) <-> In x l.
Proof.
  induction l as [|y l IH]; simpl; [tauto|].
  rewrite filter_In, IH. split.
  - intros [H|[H _]]; auto.
  - intros [H|H]; [now left|].
    destruct (String.eqb_spec x y) as [->|N]; [now left|].
    right. split; [exact H | reflexivity].
Qed.

Lemma unique_NoDup (l : list string) : NoDup (unique l).
Proof.
  induction l as [|y l IH]; simpl; constructor.
  - rewrite filter_In. intros [_ H]. now rewrite String.eqb_refl in H.
  - now apply NoDup_filter.
Qed.

Lemma insert_asc_perm (x : string) (l : list string) :
  Permutation (insert_asc x l) (x :: l).
Proof.
  induction l as [|y l IH]; simpl; [reflexivity|].
  destruct (Text.le x y); [reflexivity|].
  rewrite IH. apply perm_swap.
Qed.

Lemma sort_asc_perm (l : list string) : Permutation (sort_asc l) l.
Proof.
  induction l as [|x l IH]; simpl; [reflexivity|].
  rewrite insert_asc_perm. now constructor.
Qed.

Lemma find_app {A : Type} (p : A -> bool) (l1 l2 : list A) :
  find p (l1 ++ l2) = match find p l1 with
                      | Some x => Some x
                      | None => find p l2
                      end.
Proof.
  induction l1 as [|x l1 IH]; simpl; [reflexivity|].
  destruct (p x); [reflexivity | exact IH].
Qed.

Lemma hd_error_filter {A : Type} (p : A -> bool) (l : list A) :
  hd_error (filter p l) = find p l.
Proof.
  induction l as [|x l IH]; simpl; [reflexivity|].
  destruct (p x); [reflexivity | exact IH].
Qed.

Lemma NoDup_map_pair {A B : Type} (a : A) (l : list B) :
  NoDup l -> NoDup (map (pair a) l).
Proof.
  induction 1 as [|x l Hx Hl IH]; simpl; constructor; [|exact IH].
  rewrite in_map_iff. intros [y [E Hy]]. injection E as ->. contradiction.
Qed.

Section GDN_armt_properties.

Context {R : Runtime}.

(** A row of the sheet belongs to the group of [program] and [key]. *)
Definition in_group (program key : string) (r : GDN_armt.raw_row) : bool :=
  cell_is (GDN_armt.r_program r) program
  && match GDN_armt.child r with
     | Some c => String.eqb c key
     | None => false
     end.

Lemma in_group_iff (program key : string) (r : GDN_armt.raw_row) :
  in_group program key r = true
  <-> cell_is (GDN_armt.r_program r) program = true
      /\ GDN_armt.child r = Some key.
Proof.
  unfold in_group. rewrite andb_true_iff.
  destruct (GDN_armt.child r) as [c|].
  - rewrite String.eqb_eq. split; intros [H1 H2]; split; congruence.
  - split; intros [_ H]; discriminate.
Qed.

Lemma keys_In (armt : list GDN_armt.raw_row) (program k : string) :
  In k (GDN_armt.keys armt program)
  <-> exists r, In r armt /\ in_group program k r = true.
Proof.
  unfold GDN_armt.keys.
  assert (HP := sort_asc_perm
    (unique (flat_map (fun r => if cell_is (GDN_armt.r_program r) program
                                then match GDN_armt.child r with
                                     | Some c => [c]
                                     | None => []
                                     end
                                else [])
                      armt))).
  split.
  - intros H. apply (Permutation_in _ HP) in H.
    apply unique_In, in_flat_map in H. destruct H as [r [Hr H]].
    exists r. split; [exact Hr|]. apply in_group_iff.
    destruct (cell_is (GDN_armt.r_program r) program); [|destruct H].
    destruct (GDN_armt.child r) as [c|]; [|destruct H].
    destruct H as [->|[]]. auto.
  - intros [r [Hr H]]. apply in_group_iff in H. destruct H as [P C].
    apply (Permutation_in _ (Permutation_sym HP)).
    apply unique_In, in_flat_map. exists r. split; [exact Hr|].
    rewrite P, C. now left.
Qed.

Lemma keys_NoDup (armt : list GDN_armt.raw_row) (program : string) :
  NoDup (GDN_armt.keys armt program).
Proof.
  unfold GDN_armt.keys.
  apply (Permutation_NoDup (Permutation_sym (sort_asc_perm _))).
  apply unique_NoDup.
Qed.

(** The aggregate of a group, from its first row and its rows. *)
Definition aggregate_row (program key : string) (first : GDN_armt.raw_row)
    (rows : list GDN_armt.raw_row) : GDN.armt_row :=
  GDN.mk_armt key
    (String.concat ","
       (unique (map (fun r => GDN_armt.class_text (GDN_armt.r_parent_class r)) rows)))
    (String.concat ","
       (unique (map (fun r => py_str (GDN_armt.r_policy_name r)) rows)))
    program (GDN_armt.Source first) (GDN_armt.Destination first)
    (GDN_armt.first_valid (map GDN_armt.r_parent_score rows)).

Lemma aggregate_cases (armt : list GDN_armt.raw_row) (program key : string) :
  match find (in_group program key) armt with
  | Some first =>
      GDN_armt.aggregate armt program key
      = [aggregate_row program key first (filter (in_group program key) armt)]
  | None => GDN_armt.aggregate armt program key = []
  end.
Proof.
  unfold GDN_armt.aggregate, GDN_armt.group.
  change (fun r => cell_is (GDN_armt.r_program r) program
                   && match GDN_armt.child r with
                      | Some c => String.eqb c key
                      | None => false
                      end)
    with (in_group program key).
  rewrite <- hd_error_filter.
  destruct (filter (in_group program key) armt) as [|first rest]; reflexivity.
Qed.

Lemma find_in_group (armt : list GDN_armt.raw_row) (program key : string) :
  In key (GDN_armt.keys armt program)
  <-> exists first, find (in_group program key) armt = Some first.
Proof.
  rewrite keys_In. split.
  - intros [r [Hr H]]. now apply (find_exists _ _ r).
  - intros [first H]. apply find_some in H. now exists first.
Qed.

Lemma part_In (armt : list GDN_armt.raw_row) (program : string)
    (g : GDN.armt_row) :
  In g (flat_map (GDN_armt.aggregate armt program) (GDN_armt.keys armt program))
  <-> exists key first,
        find (in_group program key) armt = Some first
        /\ g = aggregate_row program key first
                 (filter (in_group program key) armt).
Proof.
  rewrite in_flat_map. split.
  - intros [key [Hk H]]. pose proof (aggregate_cases armt program key) as C.
    destruct (find (in_group program key) armt) as [first|] eqn:F.
    + rewrite C in H. destruct H as [<-|[]]. now exists key, first.
    + rewrite C in H. destruct H.
  - intros [key [first [F ->]]]. exists key. split.
    + apply find_in_group. now exists first.
    + pose proof (aggregate_cases armt program key) as C. rewrite F in C.
      rewrite C. now left.
Qed.

Lemma part_columns (armt : list GDN_armt.raw_row) (program : string) :
  map (fun g => (GDN.a_program g, GDN.child_class g))
    (flat_map (GDN_armt.aggregate armt program) (GDN_armt.keys armt program))
  = map (pair program) (GDN_armt.keys armt program).
Proof.
  assert (H : forall l, (forall k, In k l -> In k (GDN_armt.keys armt program)) ->
                        map (fun g => (GDN.a_program g, GDN.child_class g))
                          (flat_map (GDN_armt.aggregate armt program) l)
                        = map (pair program) l).
  { induction l as [|k l IH]; intros Hl; [reflexivity|].
    simpl. rewrite map_app, IH by (intros k' Hk'; apply Hl; now right).
    destruct (proj1 (find_in_group armt program k) (Hl k (or_introl eq_refl)))
      as [first F].
    pose proof (aggregate_cases armt program k) as C. rewrite F in C.
    now rewrite C. }
  now apply H.
Qed.

(** X23. [process_armt] returns one row for each program and child class that
    has a row in the sheet, and no other: the AmazonGlobal aggregates, then
    the CrossListing ones.  An aggregate carries the source, the destination
    of the first row of its group in the sheet, whatever the other rows
    hold. *)
Theorem GDN_process_armt_groups (armt : list GDN_armt.raw_row) :
  NoDup (map (fun g => (GDN.a_program g, GDN.child_class g))
           (GDN_armt.process_armt armt))
  /\ forall g, In g (GDN_armt.process_armt armt)
       <-> exists program key first,
             (program = "AmazonGlobal" \/ program = "CrossListing")
             /\ find (in_group program key) armt = Some first
             /\ g = aggregate_row program key first
                      (filter (in_group program key) armt).
Proof.
  unfold GDN_armt.process_armt. split.
  - rewrite map_app, !part_columns. apply NoDup_app.
    + apply NoDup_map_pair, keys_NoDup.
    + apply NoDup_map_pair, keys_NoDup.
    + intros x H1 H2. apply in_map_iff in H1, H2.
      destruct H1 as [a [<- _]], H2 as [b [E _]]. discriminate.
  - intros g. rewrite in_app_iff, !part_In. split.
    + intros [[key [r0 H]]|[key [r0 H]]].
      * exists "AmazonGlobal", key, r0. tauto.
      * exists "CrossListing", key, r0. tauto.
    + intros [program [key [r0 [[-> | ->] H]]]]; [left | right];
        now exists key, r0.
Qed.

End GDN_armt_properties.

Section GDN_sheet.

Context {R : Runtime}.

(** The aggregate [create_cadence] reads for a child class: the
    AmazonGlobal one when the class has an AmazonGlobal row, the
    CrossListing one otherwise. *)
Definition aggregate_of (armt : list GDN_armt.raw_row) (key : string)
  : option GDN.armt_row :=
  match find (in_group "AmazonGlobal" key) armt with
  | Some r0 =>
      Some (aggregate_row "AmazonGlobal" key r0
              (filter (in_group "AmazonGlobal" key) armt))
  | None =>
      match find (in_group "CrossListing" key) armt with
      | Some r0 =>
          Some (aggregate_row "CrossListing" key r0
                  (filter (in_group "CrossListing" key) armt))
      | None => None
      end
  end.

Lemma part_lookup (armt : list GDN_armt.raw_row) (program k : string) :
  lookup GDN.child_class
    (flat_map (GDN_armt.aggregate armt program) (GDN_armt.keys armt program)) k
  = option_map
      (fun r0 => aggregate_row program k r0 (filter (in_group program k) armt))
      (find (in_group program k) armt).
Proof.
  unfold lookup.
  assert (H : forall l,
             find (fun g => String.eqb (GDN.child_class g) k)
               (flat_map (GDN_armt.aggregate armt program) l)
             = if existsb (String.eqb k) l
               then option_map
                      (fun r0 => aggregate_row program k r0
                                   (filter (in_group program k) armt))
                      (find (in_group program k) armt)
               else None).
  { induction l as [|y l IH]; [reflexivity|].
    simpl flat_map. rewrite find_app, IH. simpl existsb.
    pose proof (aggregate_cases armt program y) as C.
    destruct (find (in_group program y) armt) as [r0|] eqn:F; rewrite C.
    - simpl find. destruct (String.eqb_spec y k) as [->|N].
      + rewrite String.eqb_refl, F. reflexivity.
      + destruct (String.eqb_spec k y) as [->|_]; [contradiction|].
        reflexivity.
    - simpl find. destruct (String.eqb_spec k y) as [->|_]; [|reflexivity].
      rewrite F. simpl. now destruct (existsb (String.eqb y) l). }
  rewrite H.
  destruct (existsb (String.eqb k) (GDN_armt.keys armt program)) eqn:E;
    [reflexivity|].
  destruct (find (in_group program k) armt) as [r0|] eqn:F; [|reflexivity].
  exfalso.
  assert (Hk : In k (GDN_armt.keys armt program))
    by (apply find_in_group; now exists r0).
  assert (E' : existsb (String.eqb k) (GDN_armt.keys armt program) = true).
  { apply existsb_exists. exists k. split; [exact Hk | apply String.eqb_refl]. }
  congruence.
Qed.

Lemma process_armt_lookup (armt : list GDN_armt.raw_row) (k : string) :
  lookup GDN.child_class (GDN_armt.process_armt armt) k = aggregate_of armt k.
Proof.
  unfold GDN_armt.process_armt.
  assert (E : forall l1 l2,
             lookup GDN.child_class (l1 ++ l2) k
             = match lookup GDN.child_class l1 k with
               | Some x => Some x
               | None => lookup GDN.child_class l2 k
               end) by (intros; apply find_app).
  rewrite E, !part_lookup. unfold aggregate_of.
  destruct (find (in_group "AmazonGlobal" k) armt); [reflexivity|].
  destruct (find (in_group "CrossListing" k) armt); reflexivity.
Qed.

Lemma GDN_row_of_node (armt : list GDN.armt_row) (outflow : list GDN.outflow_row)
    (master : GDN.master_table) (cadence filtered : list (Row unit))
    (r : Row unit) :
  GDN.process armt outflow master = Success cadence filtered ->
  In r cadence ->
  In (Key r) (GDN.create_nodes armt)
  /\ program r = text_or_not_found GDN.a_program (lookup GDN.child_class armt (Key r))
  /\ Source r = text_or_not_found GDN.a_Source (lookup GDN.child_class armt (Key r))
  /\ Destination r
     = text_or_not_found GDN.a_Destination (lookup GDN.child_class armt (Key r))
  /\ NC_Count r
     = nc_count (lookup fst (snd (GDN.process_outflow outflow)) (Key r)).
Proof.
  intros H Hr.
  destruct (GDN_process_rows _ _ _ _ _ H r Hr)
    as [node [r1 [r3 [Hn [E1 [E3 ->]]]]]].
  rewrite finalize_row_key, (last_stages_key _ _ E3),
    (GDN_master_lookup_row_key _ _ _ E1).
  simpl Key. split; [exact Hn|].
  destruct (same_but_columns _ _ (last_stages_same_but _ _ E3))
    as [K1 [_ [_ [K4 [K5 _]]]]].
  destruct (fallback_keeps _ _ E3) as [_ [_ [_ [_ [_ [K6 _]]]]]].
  assert (F : program (finalize_row r3) = program r3
              /\ Source (finalize_row r3) = Source r3
              /\ Destination (finalize_row r3) = Destination r3
              /\ NC_Count (finalize_row r3) = NC_Count r3).
  { unfold finalize_row. now destruct (eq_int (risk_score r3) 0). }
  destruct F as [F1 [F2 [F3 F4]]]. rewrite F1, F2, F3, F4, K1, K4, K5, K6.
  apply GDN_master_lookup_row_previous in E1.
  destruct E1 as [cad [due [nc [-> _]]]].
  repeat split.
Qed.

(** X24. A row of the GDN Cadence table shows the program, the source and the
    destination of the aggregate [create_cadence] finds first for its child
    class: the AmazonGlobal aggregate when the class has an AmazonGlobal
    row in the sheet, the CrossListing one otherwise; and within the
    aggregate, of the first row of the class in the sheet. *)
Theorem GDN_cadence_reads_first_row
    (armt : list GDN_armt.raw_row) (outflow : list GDN.outflow_row)
    (master : GDN.master_table) (cadence filtered : list (Row unit))
    (r : Row unit) :
  GDN.process (GDN_armt.process_armt armt) outflow master
  = Success cadence filtered ->
  In r cadence ->
  match find (in_group "AmazonGlobal" (Key r)) armt,
        find (in_group "CrossListing" (Key r)) armt with
  | Some r0, _ =>
      program r = "AmazonGlobal"
      /\ Source r = GDN_armt.Source r0
      /\ Destination r = GDN_armt.Destination r0
  | None, Some r0 =>
      program r = "CrossListing"
      /\ Source r = GDN_armt.Source r0
      /\ Destination r = GDN_armt.Destination r0
  | None, None => program r = NOT_FOUND
  end.
Proof.
  intros H Hr.
  destruct (GDN_row_of_node _ _ _ _ _ r H Hr) as [_ [P [S [D _]]]].
  rewrite process_armt_lookup in P, S, D. unfold aggregate_of in P, S, D.
  destruct (find (in_group "AmazonGlobal" (Key r)) armt) as [r0|].
  - auto.
  - destruct (find (in_group "CrossListing" (Key r)) armt) as [r0|]; auto.
Qed.

(** ** The key No-Child *)




End GDN_sheet.

(** ** The rows [cadence_filtered] leaves out *)

Lemma is_tier_positive (z : Z) : is_tier z = true -> 0 < z.
Proof.
  intros H. apply is_tier_iff in H. unfold tiers in H. simpl in H.
  destruct H as [<-|[<-|[<-|[<-|[<-|[]]]]]]; lia.
Qed.

Lemma same_but_more {X : Type} (r r' : Row X) :
  same_but_score_and_due r r' ->
  NC_Count r' = NC_Count r /\ Previous_Cadence r' = Previous_Cadence r
  /\ Previous_Due_Date r' = Previous_Due_Date r /\ Previous_NC r' = Previous_NC r.
Proof. intros <-. destruct r'. repeat split. Qed.

Section Filtered.

Context {R : Runtime}.

(** What the last stages keep of a row whose score is a tier: a positive
    score, or a score the fallback carried over. *)
Lemma last_stages_score {X : Type} (r1 r3 : Row X) :
  is_tier (Cadence_Score r1) = true ->
  fallback (dated (scored r1)) = Some r3 ->
  0 < Cadence_Score r3
  \/ (is_not_found (NC_Count r3) = true
      /\ is_not_found (Previous_Cadence r3) = false
      /\ exists x, py_float (Previous_Cadence r3) = Some x
                   /\ py_int x = IntValue (Cadence_Score r3)).
Proof.
  intros Ht H.
  destruct (same_but_more _ _ (last_stages_same_but _ _ H)) as [Kn [Kp _]].
  destruct (fallback_score _ _ H) as [E|[N [P [x [Hx Hi]]]]].
  - left. rewrite E. apply is_tier_positive.
    now apply updated_score_is_tier.
  - right. rewrite Kn, Kp. eauto.
Qed.

Lemma finalize_row_carried {X : Type} (r : Row X) :
  Cadence_Score (finalize_row r) = Cadence_Score r
  /\ NC_Count (finalize_row r) = NC_Count r
  /\ Previous_Cadence (finalize_row r) = Previous_Cadence r.
Proof. unfold finalize_row. now destruct (eq_int (risk_score r) 0). Qed.

(** X26. [cadence_filtered] is [cadence] without the rows whose score is not
    positive, and such a row is always one the fallback wrote: a row with
    no NC Count, whose score is the integer part of its Previous Cadence,
    an integer of int64.  A score the rules computed is never filtered
    out. *)
Theorem filtered_rows_were_carried_forward :
  (forall (armt : list GDN.armt_row) (outflow : list GDN.outflow_row)
          (master : GDN.master_table) cadence filtered,
      GDN.process armt outflow master = Success cadence filtered ->
      filtered = filter (fun r => 0 <? Cadence_Score r) cadence
      /\ forall r, In r cadence -> ~ In r filtered ->
           Cadence_Score r <= 0
           /\ fits_int64 (Cadence_Score r) = true
           /\ is_not_found (NC_Count r) = true
           /\ is_not_found (Previous_Cadence r) = false
           /\ exists x, py_float (Previous_Cadence r) = Some x
                        /\ py_int x = IntValue (Cadence_Score r))
  /\
  (forall (armt : list IAS.armt_row) (outflow : list IAS.outflow_row)
          (master : IAS.master_table) cadence filtered,
      IAS.process armt outflow master = Success cadence filtered ->
      filtered = filter (fun r => 0 <? Cadence_Score r) cadence
      /\ forall r, In r cadence -> ~ In r filtered ->
           Cadence_Score r <= 0
           /\ fits_int64 (Cadence_Score r) = true
           /\ is_not_found (NC_Count r) = true
           /\ is_not_found (Previous_Cadence r) = false
           /\ exists x, py_float (Previous_Cadence r) = Some x
                        /\ py_int x = IntValue (Cadence_Score r)).
Proof.
  split; intros armt outflow master cadence filtered H.
  - assert (Hf : filtered = filter (fun r => 0 <? Cadence_Score r) cadence).
    { rewrite GDN_process_as_run in H. unfold gdn_run in H.
      destruct (List.length _ =? 0)%nat; [discriminate|].
      destruct (for_rows _ _) as [t1|]; [|discriminate].
      destruct (for_rows _ t1) as [t3|]; [|discriminate].
      now injection H as <- <-. }
    split; [exact Hf|]. intros r Hr Hn.
    assert (Hs : Cadence_Score r <= 0).
    { destruct (Z.ltb_spec 0 (Cadence_Score r)) as [L|L]; [|exact L].
      exfalso. apply Hn. rewrite Hf. apply filter_In. split; [exact Hr|].
      now apply Z.ltb_lt. }
    split; [exact Hs|].
    destruct (GDN_process_rows _ _ _ _ _ H r Hr)
      as [node [r1 [r3 [_ [E1 [E3 ->]]]]]].
    destruct (finalize_row_carried r3) as [F1 [F2 F3]].
    rewrite F1, F2, F3 in *.
    assert (Ht : is_tier (Cadence_Score r1) = true).
    { apply GDN_master_lookup_row_previous in E1.
      destruct E1 as [cad [due [nc [-> _]]]]. apply RISK_TO_CADENCE_tier. }
    split; [exact (last_stages_fit _ _ Ht E3)|].
    destruct (last_stages_score r1 r3 Ht E3) as [L|L]; [lia | exact L].
  - assert (Hf : filtered = filter (fun r => 0 <? Cadence_Score r) cadence).
    { rewrite IAS_process_as_run in H. unfold ias_run in H.
      destruct (List.length _ =? 0)%nat; [discriminate|].
      destruct (for_rows _ _) as [t1|]; [|discriminate].
      destruct (for_rows _ t1) as [t3|]; [|discriminate].
      now injection H as <- <-. }
    split; [exact Hf|]. intros r Hr Hn.
    assert (Hs : Cadence_Score r <= 0).
    { destruct (Z.ltb_spec 0 (Cadence_Score r)) as [L|L]; [|exact L].
      exfalso. apply Hn. rewrite Hf. apply filter_In. split; [exact Hr|].
      now apply Z.ltb_lt. }
    split; [exact Hs|].
    destruct (IAS_process_rows _ _ _ _ _ H r Hr)
      as [node [r1 [r3 [_ [E1 [E3 ->]]]]]].
    destruct (finalize_row_carried (set_extra (fst (extra r3)) r3))
      as [F1 [F2 F3]].
    rewrite F1, F2, F3 in *.
    change (Cadence_Score (set_extra (fst (extra r3)) r3))
      with (Cadence_Score r3) in *.
    change (NC_Count (set_extra (fst (extra r3)) r3)) with (NC_Count r3).
    change (Previous_Cadence (set_extra (fst (extra r3)) r3))
      with (Previous_Cadence r3).
    assert (Ht : is_tier (Cadence_Score (IAS.merge_row r1)) = true).
    { unfold IAS.master_lookup_row in E1.
      destruct (previous_cadence _); [|discriminate].
      destruct (previous_cadence _); [|discriminate].
      simpl in E1. injection E1 as <-. apply RISK_TO_CADENCE_tier. }
    split; [exact (last_stages_fit _ _ Ht E3)|].
    destruct (last_stages_score (IAS.merge_row r1) r3 Ht E3) as [L|L];
      [lia | exact L].
Qed.

End Filtered.

(** ** The rules of [update_cadence_score] as a decision table *)

Section Rules.

Context {R : Runtime} {X : Type}.

Lemma updated_score_rules (r : Row X) :
  updated_score r = apply_rules (rules r) (Cadence_Score r).
Proof. reflexivity. Qed.

Lemma apply_rules_none (l : list (bool * Z)) (score : Z) :
  filter fst l = [] -> apply_rules l score = score.
Proof.
  revert score. induction l as [|[c v] l IH]; intros score; [reflexivity|].
  simpl. destruct c; [discriminate|]. intros H. now apply IH.
Qed.

Lemma apply_rules_one (l : list (bool * Z)) (score : Z) :
  (List.length (filter fst l) <= 1)%nat ->
  apply_rules l score = match filter fst l with
                        | (_, v) :: _ => v
                        | [] => score
                        end.
Proof.
  revert score. induction l as [|[c v] l IH]; intros score; [reflexivity|].
  simpl. destruct c; simpl.
  - intros H. apply apply_rules_none.
    destruct (filter fst l); [reflexivity | simpl in H; lia].
  - intros H. now apply IH.
Qed.

(** The tier the Previous Cadence reads as, when it reads as one. *)
Lemma previous_tier_cases (x : pyfloat) :
  (exists T, In T tiers /\ eq_int x T = true
             /\ forall T', In T' tiers -> T' <> T -> eq_int x T' = false)
  \/ (forall T, In T tiers -> eq_int x T = false).
Proof.
  destruct (eq_int x 30) eqn:E30;
    [left; exists 30; repeat split; [simpl; tauto | exact E30 |
       intros T' _ N; now apply (eq_int_other x 30)] |].
  destruct (eq_int x 60) eqn:E60;
    [left; exists 60; repeat split; [simpl; tauto | exact E60 |
       intros T' _ N; now apply (eq_int_other x 60)] |].
  destruct (eq_int x 90) eqn:E90;
    [left; exists 90; repeat split; [simpl; tauto | exact E90 |
       intros T' _ N; now apply (eq_int_other x 90)] |].
  destruct (eq_int x 180) eqn:E180;
    [left; exists 180; repeat split; [simpl; tauto | exact E180 |
       intros T' _ N; now apply (eq_int_other x 180)] |].
  destruct (eq_int x 365) eqn:E365;
    [left; exists 365; repeat split; [simpl; tauto | exact E365 |
       intros T' _ N; now apply (eq_int_other x 365)] |].
  right. intros T [<-|[<-|[<-|[<-|[<-|[]]]]]]; assumption.
Qed.

Lemma rules_exclusive (r : Row X) :
  (List.length (filter fst (rules r)) <= 1)%nat.
Proof.
  unfold rules.
  set (pc := safe_to_numeric (Previous_Cadence r)).
  set (nc := safe_to_numeric (NC_Count r)).
  set (pnc := safe_to_numeric (Previous_NC r)).
  set (risk := risk_score r).
  cbv zeta. rewrite !lt_int_ge_int.
  pose proof (isin_123_45 risk) as Hrisk.
  set (has_nc := notna nc) in *. set (has_pnc := notna pnc) in *.
  set (g10 := ge_int nc 10) in *. set (g15 := ge_int nc 15) in *.
  set (p10 := ge_int pnc 10) in *. set (p15 := ge_int pnc 15) in *.
  set (low := isin risk [1; 2; 3]) in *. set (high := isin risk [4; 5]) in *.
  set (four := eq_int risk 4) in *.
  destruct (previous_tier_cases pc) as [[T [HT [E Hother]]]|Hnone].
  - simpl in HT.
    destruct HT as [<-|[<-|[<-|[<-|[<-|[]]]]]]; rewrite E;
      repeat match goal with
        | |- context [eq_int pc ?b] =>
            rewrite (Hother b) by (simpl; first [tauto | lia])
        end;
      rewrite ?andb_false_r; cbn [andb];
      destruct (notna pc); cbn [andb filter fst List.length]; try lia;
      destruct has_nc, g10, g15, has_pnc, p10, p15;
        cbn [andb negb filter fst List.length]; try lia;
      destruct low; try (rewrite (Hrisk eq_refl));
        cbn [andb negb filter fst List.length]; try lia;
      destruct high, four; cbn [andb negb filter fst List.length]; lia.
  - rewrite (Hnone 30), (Hnone 60), (Hnone 90), (Hnone 180), (Hnone 365)
      by (simpl; tauto).
    rewrite !andb_false_r. cbn [andb filter fst List.length]. lia.
Qed.

(** X27. The statements of [update_cadence_score] are a decision table: on any
    row at most one condition holds, so the order of the statements has no
    part in the result; the new score is the score of the condition that
    holds, and the old score when none does. *)
Theorem update_rules_are_exclusive (r : Row X) :
  (List.length (filter fst (rules r)) <= 1)%nat
  /\ updated_score r = match filter fst (rules r) with
                       | (_, v) :: _ => v
                       | [] => Cadence_Score r
                       end
  /\ forall l, Permutation l (rules r) ->
               apply_rules l (Cadence_Score r) = updated_score r.
Proof.
  pose proof (rules_exclusive r) as H.
  split; [exact H|]. split.
  - rewrite updated_score_rules. now apply apply_rules_one.
  - intros l HP. rewrite updated_score_rules.
    assert (HF : Permutation (filter fst l) (filter fst (rules r)))
      by now apply filter_perm.
    rewrite !apply_rules_one; [| exact H |
      rewrite (Permutation_length HF); exact H].
    destruct (filter fst (rules r)) as [|[c v] [|b t]] eqn:E.
    + apply Permutation_sym, Permutation_nil in HF. now rewrite HF.
    + apply Permutation_sym, Permutation_length_1_inv in HF. now rewrite HF.
    + simpl in H. lia.
Qed.

End Rules.

Section Monotone.

Context {R : Runtime} {X : Type}.

Lemma isin_1_to_5 (x : pyfloat) :
  isin x [1; 2; 3; 4; 5] = isin x [1; 2; 3] || isin x [4; 5].
Proof.
  unfold isin. simpl. now rewrite !orb_false_r, !orb_assoc.
Qed.

(** X28. More non-compliances never lengthen the interval: of two rows with the
    same previous cadence (a tier), previous NC and risk score (1 to 5), the
    one with the greater NC Count leaves [update_cadence_score] with a score
    that is not greater. *)
Theorem more_nc_never_a_longer_interval (r r' : Row X) (T : Z) :
  In T tiers ->
  eq_int (safe_to_numeric (Previous_Cadence r)) T = true ->
  Previous_Cadence r' = Previous_Cadence r ->
  Previous_NC r' = Previous_NC r ->
  risk_score r' = risk_score r ->
  isin (risk_score r) [1; 2; 3; 4; 5] = true ->
  notna (safe_to_numeric (NC_Count r)) = true ->
  notna (safe_to_numeric (NC_Count r')) = true ->
  (forall k, ge_int (safe_to_numeric (NC_Count r)) k = true ->
             ge_int (safe_to_numeric (NC_Count r')) k = true) ->
  updated_score r' <= updated_score r.
Proof.
  intros HT E Epc Epnc Erisk Hrisk Hn Hn' Hmono.
  rewrite (updated_score_tier T r HT E).
  rewrite (updated_score_tier T r' HT) by now rewrite Epc.
  unfold tier_outcome. rewrite Epnc, Erisk, Hn, Hn'.
  rewrite isin_1_to_5 in Hrisk.
  set (nc := safe_to_numeric (NC_Count r)) in *.
  set (nc' := safe_to_numeric (NC_Count r')) in *.
  set (pnc := safe_to_numeric (Previous_NC r)).
  set (risk := risk_score r) in *.
  set (hold := notna pnc && ge_int pnc (Spec.threshold T)).
  pose proof (Hmono (Spec.threshold T)) as HK.
  unfold Spec.promoted, Spec.tier_below.
  destruct (ge_int nc (Spec.threshold T)) eqn:G.
  - rewrite (HK eq_refl). apply Z.le_refl.
  - clear HK. simpl in HT.
    destruct HT as [<-|[<-|[<-|[<-|[<-|[]]]]]]; cbn [Z.eqb Pos.eqb];
      destruct (ge_int nc' _); destruct hold; try lia.
    + destruct (isin risk [1; 2; 3]); [lia|].
      destruct (isin risk [4; 5]); [lia | discriminate].
    + destruct (isin risk [1; 2; 3]); [lia|].
      destruct (isin risk [4; 5]); [lia | discriminate].
    + destruct (eq_int risk 4); lia.
    + destruct (eq_int risk 4); lia.
Qed.

End Monotone.

(** ** [to_string_safe] *)

Section To_string.

Context {R : Runtime}.

(** X29. [to_string_safe] answers the sentinel exactly on the values
    [is_not_found] takes for missing, and otherwise a text that does not
    read as missing: a second pass changes nothing. *)
Theorem to_string_safe_keeps_found (value : cell) :
  prints_floats R ->
  (to_string_safe value = NOT_FOUND <-> is_not_found value = true)
  /\ is_not_found (CText (to_string_safe value)) = is_not_found value
  /\ to_string_safe (CText (to_string_safe value)) = to_string_safe value.
Proof.
  intros HR.
  assert (H : is_not_found value = true /\ to_string_safe value = NOT_FOUND
              \/ is_not_found value = false
                 /\ is_not_found (CText (to_string_safe value)) = false).
  { unfold to_string_safe. destruct (is_not_found value) eqn:F; [now left|].
    right. split; [reflexivity|].
    destruct value as [|s|x|d].
    - discriminate.
    - exact F.
    - unfold is_not_found in F. cbn [isna] in *.
      destruct (notna x) eqn:N; [|discriminate]. cbn [negb py_str].
      now apply HR.
    - apply plain_head_found, strftime_plain. }
  destruct H as [[F E]|[F E]].
  - rewrite E, F. repeat split; reflexivity.
  - rewrite F. split; [|split; [exact E|]].
    + split; [|discriminate]. intros N. rewrite N in E. discriminate.
    + unfold to_string_safe at 1. now rewrite E.
Qed.

End To_string.

(* ================================================================== *)
(** * Sample runs *)
(* ================================================================== *)

(** A row of a Cadence table before the last stages. *)
Definition example_row (risk score : Z)
    (resolved nc prev_cad prev_due prev_nc : string) : Row unit :=
  mkRow "Cables" "AmazonGlobal" "Policy_JSR" "Electronics" "DE" "Any"
    (of_int risk) resolved nc score (jsr_flag "Policy_JSR")
    prev_cad prev_due prev_nc NOT_FOUND tt.

(** A GDN ARMT table of one node, with a parent score of 0. *)
Definition example_gdn_armt : list GDN.armt_row :=
  [GDN.mk_armt "Cables" "Electronics" "Policy_JSR" "AmazonGlobal" "DE" "Any"
     (CNum (of_int 0))].

(** Two outflow rows of the node and one whose child class is its parent
    class. *)
Definition example_gdn_outflow : list GDN.outflow_row :=
  [GDN.mk_outflow "Cables" "Electronics" (Some (mkdate 2024 1 5)) (of_int 3) 0;
   GDN.mk_outflow "Cables" "Electronics" (Some (mkdate 2024 2 7)) (of_int 2) 1;
   GDN.mk_outflow "Electronics" "Electronics" (Some (mkdate 2024 3 1)) (of_int 9) 0].

(** A GDN master file that knows another node only. *)
Definition example_gdn_master : GDN.master_table :=
  GDN.mk_master_table true
    [GDN.mk_master "Chargers" (CNum (of_int 60)) (CText "2024-03-15") (CNum (of_int 4))].

(** A GDN master file that carries a score of 0 for the node. *)
Definition example_gdn_master_0 : GDN.master_table :=
  GDN.mk_master_table true
    [GDN.mk_master "Cables" (CNum (of_int 0)) (CText "2024-03-15") (CNum (of_int 4))].

(** An ARMT table with no row for GDN. *)
Definition example_gdn_armt_jp : list GDN.armt_row :=
  [GDN.mk_armt "Cables" "Electronics" "Policy" "AmazonGlobal" "JP" "Any"
     (CNum (of_int 2))].

(** An IAS ARMT table: one CrossListing row from FR to UK. *)
Definition example_ias_armt : list IAS.armt_row :=
  [IAS.mk_armt "CrossListing" (CText "Policy") (CText "Cables")
     (CText "Electronics") "FR" "UK" (CNum (of_int 4))].

Definition example_ias_master : IAS.master_table :=
  IAS.mk_master_table true
    [IAS.mk_master (CText "Electronics") (CText "Chargers") (CText "FR")
       (CText "FR-UK") (CNum (of_int 60)) (CText "2024-03-15") (CNum (of_int 4))].

(** A row of the IAS ARMT sheet with two sources and two destinations. *)
Definition example_ias_sheet : list IAS_armt.raw_row :=
  [IAS_armt.mk_raw (CText "CrossListing") (CText "Policy") (CText "Cables")
     (CText "Electronics") (CText "DE, FR") (CText "UK,TR") (CNum (of_int 4))].

(** A GDN ARMT sheet: a class with two AmazonGlobal rows, a No-Child row. *)
Definition example_gdn_sheet : list GDN_armt.raw_row :=
  [GDN_armt.mk_raw (CText "AmazonGlobal") (CText "Policy A") (Some "Cables")
     (Some "Electronics") (CText "DE") (CText "Any") (CNum (of_int 2));
   GDN_armt.mk_raw (CText "AmazonGlobal") (CText "Policy B") (Some "Cables")
     (Some "Electronics") (CText "JP") (CText "US") (CNum (of_int 3));
   GDN_armt.mk_raw (CText "AmazonGlobal") (CText "Policy C") (Some "No-Child")
     (Some "Electronics") (CText "DE") (CText "Any") (CNum (of_int 5))].

Lemma update_cadence_score_needs_previous_tier_witness :
  nth_error
    (update_cadence_score (R := reference_runtime)
       [example_row 3 90 "2024-01-10" "12.0" "45" NOT_FOUND NOT_FOUND]) 0
  = Some (example_row 3 90 "2024-01-10" "12.0" "45" NOT_FOUND NOT_FOUND).
Proof.
  apply (update_cadence_score_needs_previous_tier (R := reference_runtime)
           [example_row 3 90 "2024-01-10" "12.0" "45" NOT_FOUND NOT_FOUND] 0).
  - reflexivity.
  - intros T [<-|[<-|[<-|[<-|[<-|[]]]]]]; vm_compute; reflexivity.
Defined.

Lemma calculate_due_dates_raises_witness :
  calculate_due_dates (R := reference_runtime)
    [example_row 3 90 NOT_FOUND NOT_FOUND "inf" NOT_FOUND NOT_FOUND]
  = None.
Proof.
  assert (Hfit : forall r,
             In r [example_row 3 90 NOT_FOUND NOT_FOUND "inf" NOT_FOUND NOT_FOUND] ->
             exceeds_int64 (R := reference_runtime) r = false)
    by (intros r [<-|[]]; vm_compute; reflexivity).
  apply (proj2 (calculate_due_dates_raises (R := reference_runtime) _ Hfit)).
  eexists. split; [left; reflexivity|].
  split; [reflexivity|]. split; [reflexivity|].
  exists PosInf. split; [vm_compute; reflexivity | left; reflexivity].
Defined.

(** A master file whose Cadence Score for the node is 10^19: the run is
    one the model does not follow. *)
Definition example_gdn_master_big : GDN.master_table :=
  GDN.mk_master_table true
    [GDN.mk_master "Cables" (CText "10000000000000000000") (CText "2024-03-15")
       (CNum (of_int 4))].

Lemma beyond_int64_example :
  GDN.process (R := reference_runtime) example_gdn_armt [] example_gdn_master_big
  = Failed Int64Overflow.
Proof. vm_compute. reflexivity. Qed.

Lemma due_days_bounds_witness :
  is_tier 60 = true /\ 60 <= 90 /\
  (60 < 90 <->
   (ge_int (of_int 12) 10 = true /\ (90 = 60 \/ 90 = 90)) \/
   (ge_int (of_int 12) 15 = true /\ (90 = 180 \/ 90 = 365))).
Proof.
  apply (proj2 (proj2 (due_days_bounds (of_int 12) 90)) 60). reflexivity.
Defined.

Lemma calculate_due_dates_keeps_witness :
  exists Out,
    calculate_due_dates (R := reference_runtime)
      [example_row 3 90 "2024-01-10" "12.0" "90" "2024-03-01" "0.0"] = Some Out
    /\ List.length Out = 1%nat.
Proof.
  eexists. split; [vm_compute; reflexivity|].
  apply (calculate_due_dates_keeps (R := reference_runtime)
           [example_row 3 90 "2024-01-10" "12.0" "90" "2024-03-01" "0.0"]).
  vm_compute. reflexivity.
Defined.

Lemma is_not_found_ignores_blanks_and_case_witness :
  is_not_found (CText ("  " ++ "NOT FOUND!" ++ " ")) = is_not_found (CText NOT_FOUND)
  /\ is_not_found (CText NOT_FOUND) = true.
Proof.
  split; [|reflexivity].
  apply (is_not_found_ignores_blanks_and_case NOT_FOUND "NOT FOUND!" "  " " ");
    reflexivity.
Defined.

Lemma GDN_one_row_per_node_witness :
  exists cadence filtered,
    GDN.process (R := reference_runtime) example_gdn_armt example_gdn_outflow
      example_gdn_master = Success cadence filtered
    /\ map Key cadence = GDN.create_nodes (R := reference_runtime) example_gdn_armt
    /\ NoDup (map Key cadence).
Proof.
  eexists _, _. split; [vm_compute; reflexivity|].
  assert (H : GDN.process (R := reference_runtime) example_gdn_armt
                example_gdn_outflow example_gdn_master = Success _ _)
    by (vm_compute; reflexivity).
  destruct (GDN_one_row_per_node (R := reference_runtime) example_gdn_armt
              example_gdn_outflow example_gdn_master _ _ reference_lists_sets H)
    as [A [B _]].
  split; [exact A | exact B].
Defined.

Lemma IAS_one_row_per_node_witness :
  exists cadence filtered,
    IAS.process (R := reference_runtime) example_ias_armt [] example_ias_master
    = Success cadence filtered
    /\ map Key cadence = IAS.create_nodes (R := reference_runtime) example_ias_armt
    /\ NoDup (map Key cadence).
Proof.
  eexists _, _. split; [vm_compute; reflexivity|].
  assert (H : IAS.process (R := reference_runtime) example_ias_armt []
                example_ias_master = Success _ _)
    by (vm_compute; reflexivity).
  destruct (IAS_one_row_per_node (R := reference_runtime) example_ias_armt []
              example_ias_master _ _ reference_lists_sets H)
    as [A [B _]].
  split; [exact A | exact B].
Defined.

Lemma no_valid_nodes_witness :
  GDN.process (R := reference_runtime) example_gdn_armt_jp example_gdn_outflow
    example_gdn_master = Failed NoValidNodes.
Proof.
  apply (proj1 (no_valid_nodes (R := reference_runtime) reference_lists_sets)).
  intros row [<-|[]]. vm_compute. reflexivity.
Defined.

Lemma risk_score_never_0_witness :
  exists cadence filtered,
    GDN.process (R := reference_runtime) example_gdn_armt example_gdn_outflow
      example_gdn_master = Success cadence filtered
    /\ forall r, In r cadence ->
                 notna (risk_score r) = true /\ eq_int (risk_score r) 0 = false.
Proof.
  eexists _, _. split; [vm_compute; reflexivity|].
  eapply (proj1 (risk_score_never_0 (R := reference_runtime))
            example_gdn_armt example_gdn_outflow example_gdn_master).
  vm_compute. reflexivity.
Defined.

Lemma GDN_node_new_to_master_witness :
  exists cadence filtered r,
    GDN.process (R := reference_runtime) example_gdn_armt example_gdn_outflow
      example_gdn_master = Success cadence filtered
    /\ In r cadence
    /\ Cadence_Score r = 30
    /\ Cadence_Score r = RISK_TO_CADENCE (risk_score r)
       /\ Due_Date r = computed_due_date (R := reference_runtime) r
       /\ Previous_Cadence r = NOT_FOUND
       /\ Previous_Due_Date r = NOT_FOUND
       /\ Previous_NC r = NOT_FOUND.
Proof.
  eexists _, _, _. split; [vm_compute; reflexivity|].
  split; [left; reflexivity|]. split; [reflexivity|].
  eapply (GDN_node_new_to_master (R := reference_runtime) example_gdn_armt
            example_gdn_outflow example_gdn_master).
  - vm_compute. reflexivity.
  - left. reflexivity.
  - vm_compute. reflexivity.
Defined.

Lemma IAS_node_new_to_master_witness :
  exists cadence filtered r,
    IAS.process (R := reference_runtime) example_ias_armt [] example_ias_master
    = Success cadence filtered
    /\ In r cadence
    /\ Cadence_Score r = RISK_TO_CADENCE (risk_score r)
       /\ Due_Date r = computed_due_date (R := reference_runtime) r
       /\ Previous_Cadence r = NOT_FOUND
       /\ Previous_Due_Date r = NOT_FOUND
       /\ Previous_NC r = NOT_FOUND.
Proof.
  eexists _, _, _. split; [vm_compute; reflexivity|].
  split; [left; reflexivity|].
  eapply (IAS_node_new_to_master (R := reference_runtime) example_ias_armt
            [] example_ias_master).
  - vm_compute. reflexivity.
  - left. reflexivity.
  - vm_compute. reflexivity.
  - vm_compute. reflexivity.
Defined.

Lemma process_returns_a_table_witness :
  exists cadence filtered,
    GDN.process (R := reference_runtime) example_gdn_armt example_gdn_outflow
      example_gdn_master = Success cadence filtered.
Proof.
  apply (proj1 (process_returns_a_table (R := reference_runtime)
                  reference_lists_sets)).
  - eexists. split; [left; reflexivity | vm_compute; reflexivity].
  - intros m [<-|[]]. exists "60". split; [vm_compute; reflexivity|].
    intros x _ P. vm_compute in P. injection P as <-.
    split; [discriminate|]. split; [discriminate|].
    intros z Hz. vm_compute in Hz. injection Hz as <-. reflexivity.
Defined.

Lemma IAS_secondary_risk_not_merged_witness :
  exists cadence filtered r,
    IAS.process (R := reference_runtime) example_ias_armt [] example_ias_master
    = Success cadence filtered
    /\ In r cadence
    /\ program r = "CrossListing"
    /\ let a2 := lookup (IAS.combined_class2 (R := reference_runtime))
                   example_ias_armt (Key r) in
       risk_score r = of_int 1
       /\ program r = text_or_not_found IAS.a_program a2
       /\ Policies r = cell_or_not_found (R := reference_runtime) IAS.policy_name a2
       /\ Parent_Classes r
          = cell_or_not_found (R := reference_runtime) IAS.parent_class a2
       /\ IAS.Child_Classes (extra r)
          = cell_or_not_found (R := reference_runtime) IAS.child_class a2.
Proof.
  eexists _, _, _. split; [vm_compute; reflexivity|].
  split; [left; reflexivity|]. split; [reflexivity|].
  eapply (IAS_secondary_risk_not_merged (R := reference_runtime)
            example_ias_armt [] example_ias_master).
  - vm_compute. reflexivity.
  - left. reflexivity.
  - vm_compute. reflexivity.
Defined.

Lemma GDN_JSR_marks_policies_witness :
  exists cadence filtered r,
    GDN.process (R := reference_runtime) example_gdn_armt example_gdn_outflow
      example_gdn_master = Success cadence filtered
    /\ In r cadence
    /\ Policies r = "Policy_JSR"
    /\ JSR r = "Yes"
    /\ (JSR r = "Yes" \/ JSR r = "No")
       /\ (JSR r = "Yes"
           <-> exists a b, Policies r = (a ++ "_JSR" ++ b)%string
                           \/ Policies r = (a ++ "-JSR" ++ b)%string).
Proof.
  eexists _, _, _. split; [vm_compute; reflexivity|].
  split; [left; reflexivity|]. split; [reflexivity|]. split; [reflexivity|].
  eapply (GDN_JSR_marks_policies (R := reference_runtime) example_gdn_armt
            example_gdn_outflow example_gdn_master).
  - vm_compute. reflexivity.
  - left. reflexivity.
Defined.


Lemma IAS_process_armt_single_valued_witness :
  exists row,
    In row (IAS_armt.process_armt (R := reference_runtime) example_ias_sheet)
    /\ IAS.a_Source row = "FR" /\ IAS.a_Destination row = "TR"
    /\ (IAS.a_program row = "AmazonGlobal" \/ IAS.a_program row = "CrossListing")
       /\ Text.contains "," (IAS.a_Source row) = false
       /\ Text.contains "," (IAS.a_Destination row) = false
       /\ Text.strip (IAS.a_Source row) = IAS.a_Source row.
Proof.
  eexists. split; [vm_compute; right; right; right; left; reflexivity|].
  split; [reflexivity|]. split; [reflexivity|].
  apply (IAS_process_armt_single_valued (R := reference_runtime)
           example_ias_sheet).
  vm_compute. right. right. right. left. reflexivity.
Defined.

Lemma IAS_nodes_of_the_sheet_witness :
  In "Electronics,Cables,FR-TR"
    (IAS.create_nodes (R := reference_runtime)
       (IAS_armt.process_armt (R := reference_runtime) example_ias_sheet)).
Proof.
  apply (proj2 (IAS_nodes_of_the_sheet (R := reference_runtime)
                  example_ias_sheet "Electronics,Cables,FR-TR"
                  reference_lists_sets)).
  exists (IAS_armt.mk_raw (CText "CrossListing") (CText "Policy") (CText "Cables")
            (CText "Electronics") (CText "DE, FR") (CText "UK,TR")
            (CNum (of_int 4))), " FR", "TR".
  split; [left; reflexivity|].
  split; [vm_compute; right; left; reflexivity|].
  split; [vm_compute; right; left; reflexivity|].
  vm_compute. reflexivity.
Defined.

Lemma GDN_cadence_reads_first_row_witness :
  exists cadence filtered r,
    GDN.process (R := reference_runtime)
      (GDN_armt.process_armt (R := reference_runtime) example_gdn_sheet)
      example_gdn_outflow example_gdn_master = Success cadence filtered
    /\ In r cadence
    /\ Key r = "Cables"
    /\ program r = "AmazonGlobal" /\ Source r = "DE" /\ Destination r = "Any".
Proof.
  eexists _, _, _. split; [vm_compute; reflexivity|].
  split; [left; reflexivity|]. split; [reflexivity|].
  assert (H : GDN.process (R := reference_runtime)
                (GDN_armt.process_armt (R := reference_runtime) example_gdn_sheet)
                example_gdn_outflow example_gdn_master = Success _ _)
    by (vm_compute; reflexivity).
  exact (GDN_cadence_reads_first_row (R := reference_runtime) example_gdn_sheet
           example_gdn_outflow example_gdn_master _ _ _ H (or_introl eq_refl)).
Defined.


Lemma filtered_rows_were_carried_forward_witness :
  exists cadence filtered,
    GDN.process (R := reference_runtime) example_gdn_armt [] example_gdn_master_0
    = Success cadence filtered
    /\ filtered = []
    /\ filtered = filter (fun r => 0 <? Cadence_Score r) cadence.
Proof.
  eexists _, _. split; [vm_compute; reflexivity|]. split; [reflexivity|].
  assert (H : GDN.process (R := reference_runtime) example_gdn_armt []
                example_gdn_master_0 = Success _ _)
    by (vm_compute; reflexivity).
  exact (proj1 (proj1 (filtered_rows_were_carried_forward
                         (R := reference_runtime))
                  example_gdn_armt [] example_gdn_master_0 _ _ H)).
Defined.

Lemma more_nc_never_a_longer_interval_witness :
  updated_score (R := reference_runtime)
    (example_row 4 180 "2024-01-10" "12.0" "90" "2024-03-01" "0.0")
  <= updated_score (R := reference_runtime)
       (example_row 4 180 "2024-01-10" "5.0" "90" "2024-03-01" "0.0").
Proof.
  apply (more_nc_never_a_longer_interval (R := reference_runtime)
           (example_row 4 180 "2024-01-10" "5.0" "90" "2024-03-01" "0.0")
           (example_row 4 180 "2024-01-10" "12.0" "90" "2024-03-01" "0.0") 90);
    try (vm_compute; reflexivity).
  - simpl. tauto.
  - intros k.
    assert (E1 : safe_to_numeric (R := reference_runtime)
                   (NC_Count (example_row 4 180 "2024-01-10" "5.0" "90"
                                "2024-03-01" "0.0")) = Fin (5 # 1))
      by (vm_compute; reflexivity).
    assert (E2 : safe_to_numeric (R := reference_runtime)
                   (NC_Count (example_row 4 180 "2024-01-10" "12.0" "90"
                                "2024-03-01" "0.0")) = Fin (12 # 1))
      by (vm_compute; reflexivity).
    rewrite E1, E2. unfold ge_int, Qle_bool. simpl.
    rewrite !Z.leb_le. lia.
Defined.

Lemma to_string_safe_keeps_found_witness :
  (to_string_safe (R := reference_runtime) (CNum (of_int 5)) = NOT_FOUND
   <-> is_not_found (CNum (of_int 5)) = true)
  /\ is_not_found (CText (to_string_safe (R := reference_runtime) (CNum (of_int 5))))
     = is_not_found (CNum (of_int 5))
  /\ to_string_safe (R := reference_runtime)
       (CText (to_string_safe (R := reference_runtime) (CNum (of_int 5))))
     = to_string_safe (R := reference_runtime) (CNum (of_int 5)).
Proof.
  apply (to_string_safe_keeps_found (R := reference_runtime) (CNum (of_int 5))
           reference_prints_floats).
Defined.
